(** * PoolFormer: a shallow embedding of [models/poolformer.py]

    The network code of the repository is embedded over exact rational
    arithmetic: a tensor is a shape together with an indexing function into
    [Q].  The primitives of the tensor engine that the source calls
    ([nn.Conv2d], [nn.GroupNorm], [nn.AvgPool2d], [nn.Linear], [nn.Dropout],
    timm's [DropPath], tensor [+], [-], [*] and [mean]) are written out from
    their documented semantics; the transcendental and random parts ([GELU],
    [sqrt], the random generator) are fields of an environment record.

    Conventions of the embedding:
    - entries, rates and ratios are exact rationals: the theorems about
      them say which computation is performed and state identities that no
      rounding disturbs; the steps whose outcome depends on the rounding
      (the stochastic-depth rate, the hidden width, the token mixer on a
      constant, [DropPath] at rate 1) are embedded a second time, in binary64
      and binary32, in the module [Machine];
    - the layers act on rank-4 tensors [[B; C; H; W]] (rank 2 after the
      spatial mean); any other rank is a shape error;
    - [+] and [-] take operands of one shape, and the per-channel layer
      scale is its own operation;
    - a Python exception is a value of [PyErr]; code that can consume random
      draws runs in the monad [M], whose state counts the draws;
    - the attributes of a [PoolFormer] object are a map from names to
      values, so that reading a missing attribute is an [AttributeError];
    - the debugger calls of the source ([pdb.set_trace]) and the checkpoint
      loading of [init_weights] are left out. *)

From Stdlib Require Import ZArith QArith Qround Qpower List Bool Lia.
From Stdlib Require Import Strings.String Strings.Ascii DecimalString.
From Stdlib Require Import Floats.SpecFloat.
From stdpp Require Import gmap strings.

Local Open Scope string_scope.
Local Open Scope nat_scope.

(** ** Python exceptions and results *)

Inductive PyErr : Type :=
| IndexError
| ZeroDivisionError
| AttributeError (name : string)
| TypeError
| ValueError
| OverflowError
| RuntimeError.

Inductive Result (A : Type) : Type :=
| Ok (a : A)
| Err (e : PyErr).

Arguments Ok {A} a.
Arguments Err {A} e.

Definition rbind {A B} (r : Result A) (k : A -> Result B) : Result B :=
  match r with
  | Ok a => k a
  | Err e => Err e
  end.

(** Computations that consume random draws: the state is the number of draws
    made so far from the global generator. *)
Definition M (A : Type) : Type := nat -> Result (A * nat).

Definition ret {A} (a : A) : M A := fun n => Ok (a, n).

Definition bind {A B} (c : M A) (k : A -> M B) : M B :=
  fun n => match c n with
           | Ok (a, n') => k a n'
           | Err e => Err e
           end.

Definition lift {A} (r : Result A) : M A :=
  fun n => match r with
           | Ok a => Ok (a, n)
           | Err e => Err e
           end.

Definition raise {A} (e : PyErr) : M A := fun _ => Err e.

(** One call to the random generator: returns the identifier of the draw. *)
Definition draw : M nat := fun n => Ok (n, S n).

Notation "'let*' x ':=' c 'in' k" := (bind c (fun x => k))
  (at level 10, x name, c at level 100, k at level 200).

(** ** Tensors *)

Record Tensor : Type := mkTensor {
  tshape : list nat;
  tdata : list nat -> Q
}.

(** [sumn n f] is [f 0 + ... + f (n-1)]. *)
Fixpoint sumn (n : nat) (f : nat -> Q) : Q :=
  match n with
  | O => 0%Q
  | S k => (sumn k f + f k)%Q
  end.

(** An index is inside a shape when it has the shape's rank and each
    coordinate is below the corresponding extent. *)
Definition in_bounds (s idx : list nat) : Prop := Forall2 lt idx s.

(** Extensional equality of tensors: same shape, equal rationals at every
    index inside the shape. *)
Definition teq (x y : Tensor) : Prop :=
  tshape x = tshape y /\
  forall idx, in_bounds (tshape x) idx -> (tdata x idx == tdata y idx)%Q.

(** Elementwise binary operation on two tensors of one shape (the shapes at
    the call sites of the source are equal; unequal shapes are a shape
    error). *)
Definition tzip (op : Q -> Q -> Q) (x y : Tensor) : Result Tensor :=
  if bool_decide (tshape x = tshape y)
  then Ok (mkTensor (tshape x) (fun idx => op (tdata x idx) (tdata y idx)))
  else Err RuntimeError.

Definition tadd : Tensor -> Tensor -> Result Tensor := tzip Qplus.
Definition tsub : Tensor -> Tensor -> Result Tensor := tzip Qminus.

(** [v.unsqueeze(-1).unsqueeze(-1) * x] for a vector [v] of shape [[C]] and
    [x] of shape [[B; C; H; W]]. *)
Definition scale_channels (v x : Tensor) : Result Tensor :=
  match tshape v, tshape x with
  | [C'], [B; C; H; W] =>
      if C' =? C
      then Ok (mkTensor [B; C; H; W]
                 (fun idx => match idx with
                             | [b; c; h; w] => (tdata v [c] * tdata x idx)%Q
                             | _ => 0%Q
                             end))
      else Err RuntimeError
  | _, _ => Err RuntimeError
  end.

(** ** nn.AvgPool2d *)

Record AvgPool2d : Type := mkAvgPool2d {
  ap_kernel_size : nat;
  ap_stride : nat;
  ap_padding : nat;
  count_include_pad : bool
}.

(** Output extent of a strided window operator (floor mode). *)
Definition out_size (n k s p : nat) : nat := (n + 2 * p - k) / s + 1.

(** The window of output position [o] over an axis of extent [n]:
    clipped start, clipped end and the length of the padded window. *)
Definition pool_window (o n k s p : nat) : Z * Z * Z :=
  let start := (Z.of_nat (o * s) - Z.of_nat p)%Z in
  let stop := Z.min (start + Z.of_nat k) (Z.of_nat n + Z.of_nat p) in
  (Z.max start 0, Z.min stop (Z.of_nat n), (stop - start)%Z).

(** Sum of [f] over the integers of [[lo, hi)] ([0 <= lo]). *)
Definition sum_range (lo hi : Z) (f : nat -> Q) : Q :=
  sumn (Z.to_nat (hi - lo)) (fun u => f (Z.to_nat lo + u)).

Definition avg_pool_at (m : AvgPool2d) (H W : nat) (f : nat -> nat -> Q)
    (oh ow : nat) : Q :=
  let '(hs, he, hl) :=
    pool_window oh H (ap_kernel_size m) (ap_stride m) (ap_padding m) in
  let '(ws, we, wl) :=
    pool_window ow W (ap_kernel_size m) (ap_stride m) (ap_padding m) in
  if ((he <=? hs)%Z || (we <=? ws)%Z)%bool then 0%Q
  else
    let divide_factor :=
      if count_include_pad m then (hl * wl)%Z else ((he - hs) * (we - ws))%Z in
    (sum_range hs he (fun a => sum_range ws we (fun b => f a b))
     / inject_Z divide_factor)%Q.

Definition AvgPool2d_forward (m : AvgPool2d) (x : Tensor) : Result Tensor :=
  match tshape x with
  | [B; C; H; W] =>
      let k := ap_kernel_size m in
      let s := ap_stride m in
      let p := ap_padding m in
      if ((s =? 0) || (k / 2 <? p) || (C =? 0) || (H =? 0) || (W =? 0)
          || (H + 2 * p <? k) || (W + 2 * p <? k))%bool
      then Err RuntimeError
      else Ok (mkTensor [B; C; out_size H k s p; out_size W k s p]
                 (fun idx => match idx with
                             | [b; c; oh; ow] =>
                                 avg_pool_at m H W
                                   (fun a b' => tdata x [b; c; a; b']) oh ow
                             | _ => 0%Q
                             end))
  | _ => Err RuntimeError
  end.

(** ** Pooling (the token mixer) *)

Record Pooling : Type := mkPooling { pool : AvgPool2d }.

Definition Pooling_init (pool_size : nat) : Pooling :=
  mkPooling (mkAvgPool2d pool_size 1 (pool_size / 2) false).

Definition Pooling_forward (m : Pooling) (x : Tensor) : Result Tensor :=
  rbind (AvgPool2d_forward (pool m) x) (fun y => tsub y x).

(** ** The environment of a run *)

Record Env : Type := mkEnv {
  training : bool;                 (* [Module.training] of the whole model *)
  rand : nat -> list nat -> Q;     (* entry [idx] of the tensor of draw [n] *)
  gelu : Q -> Q;
  sqrt : Q -> Q;
  environ : gmap string string     (* [os.environ] *)
}.

Definition ones (n : nat) : Tensor := mkTensor [n] (fun _ => 1%Q).
Definition zeros (n : nat) : Tensor := mkTensor [n] (fun _ => 0%Q).

(** [c * v] for a scalar [c]. *)
Definition tscale (c : Q) (v : Tensor) : Tensor :=
  mkTensor (tshape v) (fun idx => (c * tdata v idx)%Q).

(** Python list indexing with a non-negative index, and [l[-1]]. *)
Definition getitem {A} (l : list A) (i : nat) : Result A :=
  match l !! i with
  | Some a => Ok a
  | None => Err IndexError
  end.

Definition getitem_last {A} (l : list A) : Result A :=
  match last l with
  | Some a => Ok a
  | None => Err IndexError
  end.

(** Python's [sum] on a list of integers. *)
Definition sumZ (l : list Z) : Z := fold_right Z.add 0%Z l.

(** Python's [int] on a rational: truncation toward zero. *)
Definition py_int (q : Q) : Z :=
  if Qle_bool 0 q then Qfloor q else Qceiling q.

(** Python's true division by an integer. *)
Definition py_div (a : Q) (b : Z) : Result Q :=
  if (b =? 0)%Z then Err ZeroDivisionError else Ok (a / inject_Z b)%Q.

(** ** nn.Conv2d, nn.Linear, nn.GroupNorm, nn.Dropout, DropPath *)

Record Conv2d : Type := mkConv2d {
  in_channels : nat;
  out_channels : nat;
  kernel_size : nat;
  stride : nat;
  padding : nat;
  conv_weight : Tensor;            (* [out; in; k; k] *)
  conv_bias : Tensor               (* [out] *)
}.

Record Linear : Type := mkLinear {
  in_features : nat;
  out_features : nat;
  lin_weight : Tensor;             (* [out; in] *)
  lin_bias : Tensor                (* [out] *)
}.

Record GroupNorm : Type := mkGroupNorm {
  num_groups : nat;
  num_channels : nat;
  eps : Q;
  gn_weight : Tensor;              (* [C] *)
  gn_bias : Tensor                 (* [C] *)
}.

Record LayerNormChannel : Type := mkLayerNormChannel {
  lnc_weight : Tensor;
  lnc_bias : Tensor;
  lnc_eps : Q
}.

Record Dropout : Type := mkDropout { dropout_p : Q }.

(** The [drop_path] slot of a block: [DropPath(p)] or [nn.Identity()]. *)
Inductive DropPathSlot : Type :=
| DPIdentity
| DPDropPath (drop_prob : Q).

(** A normalisation slot: [nn.Identity()] or the class [GroupNorm]. *)
Inductive NormLayer : Type :=
| NIdentity
| NGroupNorm (g : GroupNorm).

(** [sum3 C H W f] sums [f c h w] over the box [C x H x W]. *)
Definition sum3 (C H W : nat) (f : nat -> nat -> nat -> Q) : Q :=
  sumn C (fun c => sumn H (fun h => sumn W (fun w => f c h w))).

(** Zero-padded read of a rank-4 tensor at padded coordinates [a], [a']. *)
Definition padded (x : Tensor) (H W p b c a a' : nat) : Q :=
  if ((p <=? a) && (a - p <? H) && (p <=? a') && (a' - p <? W))%bool
  then tdata x [b; c; a - p; a' - p]
  else 0%Q.

Definition Conv2d_forward (m : Conv2d) (x : Tensor) : Result Tensor :=
  match tshape x with
  | [B; C; H; W] =>
      let k := kernel_size m in
      let s := stride m in
      let p := padding m in
      if (negb (C =? in_channels m) || (s =? 0) || (k =? 0)
          || (H + 2 * p <? k) || (W + 2 * p <? k))%bool
      then Err RuntimeError
      else Ok (mkTensor [B; out_channels m; out_size H k s p; out_size W k s p]
                 (fun idx =>
                    match idx with
                    | [b; o; i; j] =>
                        (tdata (conv_bias m) [o]
                         + sum3 C k k (fun c u v =>
                             tdata (conv_weight m) [o; c; u; v]
                             * padded x H W p b c (i * s + u)%nat (j * s + v)%nat))%Q
                    | _ => 0%Q
                    end))
  | _ => Err RuntimeError
  end.

Definition Linear_forward (m : Linear) (x : Tensor) : Result Tensor :=
  match tshape x with
  | [B; C] =>
      if C =? in_features m
      then Ok (mkTensor [B; out_features m]
                 (fun idx =>
                    match idx with
                    | [b; o] =>
                        (sumn C (fun i => tdata x [b; i]
                                          * tdata (lin_weight m) [o; i])
                         + tdata (lin_bias m) [o])%Q
                    | _ => 0%Q
                    end))
      else Err RuntimeError
  | _ => Err RuntimeError
  end.

(** [x.mean([-2, -1])] on a rank-4 tensor. *)
Definition mean_spatial (x : Tensor) : Result Tensor :=
  match tshape x with
  | [B; C; H; W] =>
      Ok (mkTensor [B; C]
            (fun idx =>
               match idx with
               | [b; c] =>
                   (sumn H (fun h => sumn W (fun w => tdata x [b; c; h; w]))
                    / inject_Z (Z.of_nat (H * W)))%Q
               | _ => 0%Q
               end))
  | _ => Err RuntimeError
  end.

Section WithEnv.

Variable E : Env.

(** Mean and (biased) variance of sample [b] over the channels of group [g]
    and all positions; [cg] is the number of channels of a group. *)
Definition group_mean (x : Tensor) (cg H W b g : nat) : Q :=
  (sum3 cg H W (fun t h w => tdata x [b; (g * cg + t)%nat; h; w])
   / inject_Z (Z.of_nat (cg * H * W)))%Q.

Definition group_var (x : Tensor) (cg H W b g : nat) : Q :=
  (sum3 cg H W (fun t h w =>
     (tdata x [b; (g * cg + t)%nat; h; w] - group_mean x cg H W b g)
     * (tdata x [b; (g * cg + t)%nat; h; w] - group_mean x cg H W b g))
   / inject_Z (Z.of_nat (cg * H * W)))%Q.

(** [nn.GroupNorm.forward] with affine parameters. *)
Definition GroupNorm_forward (m : GroupNorm) (x : Tensor) : Result Tensor :=
  match tshape x with
  | [B; C; H; W] =>
      if (negb (C =? num_channels m) || (num_groups m =? 0))%bool
      then Err RuntimeError
      else
        let cg := C / num_groups m in
        Ok (mkTensor [B; C; H; W]
              (fun idx =>
                 match idx with
                 | [b; c; h; w] =>
                     ((tdata x idx - group_mean x cg H W b (c / cg)%nat)
                      / sqrt E (group_var x cg H W b (c / cg)%nat + eps m)
                      * tdata (gn_weight m) [c]
                      + tdata (gn_bias m) [c])%Q
                 | _ => 0%Q
                 end))
  | _ => Err RuntimeError
  end.

(** The class [GroupNorm] of the source: [nn.GroupNorm] with one group,
    default [eps] and affine parameters initialised to ones and zeros. *)
Definition GroupNorm_init (num_channels : nat) : GroupNorm :=
  mkGroupNorm 1 num_channels (1 # 100000) (ones num_channels)
    (zeros num_channels).

(** [LayerNormChannel.forward]: statistics over the channel axis, per
    position. *)
Definition LayerNormChannel_forward (m : LayerNormChannel) (x : Tensor)
    : Result Tensor :=
  match tshape x, tshape (lnc_weight m) with
  | [B; C; H; W], [C'] =>
      if C =? C'
      then
        let u b h w :=
          (sumn C (fun c => tdata x [b; c; h; w]) / inject_Z (Z.of_nat C))%Q in
        let s b h w :=
          (sumn C (fun c => (tdata x [b; c; h; w] - u b h w)
                            * (tdata x [b; c; h; w] - u b h w))
           / inject_Z (Z.of_nat C))%Q in
        Ok (mkTensor [B; C; H; W]
              (fun idx =>
                 match idx with
                 | [b; c; h; w] =>
                     (tdata (lnc_weight m) [c]
                      * ((tdata x idx - u b h w)
                         / sqrt E (s b h w + lnc_eps m))
                      + tdata (lnc_bias m) [c])%Q
                 | _ => 0%Q
                 end))
      else Err RuntimeError
  | _, _ => Err RuntimeError
  end.

Definition LayerNormChannel_init (num_channels : nat) : LayerNormChannel :=
  mkLayerNormChannel (ones num_channels) (zeros num_channels) (1 # 100000).

Definition NormLayer_forward (m : NormLayer) (x : Tensor) : Result Tensor :=
  match m with
  | NIdentity => Ok x
  | NGroupNorm g => GroupNorm_forward g x
  end.

(** [nn.Dropout.forward]: the identity outside training or at [p = 0];
    otherwise each entry is kept with probability [1 - p] and rescaled. *)
Definition Dropout_forward (m : Dropout) (x : Tensor) : M Tensor :=
  let p := dropout_p m in
  if (training E && negb (Qeq_bool p 0))%bool
  then
    let* n := draw in
    ret (mkTensor (tshape x)
           (fun idx =>
              if Qeq_bool p 1 then 0%Q
              else if Qle_bool (1 - p) (rand E n idx) then 0%Q
              else (tdata x idx / (1 - p))%Q))
  else ret x.

(** timm's [DropPath.forward]: one Bernoulli draw per sample.  At
    [drop_prob = 1] in training the program divides by the keep probability
    0 and yields NaN ([Machine.drop_path]); the rationals have no such
    value, and the theorems that speak of the entries leave that rate
    out. *)
Definition DropPath_forward (drop_prob : Q) (x : Tensor) : M Tensor :=
  if (Qeq_bool drop_prob 0 || negb (training E))%bool
  then ret x
  else
    let keep_prob := (1 - drop_prob)%Q in
    let* n := draw in
    ret (mkTensor (tshape x)
           (fun idx =>
              match idx with
              | b :: _ =>
                  (tdata x idx / keep_prob
                   * inject_Z (Qfloor (keep_prob + rand E n [b])))%Q
              | [] => 0%Q
              end)).

Definition DropPathSlot_forward (m : DropPathSlot) (x : Tensor) : M Tensor :=
  match m with
  | DPIdentity => ret x
  | DPDropPath p => DropPath_forward p x
  end.

(** Constructors of the engine's parametrised layers.  Sizes are Python
    integers; a negative size cannot be allocated. *)
Definition Conv2d_init (in_chans out_chans : Z) (k s p : nat) : M Conv2d :=
  if ((in_chans <? 0) || (out_chans <? 0))%Z%bool then raise RuntimeError
  else
    let* nw := draw in
    let* nb := draw in
    let i := Z.to_nat in_chans in
    let o := Z.to_nat out_chans in
    ret (mkConv2d i o k s p
           (mkTensor [o; i; k; k] (rand E nw)) (mkTensor [o] (rand E nb))).

Definition Linear_init (in_feat out_feat : Z) : M Linear :=
  if ((in_feat <? 0) || (out_feat <? 0))%Z%bool then raise RuntimeError
  else
    let* nw := draw in
    let* nb := draw in
    let i := Z.to_nat in_feat in
    let o := Z.to_nat out_feat in
    ret (mkLinear i o (mkTensor [o; i] (rand E nw)) (mkTensor [o] (rand E nb))).

Definition Dropout_init (p : Q) : M Dropout :=
  if (Qle_bool 0 p && Qle_bool p 1)%bool then ret (mkDropout p)
  else raise ValueError.

End WithEnv.

(** ** The modules of the source *)

Record PatchEmbed : Type := mkPatchEmbed {
  proj : Conv2d;
  pe_norm : NormLayer
}.

Record Mlp : Type := mkMlp {
  fc1 : Conv2d;
  fc2 : Conv2d;
  drop : Dropout                   (* [act] is [nn.GELU] *)
}.

Record PoolFormerBlock : Type := mkPoolFormerBlock {
  norm1 : NormLayer;
  token_mixer : Pooling;
  norm2 : NormLayer;
  mlp : Mlp;
  drop_path : DropPathSlot;
  use_layer_scale : bool;
  layer_scale_1 : option Tensor;   (* assigned only under [use_layer_scale] *)
  layer_scale_2 : option Tensor
}.

(** An entry of [self.network]: a stage ([nn.Sequential] of blocks) or a
    downsampling [PatchEmbed]. *)
Inductive NetItem : Type :=
| Stage (blocks : list PoolFormerBlock)
| Down (pe : PatchEmbed).

Inductive Head : Type :=
| HLinear (l : Linear)
| HIdentity.

(** Values held by attributes of a [PoolFormer] object. *)
Inductive Value : Type :=
| VNone
| VBool (b : bool)
| VInt (z : Z)
| VIndices (l : list nat)
| VPatchEmbed (pe : PatchEmbed)
| VNetwork (l : list NetItem)
| VNorm (n : NormLayer)
| VHead (h : Head).

(** What [forward] returns: one tensor or the list of stage features. *)
Inductive Output : Type :=
| OTensor (t : Tensor)
| OList (l : list Tensor).

(** The constructor arguments of [PoolFormer]; [norm_layer], [act_layer],
    [init_cfg] and [pretrained] stay at their defaults ([GroupNorm],
    [nn.GELU], [None], [None]). *)
Record Config : Type := mkConfig {
  layers : list Z;
  embed_dims : list nat;
  mlp_ratios : list Q;
  downsamples : list bool;
  pool_size : nat;
  num_classes : Z;
  in_patch_size : nat;
  in_stride : nat;
  in_pad : nat;
  down_patch_size : nat;
  down_stride : nat;
  down_pad : nat;
  drop_rate : Q;
  drop_path_rate : Q;
  cfg_use_layer_scale : bool;
  layer_scale_init_value : Q;
  fork_feat : bool
}.

(** The defaults of [PoolFormer.__init__]. *)
Definition default_config (layers : list Z) (embed_dims : list nat)
    (mlp_ratios : list Q) (downsamples : list bool) : Config :=
  mkConfig layers embed_dims mlp_ratios downsamples
    3 1000 7 4 2 3 2 1 0 0 true (1 # 100000) false.

Definition getattr (self : gmap string Value) (name : string) : Result Value :=
  match self !! name with
  | Some v => Ok v
  | None => Err (AttributeError name)
  end.

Definition as_bool (v : Value) : Result bool :=
  match v with VBool b => Ok b | VNone => Ok false | _ => Err TypeError end.
Definition as_patch_embed (v : Value) : Result PatchEmbed :=
  match v with VPatchEmbed pe => Ok pe | _ => Err TypeError end.
Definition as_network (v : Value) : Result (list NetItem) :=
  match v with VNetwork l => Ok l | _ => Err TypeError end.
Definition as_indices (v : Value) : Result (list nat) :=
  match v with VIndices l => Ok l | _ => Err TypeError end.
Definition as_norm (v : Value) : Result NormLayer :=
  match v with VNorm n => Ok n | _ => Err TypeError end.
Definition as_head (v : Value) : Result Head :=
  match v with VHead h => Ok h | _ => Err TypeError end.
Definition as_int (v : Value) : Result Z :=
  match v with VInt z => Ok z | _ => Err TypeError end.

(** [f'norm{i}']. *)
Definition norm_name (i : nat) : string :=
  "norm" +:+ NilEmpty.string_of_uint (Nat.to_uint i).

(** [for a in xs: out.append(body(a))]. *)
Fixpoint for_each {A B} (xs : list A) (body : A -> M B) : M (list B) :=
  match xs with
  | [] => ret []
  | a :: rest =>
      let* b := body a in
      let* bs := for_each rest body in
      ret (b :: bs)
  end.

(** [x or y] on an optional integer. *)
Definition py_or (x : option Z) (y : Z) : Z :=
  match x with
  | Some z => if (z =? 0)%Z then y else z
  | None => y
  end.

(** The stochastic-depth rate computed in [basic_blocks], in exact
    arithmetic; [Machine.block_dpr] is the same computation in binary64. *)
Definition block_dpr (drop_path_rate : Q) (block_idx index : nat)
    (layers : list Z) : Result Q :=
  py_div (drop_path_rate
          * inject_Z (Z.of_nat block_idx + sumZ (firstn index layers)))%Q
         (sumZ layers - 1)%Z.

Section Model.

Variable E : Env.

Definition PatchEmbed_init (patch_size stride padding : nat)
    (in_chans embed_dim : Z) (norm_layer : option (nat -> NormLayer))
    : M PatchEmbed :=
  let* c := Conv2d_init E in_chans embed_dim patch_size stride padding in
  ret (mkPatchEmbed c
         match norm_layer with
         | Some cls => cls (Z.to_nat embed_dim)
         | None => NIdentity
         end).

Definition PatchEmbed_forward (m : PatchEmbed) (x : Tensor) : Result Tensor :=
  rbind (Conv2d_forward (proj m) x) (NormLayer_forward E (pe_norm m)).

(** [Mlp._init_weights] on one convolution: a fresh truncated-normal weight
    and a zero bias. *)
Definition Mlp_init_weights (c : Conv2d) : M Conv2d :=
  let* nw := draw in
  ret (mkConv2d (in_channels c) (out_channels c) (kernel_size c) (stride c)
         (padding c)
         (mkTensor (tshape (conv_weight c)) (rand E nw))
         (zeros (out_channels c))).

Definition Mlp_init (in_feat : Z) (hidden_features out_feat : option Z)
    (drop : Q) : M Mlp :=
  let out_feat := py_or out_feat in_feat in
  let hidden_features := py_or hidden_features in_feat in
  let* c1 := Conv2d_init E in_feat hidden_features 1 1 0 in
  let* c2 := Conv2d_init E hidden_features out_feat 1 1 0 in
  let* d := Dropout_init drop in
  let* c1 := Mlp_init_weights c1 in
  let* c2 := Mlp_init_weights c2 in
  ret (mkMlp c1 c2 d).

(** [nn.GELU] applied entrywise. *)
Definition act (x : Tensor) : Tensor :=
  mkTensor (tshape x) (fun idx => gelu E (tdata x idx)).

Definition Mlp_forward (m : Mlp) (x : Tensor) : M Tensor :=
  let* x := lift (Conv2d_forward (fc1 m) x) in
  let x := act x in
  let* x := Dropout_forward E (drop m) x in
  let* x := lift (Conv2d_forward (fc2 m) x) in
  let* x := Dropout_forward E (drop m) x in
  ret x.

(** [PoolFormerBlock.__init__].  The hidden width is the truncation of the
    exact product [dim * mlp_ratio]; [Machine.mlp_hidden_dim] is the
    truncation of the binary64 product, which is the same integer whenever
    the product is exact. *)
Definition PoolFormerBlock_init (dim pool_size : nat) (mlp_ratio : Q)
    (drop drop_path : Q) (use_layer_scale : bool)
    (layer_scale_init_value : Q) : M PoolFormerBlock :=
  let norm1 := NGroupNorm (GroupNorm_init dim) in
  let token_mixer := Pooling_init pool_size in
  let norm2 := NGroupNorm (GroupNorm_init dim) in
  let mlp_hidden_dim := py_int (inject_Z (Z.of_nat dim) * mlp_ratio) in
  let* mlp := Mlp_init (Z.of_nat dim) (Some mlp_hidden_dim) None drop in
  let dp :=
    if negb (Qle_bool drop_path 0) then DPDropPath drop_path else DPIdentity in
  if use_layer_scale
  then ret (mkPoolFormerBlock norm1 token_mixer norm2 mlp dp true
              (Some (tscale layer_scale_init_value (ones dim)))
              (Some (tscale layer_scale_init_value (ones dim))))
  else ret (mkPoolFormerBlock norm1 token_mixer norm2 mlp dp false None None).

(** Reading an attribute that exists only under [use_layer_scale]. *)
Definition get_layer_scale (name : string) (v : option Tensor)
    : Result Tensor :=
  match v with
  | Some t => Ok t
  | None => Err (AttributeError name)
  end.

Definition PoolFormerBlock_forward (m : PoolFormerBlock) (x : Tensor)
    : M Tensor :=
  if use_layer_scale m
  then
    let* ls1 := lift (get_layer_scale "layer_scale_1" (layer_scale_1 m)) in
    let* n1 := lift (NormLayer_forward E (norm1 m) x) in
    let* t := lift (Pooling_forward (token_mixer m) n1) in
    let* s := lift (scale_channels ls1 t) in
    let* d := DropPathSlot_forward E (drop_path m) s in
    let* x := lift (tadd x d) in
    let* ls2 := lift (get_layer_scale "layer_scale_2" (layer_scale_2 m)) in
    let* n2 := lift (NormLayer_forward E (norm2 m) x) in
    let* t := Mlp_forward (mlp m) n2 in
    let* s := lift (scale_channels ls2 t) in
    let* d := DropPathSlot_forward E (drop_path m) s in
    let* x := lift (tadd x d) in
    ret x
  else
    let* n1 := lift (NormLayer_forward E (norm1 m) x) in
    let* t := lift (Pooling_forward (token_mixer m) n1) in
    let* d := DropPathSlot_forward E (drop_path m) t in
    let* x := lift (tadd x d) in
    let* n2 := lift (NormLayer_forward E (norm2 m) x) in
    let* t := Mlp_forward (mlp m) n2 in
    let* d := DropPathSlot_forward E (drop_path m) t in
    let* x := lift (tadd x d) in
    ret x.

Definition basic_blocks (dim index : nat) (layers : list Z) (pool_size : nat)
    (mlp_ratio drop_rate drop_path_rate : Q) (use_layer_scale : bool)
    (layer_scale_init_value : Q) : M (list PoolFormerBlock) :=
  let* n := lift (getitem layers index) in
  for_each (seq 0 (Z.to_nat n))
    (fun block_idx =>
       let* dpr := lift (block_dpr drop_path_rate block_idx index layers) in
       PoolFormerBlock_init dim pool_size mlp_ratio drop_rate dpr
         use_layer_scale layer_scale_init_value).

End Model.

(** ** PoolFormer *)

(** The class [GroupNorm] used as [norm_layer]. *)
Definition GroupNorm_cls (c : nat) : NormLayer := NGroupNorm (GroupNorm_init c).

Definition enumerate {A} (l : list A) : list (nat * A) :=
  combine (seq 0 (length l)) l.

(** Truth value of [os.environ.get(name, None)]. *)
Definition env_truthy (v : option string) : bool :=
  match v with
  | Some s => negb (String.eqb s "")
  | None => false
  end.

Section Network.

Variable E : Env.

(** The stage loop of [PoolFormer.__init__]; [todo] is what is left of
    [range(len(layers))]. *)
Fixpoint build_network (cfg : Config) (todo : list nat) : M (list NetItem) :=
  match todo with
  | [] => ret []
  | i :: rest =>
      let* d := lift (getitem (embed_dims cfg) i) in
      let* r := lift (getitem (mlp_ratios cfg) i) in
      let* stage :=
        basic_blocks E d i (layers cfg) (pool_size cfg) r (drop_rate cfg)
          (drop_path_rate cfg) (cfg_use_layer_scale cfg)
          (layer_scale_init_value cfg) in
      if length (layers cfg) - 1 <=? i then ret [Stage stage]
      else
        let* ds := lift (getitem (downsamples cfg) i) in
        let* cond :=
          if ds : bool then ret true
          else
            let* d' := lift (getitem (embed_dims cfg) (i + 1)) in
            ret (negb (d =? d')) in
        if cond : bool
        then
          let* d' := lift (getitem (embed_dims cfg) (i + 1)) in
          let* pe :=
            PatchEmbed_init E (down_patch_size cfg) (down_stride cfg)
              (down_pad cfg) (Z.of_nat d) (Z.of_nat d') None in
          let* tl := build_network cfg rest in
          ret (Stage stage :: Down pe :: tl)
        else
          let* tl := build_network cfg rest in
          ret (Stage stage :: tl)
  end.

(** The loop that attaches one layer per entry of [out_indices]. *)
Fixpoint add_norms (cfg : Config) (self : gmap string Value)
    (pairs : list (nat * nat)) : Result (gmap string Value) :=
  match pairs with
  | [] => Ok self
  | (i_emb, i_layer) :: rest =>
      rbind
        (if ((i_emb =? 0) && env_truthy (environ E !! "FORK_LAST3"))%bool
         then Ok NIdentity
         else rbind (getitem (embed_dims cfg) i_emb)
                (fun d => Ok (GroupNorm_cls d)))
        (fun layer =>
           add_norms cfg (<[norm_name i_layer := VNorm layer]> self) rest)
  end.

(** [cls_init_weights] on a linear layer. *)
Definition cls_init_weights (l : Linear) : M Linear :=
  let* nw := draw in
  ret (mkLinear (in_features l) (out_features l)
         (mkTensor (tshape (lin_weight l)) (rand E nw))
         (zeros (out_features l))).

(** [self.apply(self.cls_init_weights)]: the only [nn.Linear] of the model
    is the head. *)
Definition apply_cls_init_weights (self : gmap string Value)
    : M (gmap string Value) :=
  match self !! "head" with
  | Some (VHead (HLinear l)) =>
      let* l' := cls_init_weights l in
      ret (<["head" := VHead (HLinear l')]> self)
  | _ => ret self
  end.

Definition PoolFormer_init (cfg : Config) : M (gmap string Value) :=
  let self : gmap string Value := ∅ in
  let self :=
    if negb (fork_feat cfg)
    then <["num_classes" := VInt (num_classes cfg)]> self
    else self in
  let self := <["fork_feat" := VBool (fork_feat cfg)]> self in
  let* d0 := lift (getitem (embed_dims cfg) 0) in
  let* pe :=
    PatchEmbed_init E (in_patch_size cfg) (in_stride cfg) (in_pad cfg)
      3 (Z.of_nat d0) None in
  let self := <["patch_embed" := VPatchEmbed pe]> self in
  let* network := build_network cfg (seq 0 (length (layers cfg))) in
  let self := <["network" := VNetwork network]> self in
  let* self :=
    if fork_feat cfg
    then
      let out_indices := [0; 2; 4; 6] in
      let self := <["out_indices" := VIndices out_indices]> self in
      lift (add_norms cfg self (enumerate out_indices))
    else
      let* dl := lift (getitem_last (embed_dims cfg)) in
      let self := <["norm" := VNorm (GroupNorm_cls dl)]> self in
      let* head :=
        if (0 <? num_classes cfg)%Z
        then
          let* l := Linear_init E (Z.of_nat dl) (num_classes cfg) in
          ret (HLinear l)
        else ret HIdentity in
      ret (<["head" := VHead head]> self) in
  let* self := apply_cls_init_weights self in
  ret (<["init_cfg" := VNone]> self).

Definition get_classifier (self : gmap string Value) : Result Value :=
  getattr self "head".

(** [reset_classifier] assigns before it can fail, so the object is returned
    next to the outcome (the new generator state on success). *)
Definition reset_classifier (self : gmap string Value) (num_classes : Z)
    (n : nat) : gmap string Value * Result nat :=
  let self := <["num_classes" := VInt num_classes]> self in
  if (0 <? num_classes)%Z
  then
    match rbind (getattr self "embed_dim") as_int with
    | Err e => (self, Err e)
    | Ok d =>
        match Linear_init E d num_classes n with
        | Ok (l, n') => (<["head" := VHead (HLinear l)]> self, Ok n')
        | Err e => (self, Err e)
        end
    end
  else (<["head" := VHead HIdentity]> self, Ok n).

(** [nn.Sequential.forward] over the blocks of a stage. *)
Fixpoint Sequential_forward (blocks : list PoolFormerBlock) (x : Tensor)
    : M Tensor :=
  match blocks with
  | [] => ret x
  | b :: rest =>
      let* x := PoolFormerBlock_forward E b x in
      Sequential_forward rest x
  end.

Definition NetItem_forward (m : NetItem) (x : Tensor) : M Tensor :=
  match m with
  | Stage blocks => Sequential_forward blocks x
  | Down pe => lift (PatchEmbed_forward E pe x)
  end.

Definition Head_forward (h : Head) (x : Tensor) : Result Tensor :=
  match h with
  | HLinear l => Linear_forward l x
  | HIdentity => Ok x
  end.

Definition forward_embeddings (self : gmap string Value) (x : Tensor)
    : M Tensor :=
  let* pe := lift (rbind (getattr self "patch_embed") as_patch_embed) in
  lift (PatchEmbed_forward E pe x).

(** The loop of [forward_tokens] over [enumerate(self.network)]. *)
Fixpoint tokens_loop (self : gmap string Value) (items : list (nat * NetItem))
    (x : Tensor) (outs : list Tensor) : M (Tensor * list Tensor) :=
  match items with
  | [] => ret (x, outs)
  | (idx, block) :: rest =>
      let* x := NetItem_forward block x in
      let* fork := lift (rbind (getattr self "fork_feat") as_bool) in
      let* hit :=
        if fork : bool
        then
          let* oi := lift (rbind (getattr self "out_indices") as_indices) in
          ret (bool_decide (idx ∈ oi))
        else ret false in
      let* outs :=
        if hit : bool
        then
          let* nl := lift (rbind (getattr self (norm_name idx)) as_norm) in
          let* x_out := lift (NormLayer_forward E nl x) in
          ret (outs ++ [x_out])%list
        else ret outs in
      tokens_loop self rest x outs
  end.

Definition forward_tokens (self : gmap string Value) (x : Tensor) : M Output :=
  let* network := lift (rbind (getattr self "network") as_network) in
  let* r := tokens_loop self (enumerate network) x [] in
  let* fork := lift (rbind (getattr self "fork_feat") as_bool) in
  if fork : bool then ret (OList (snd r)) else ret (OTensor (fst r)).

Definition forward (self : gmap string Value) (x : Tensor) : M Output :=
  let* x := forward_embeddings self x in
  let* r := forward_tokens self x in
  let* fork := lift (rbind (getattr self "fork_feat") as_bool) in
  if fork : bool then ret r
  else
    match r with
    | OTensor x =>
        let* nl := lift (rbind (getattr self "norm") as_norm) in
        let* x := lift (NormLayer_forward E nl x) in
        let* h := lift (rbind (getattr self "head") as_head) in
        let* m := lift (mean_spatial x) in
        let* cls_out := lift (Head_forward h m) in
        ret (OTensor cls_out)
    | OList _ => raise TypeError
    end.

End Network.

(** ** The published presets *)

Definition all4 {A} (a : A) : list A := [a; a; a; a].

Definition poolformer_s12 : Config :=
  default_config [2; 2; 6; 2]%Z [64; 128; 320; 512] (all4 4%Q) (all4 true).

Definition poolformer_s24 : Config :=
  default_config [4; 4; 12; 4]%Z [64; 128; 320; 512] (all4 4%Q) (all4 true).

Definition with_layer_scale_init_value (v : Q) (c : Config) : Config :=
  mkConfig (layers c) (embed_dims c) (mlp_ratios c) (downsamples c)
    (pool_size c) (num_classes c) (in_patch_size c) (in_stride c) (in_pad c)
    (down_patch_size c) (down_stride c) (down_pad c) (drop_rate c)
    (drop_path_rate c) (cfg_use_layer_scale c) v (fork_feat c).

Definition with_fork_feat (f : bool) (c : Config) : Config :=
  mkConfig (layers c) (embed_dims c) (mlp_ratios c) (downsamples c)
    (pool_size c) (num_classes c) (in_patch_size c) (in_stride c) (in_pad c)
    (down_patch_size c) (down_stride c) (down_pad c) (drop_rate c)
    (drop_path_rate c) (cfg_use_layer_scale c) (layer_scale_init_value c) f.

Definition with_num_classes (n : Z) (c : Config) : Config :=
  mkConfig (layers c) (embed_dims c) (mlp_ratios c) (downsamples c)
    (pool_size c) n (in_patch_size c) (in_stride c) (in_pad c)
    (down_patch_size c) (down_stride c) (down_pad c) (drop_rate c)
    (drop_path_rate c) (cfg_use_layer_scale c) (layer_scale_init_value c)
    (fork_feat c).

Definition poolformer_s36 : Config :=
  with_layer_scale_init_value (1 # 1000000)
    (default_config [6; 6; 18; 6]%Z [64; 128; 320; 512] (all4 4%Q) (all4 true)).

Definition poolformer_m36 : Config :=
  with_layer_scale_init_value (1 # 1000000)
    (default_config [6; 6; 18; 6]%Z [96; 192; 384; 768] (all4 4%Q) (all4 true)).

Definition poolformer_m48 : Config :=
  with_layer_scale_init_value (1 # 1000000)
    (default_config [8; 8; 24; 8]%Z [96; 192; 384; 768] (all4 4%Q) (all4 true)).

Definition poolformer_s12_feat : Config := with_fork_feat true poolformer_s12.

(** A concrete environment and input for running the model. *)
Definition env0 : Env :=
  mkEnv false (fun _ _ => 1 # 2) (fun q => q) (fun q => q) ∅.

Definition image (B H W : nat) : Tensor :=
  mkTensor [B; 3; H; W] (fun _ => 1%Q).

Definition output_shapes (r : Result (Output * nat)) : Result (list (list nat)) :=
  match r with
  | Ok (OTensor t, _) => Ok [tshape t]
  | Ok (OList l, _) => Ok (map tshape l)
  | Err e => Err e
  end.

Definition run (E : Env) (cfg : Config) (x : Tensor)
    : Result (list (list nat)) :=
  match PoolFormer_init E cfg 0 with
  | Ok (self, n) => output_shapes (forward E self x n)
  | Err e => Err e
  end.


(** ** What the specification says, in its own words *)

(** Position [a] lies in the window of half-width [k / 2] centred at [i]. *)
Definition in_window (k i a : nat) : bool :=
  ((i <=? a + k / 2) && (a <=? i + k / 2))%bool.

(** Sum of [f] over the in-bounds part of the [k x k] window at [(i, j)]. *)
Definition window_sum (k H W : nat) (f : nat -> nat -> Q) (i j : nat) : Q :=
  sumn H (fun a =>
    sumn W (fun b =>
      if (in_window k i a && in_window k j b)%bool then f a b else 0%Q)).

(** Average over the in-bounds elements of the window only. *)
Definition excluded_padding_average (k H W : nat) (f : nat -> nat -> Q)
    (i j : nat) : Q :=
  (window_sum k H W f i j / window_sum k H W (fun _ _ => 1%Q) i j)%Q.

(** Entry [t] of sample [b] in the row-major flattening of its
    [C x H x W] volume. *)
Definition flat_entry (x : Tensor) (H W b t : nat) : Q :=
  tdata x [b; t / (H * W); t mod (H * W) / W; t mod (H * W) mod W].

(** One mean and one (biased) variance per sample, over the flattened
    volume. *)
Definition flat_mean (x : Tensor) (C H W b : nat) : Q :=
  (sumn (C * H * W) (flat_entry x H W b)
   / inject_Z (Z.of_nat (C * H * W)))%Q.

Definition flat_var (x : Tensor) (C H W b : nat) : Q :=
  (sumn (C * H * W) (fun t =>
     (flat_entry x H W b t - flat_mean x C H W b)
     * (flat_entry x H W b t - flat_mean x C H W b))
   / inject_Z (Z.of_nat (C * H * W)))%Q.

(** The learned affine parameters of a normalisation layer replaced by
    [w] and [b] (training or a loaded checkpoint). *)
Definition with_affine (g : GroupNorm) (w b : Tensor) : GroupNorm :=
  mkGroupNorm (num_groups g) (num_channels g) (eps g) w b.

(** The rate of block [block_idx] of stage [i]: linear interpolation over
    the global position of the block. *)
Definition stage_rate (max_drop_path_rate : Q) (block_idx i : nat)
    (block_counts : list Z) : Q :=
  (max_drop_path_rate
   * inject_Z (Z.of_nat block_idx + sumZ (firstn i block_counts))
   / inject_Z (sumZ block_counts - 1))%Q.

(** Shape facts about the modules of a block of width [dim]. *)
Definition conv1x1 (c : Conv2d) : Prop :=
  kernel_size c = 1 /\ stride c = 1 /\ padding c = 0.

Definition mlp_wf (dim : nat) (m : Mlp) : Prop :=
  in_channels (fc1 m) = dim /\ out_channels (fc2 m) = dim /\
  in_channels (fc2 m) = out_channels (fc1 m) /\
  conv1x1 (fc1 m) /\ conv1x1 (fc2 m).

(** A group normalisation over [dim] channels, whatever its learned affine
    parameters. *)
Definition norm_wf (dim : nat) (nl : NormLayer) : Prop :=
  exists g, nl = NGroupNorm g /\ num_channels g = dim /\ num_groups g <> 0.

Definition block_wf (dim k : nat) (m : PoolFormerBlock) : Prop :=
  norm_wf dim (norm1 m) /\
  norm_wf dim (norm2 m) /\
  token_mixer m = Pooling_init k /\
  mlp_wf dim (mlp m) /\
  (use_layer_scale m = true ->
   exists t1 t2, layer_scale_1 m = Some t1 /\ layer_scale_2 m = Some t2 /\
                 tshape t1 = [dim] /\ tshape t2 = [dim]).

(** The [drop_path] slot that [PoolFormerBlock.__init__] builds for a
    rate. *)
Definition drop_path_slot (rate : Q) : DropPathSlot :=
  if negb (Qle_bool rate 0) then DPDropPath rate else DPIdentity.

(** [LayerScale * t], where a disabled layer scale leaves [t] as it is. *)
Definition apply_scale (scale : option Tensor) (t : Tensor) : Result Tensor :=
  match scale with
  | Some v => scale_channels v t
  | None => Ok t
  end.

(** One residual update:
    [x + drop_path(LayerScale * Branch(Norm(x)))]. *)
Definition residual_update (E : Env) (norm : NormLayer)
    (branch : Tensor -> M Tensor) (scale : option Tensor) (dp : DropPathSlot)
    (x : Tensor) : M Tensor :=
  let* n := lift (NormLayer_forward E norm x) in
  let* t := branch n in
  let* s := lift (apply_scale scale t) in
  let* d := DropPathSlot_forward E dp s in
  lift (tadd x d).

(** The layer scale in force: none when the feature is turned off. *)
Definition effective_scale (use : bool) (v : option Tensor) : option Tensor :=
  if use then v else None.

(** The two residual updates of a block, token mixer first, MLP second. *)
Definition two_residual_updates (E : Env) (m : PoolFormerBlock) (x : Tensor)
    : M Tensor :=
  let* x :=
    residual_update E (norm1 m)
      (fun t => lift (Pooling_forward (token_mixer m) t))
      (effective_scale (use_layer_scale m) (layer_scale_1 m))
      (drop_path m) x in
  residual_update E (norm2 m) (Mlp_forward E (mlp m))
    (effective_scale (use_layer_scale m) (layer_scale_2 m))
    (drop_path m) x.

(** The layer-scale attributes exist whenever the block uses them. *)
Definition layer_scale_present (m : PoolFormerBlock) : Prop :=
  use_layer_scale m = true ->
  is_Some (layer_scale_1 m) /\ is_Some (layer_scale_2 m).


(** A small block of width 2 (hidden width 8, window 3), as the constructor
    builds it when every random draw is 1/2. *)
Definition sample_conv (i o : nat) : Conv2d :=
  mkConv2d i o 1 1 0 (mkTensor [o; i; 1; 1] (fun _ => 1 # 2)) (zeros o).

Definition sample_block (dp : DropPathSlot) : PoolFormerBlock :=
  mkPoolFormerBlock (GroupNorm_cls 2) (Pooling_init 3) (GroupNorm_cls 2)
    (mkMlp (sample_conv 2 8) (sample_conv 8 2) (mkDropout 0)) dp true
    (Some (tscale (1 # 100000) (ones 2)))
    (Some (tscale (1 # 100000) (ones 2))).

(** The environment [env0] in training mode. *)
Definition env_train : Env :=
  mkEnv true (fun _ _ => 1 # 2) (fun q => q) (fun q => q) ∅.

(** A 1 x 2 x 2 x 2 input with distinct entries. *)
Definition sample_input : Tensor :=
  mkTensor [1; 2; 2; 2]
    (fun idx => match idx with
                | [_; c; h; w] => inject_Z (Z.of_nat (4 * c + 2 * h + w))
                | _ => 0%Q
                end).

Definition is_ok {A} (r : Result A) : bool :=
  match r with
  | Ok _ => true
  | Err _ => false
  end.

(** The list arguments of a configuration disagree in length. *)
Definition lengths_mismatch (cfg : Config) : Prop :=
  ~ (length (embed_dims cfg) = length (layers cfg) /\
     length (mlp_ratios cfg) = length (layers cfg) /\
     length (downsamples cfg) = length (layers cfg)).

(** What the specification asks of the constructor: every configuration
    with mismatched lengths or at most one block is rejected. *)
Definition rejects_invalid_configurations (E : Env) : Prop :=
  forall cfg n,
    lengths_mismatch cfg \/ (sumZ (layers cfg) <= 1)%Z ->
    exists e, PoolFormer_init E cfg n = Err e.

(** A configuration without any block, and one whose [embed_dims] has a
    fifth entry. *)
Definition no_block_config : Config :=
  default_config [0; 0; 0; 0]%Z [64; 128; 320; 512] (all4 4%Q) (all4 true).

Definition long_dims_config : Config :=
  default_config [2; 2; 6; 2]%Z [64; 128; 320; 512; 1024] (all4 4%Q)
    (all4 true).












(** Four stages of one width without downsampling, as a backbone. *)
Definition flat_feat_config : Config :=
  with_fork_feat true
    (default_config [2; 2; 6; 2]%Z [64; 64; 64; 64] (all4 4%Q) (all4 false)).

(** ** Vocabulary of the further properties *)

(** A computation that draws no random number: it is a plain result, the
    same from every state of the generator, which it leaves as it is. *)
Definition draws_nothing {A} (c : M A) : Prop :=
  exists r, forall n, c n = lift r n.

(** The stages of a network, in order. *)
Definition stages (items : list NetItem) : list (list PoolFormerBlock) :=
  flat_map (fun item => match item with
                        | Stage blocks => [blocks]
                        | Down _ => []
                        end) items.

(** A block whose forward pass has no random part under [E]: the model is
    not in training, or the block has no [DropPath] and dropout probability
    0. *)
Definition quiet_block (E : Env) (m : PoolFormerBlock) : Prop :=
  training E = false \/
  (drop_path m = DPIdentity /\ Qeq_bool (dropout_p (drop (mlp m))) 0 = true).

Definition quiet_network (E : Env) (items : list NetItem) : Prop :=
  Forall (Forall (quiet_block E)) (stages items).


(** [forward] returned a single tensor. *)
Definition returns_tensor (r : Result (Output * nat)) : bool :=
  match r with
  | Ok (OTensor _, _) => true
  | _ => false
  end.


(** Two tensors of one shape that agree on sample [b]. *)
Definition same_sample (b : nat) (x x' : Tensor) : Prop :=
  tshape x = tshape x' /\
  forall rest, (tdata x (b :: rest) == tdata x' (b :: rest))%Q.

(** Two results that fail alike or succeed with related values. *)
Definition rel_result {A} (R : A -> A -> Prop) (r r' : Result A) : Prop :=
  match r, r' with
  | Ok a, Ok a' => R a a'
  | Err e, Err e' => e = e'
  | _, _ => False
  end.

(** Two computations that, from every generator state, fail alike or
    succeed with related values and the same new state. *)
Definition rel_M {A} (R : A -> A -> Prop) (c c' : M A) : Prop :=
  forall n,
    rel_result (fun p p' => R (fst p) (fst p') /\ snd p = snd p') (c n) (c' n).

Definition same_output (b : nat) (o o' : Output) : Prop :=
  match o, o' with
  | OTensor t, OTensor t' => same_sample b t t'
  | OList l, OList l' => Forall2 (same_sample b) l l'
  | _, _ => False
  end.


(** Position [i] is listed in [out_indices]. *)
Definition listed (oi : list nat) (i : nat) : bool := bool_decide (i ∈ oi).


(** ** Machine arithmetic

    Python computes its floats in IEEE 754 binary64 and the engine its
    tensors in binary32, each operation rounded to nearest, ties to even.
    The definitions above follow the computation in exact arithmetic.  The
    steps of the source whose outcome depends on the rounding are embedded
    once more in this module, over the Standard Library's specification of
    IEEE arithmetic: a [spec_float] is a signed zero, a signed infinity, NaN
    or a finite number [(-1)^s * m * 2^e]. *)

Module Machine.

(** The number that a float stands for, if it is one. *)
Definition value (f : spec_float) : option Q :=
  match f with
  | S754_zero _ => Some 0%Q
  | S754_finite s m e => Some (inject_Z (cond_Zopp s (Z.pos m)) * 2 ^ e)%Q
  | _ => None
  end.

(** [f] is the rational number [q]. *)
Definition represents (f : spec_float) (q : Q) : Prop :=
  exists q', value f = Some q' /\ (q' == q)%Q.

Definition is_zero (f : spec_float) : bool :=
  match f with
  | S754_zero _ => true
  | _ => false
  end.

(** Neither an infinity nor NaN. *)
Definition is_finite (f : spec_float) : bool :=
  match f with
  | S754_zero _ | S754_finite _ _ _ => true
  | _ => false
  end.

(** *** Python floats: binary64 *)

(** [float(1)]. *)
Definition one : spec_float := binary_normalize 53 1024 1 0 false.

Definition mul64 : spec_float -> spec_float -> spec_float := SFmul 53 1024.
Definition div64 : spec_float -> spec_float -> spec_float := SFdiv 53 1024.
Definition sub64 : spec_float -> spec_float -> spec_float := SFsub 53 1024.

(** The conversion of a Python integer that precedes an operation with a
    float: the nearest float, or [OverflowError] beyond the largest one. *)
Definition float_of_int (z : Z) : Result spec_float :=
  match binary_normalize 53 1024 z 0 false with
  | S754_infinity _ => Err OverflowError
  | f => Ok f
  end.

(** [a / b] on floats. *)
Definition truediv (a b : spec_float) : Result spec_float :=
  if is_zero b then Err ZeroDivisionError else Ok (div64 a b).

(** [int(f)]: truncation toward zero. *)
Definition int_of_float (f : spec_float) : Result Z :=
  match f with
  | S754_zero _ => Ok 0%Z
  | S754_infinity _ => Err OverflowError
  | S754_nan => Err ValueError
  | S754_finite s m e =>
      Ok (cond_Zopp s
            match e with
            | Z.neg k => (Z.pos m / 2 ^ Z.pos k)%Z
            | _ => (Z.pos m * 2 ^ e)%Z
            end)
  end.

(** The stochastic-depth rate of [basic_blocks]:
    [drop_path_rate * (block_idx + sum(layers[:index])) / (sum(layers) - 1)],
    the product first, then the quotient. *)
Definition block_dpr (drop_path_rate : spec_float) (block_idx index : nat)
    (layers : list Z) : Result spec_float :=
  rbind (float_of_int (Z.of_nat block_idx + sumZ (firstn index layers)))
    (fun n =>
       let product := mul64 drop_path_rate n in
       rbind (float_of_int (sumZ layers - 1)) (fun d => truediv product d)).

(** [DropPath(drop_path) if drop_path > 0. else nn.Identity()]: the
    probability of the [DropPath], or [None] for the identity. *)
Definition drop_path_slot (drop_path : spec_float) : option spec_float :=
  if SFltb (S754_zero false) drop_path then Some drop_path else None.

(** The loop of [basic_blocks] over [range(layers[index])], as far as
    stochastic depth goes: the [drop_path] attribute of each block it
    builds, in order. *)
Definition basic_blocks (index : nat) (layers : list Z)
    (drop_path_rate : spec_float) : Result (list (option spec_float)) :=
  rbind (getitem layers index)
    (fun n =>
       fold_right
         (fun block_idx rest =>
            rbind (block_dpr drop_path_rate block_idx index layers)
              (fun dpr =>
                 rbind rest (fun slots => Ok (drop_path_slot dpr :: slots))))
         (Ok []) (seq 0 (Z.to_nat n))).

(** [int(dim * mlp_ratio)] of [PoolFormerBlock.__init__]. *)
Definition mlp_hidden_dim (dim : nat) (mlp_ratio : spec_float) : Result Z :=
  rbind (float_of_int (Z.of_nat dim))
    (fun d => int_of_float (mul64 d mlp_ratio)).

(** *** Tensors: binary32 *)

Definition add32 : spec_float -> spec_float -> spec_float := SFadd 24 128.
Definition sub32 : spec_float -> spec_float -> spec_float := SFsub 24 128.
Definition mul32 : spec_float -> spec_float -> spec_float := SFmul 24 128.
Definition div32 : spec_float -> spec_float -> spec_float := SFdiv 24 128.

(** An integer count as a binary32 number. *)
Definition float32_of_int (z : Z) : spec_float :=
  binary_normalize 24 128 z 0 false.

(** A Python float operand of a tensor operation takes the tensor's type. *)
Definition float32_of_float (f : spec_float) : spec_float :=
  match f with
  | S754_finite s m e => binary_round 24 128 s m e
  | _ => f
  end.

(** [floor] on a binary32 number. *)
Definition floor32 (f : spec_float) : spec_float :=
  match f with
  | S754_finite s m (Z.neg k) =>
      let q := (cond_Zopp s (Z.pos m) / 2 ^ Z.pos k)%Z in
      if (q =? 0)%Z then S754_zero s else float32_of_int q
  | _ => f
  end.

Record Tensor : Type := mkTensor {
  tshape : list nat;
  tdata : list nat -> spec_float
}.

(** [accumulate n step acc] runs [step 0], ..., [step (n-1)] on one
    accumulator. *)
Fixpoint accumulate (n : nat) (step : nat -> spec_float -> spec_float)
    (acc : spec_float) : spec_float :=
  match n with
  | O => acc
  | S k => step k (accumulate k step acc)
  end.

(** The running sum of [f] over the rows [[hs, he)] and, within each row,
    the columns [[ws, we)], in one accumulator that starts at zero. *)
Definition window_sum (hs he ws we : Z) (f : nat -> nat -> spec_float)
    : spec_float :=
  accumulate (Z.to_nat (he - hs))
    (fun u acc =>
       accumulate (Z.to_nat (we - ws))
         (fun v acc' => add32 acc' (f (Z.to_nat hs + u) (Z.to_nat ws + v)))
         acc)
    (S754_zero false).

Definition avg_pool_at (m : AvgPool2d) (H W : nat)
    (f : nat -> nat -> spec_float) (oh ow : nat) : spec_float :=
  let '(hs, he, hl) :=
    pool_window oh H (ap_kernel_size m) (ap_stride m) (ap_padding m) in
  let '(ws, we, wl) :=
    pool_window ow W (ap_kernel_size m) (ap_stride m) (ap_padding m) in
  if ((he <=? hs)%Z || (we <=? ws)%Z)%bool then S754_zero false
  else
    let divide_factor :=
      if count_include_pad m then (hl * wl)%Z else ((he - hs) * (we - ws))%Z in
    div32 (window_sum hs he ws we f) (float32_of_int divide_factor).

Definition AvgPool2d_forward (m : AvgPool2d) (x : Tensor) : Result Tensor :=
  match tshape x with
  | [B; C; H; W] =>
      let k := ap_kernel_size m in
      let s := ap_stride m in
      let p := ap_padding m in
      if ((s =? 0) || (k / 2 <? p) || (C =? 0) || (H =? 0) || (W =? 0)
          || (H + 2 * p <? k) || (W + 2 * p <? k))%bool
      then Err RuntimeError
      else Ok (mkTensor [B; C; out_size H k s p; out_size W k s p]
                 (fun idx => match idx with
                             | [b; c; oh; ow] =>
                                 avg_pool_at m H W
                                   (fun a b' => tdata x [b; c; a; b']) oh ow
                             | _ => S754_zero false
                             end))
  | _ => Err RuntimeError
  end.

(** [y - x] on tensors of one shape. *)
Definition tsub (y x : Tensor) : Result Tensor :=
  if bool_decide (tshape y = tshape x)
  then Ok (mkTensor (tshape y) (fun idx => sub32 (tdata y idx) (tdata x idx)))
  else Err RuntimeError.

(** [Pooling.forward]: [self.pool(x) - x]. *)
Definition Pooling_forward (m : Pooling) (x : Tensor) : Result Tensor :=
  rbind (AvgPool2d_forward (pool m) x) (fun y => tsub y x).

(** timm's [drop_path] at one entry [x] of a sample whose random number is
    [r]; [drop_prob] is the Python float held by the [DropPath]. *)
Definition drop_path (drop_prob : spec_float) (training : bool)
    (x r : spec_float) : spec_float :=
  if (SFeqb drop_prob (S754_zero false) || negb training)%bool then x
  else
    let keep_prob := float32_of_float (sub64 one drop_prob) in
    let random_tensor := floor32 (add32 keep_prob r) in
    mul32 (div32 x keep_prob) random_tensor.

Definition DropPathSlot_forward (slot : option spec_float) (training : bool)
    (x r : spec_float) : spec_float :=
  match slot with
  | Some drop_prob => drop_path drop_prob training x r
  | None => x
  end.

(** One residual update of [PoolFormerBlock.forward] at one entry:
    [x + self.drop_path(layer_scale * t)], where [t] is the entry of the
    branch output and [layer_scale] that of the entry's channel. *)
Definition residual_update (slot : option spec_float) (training : bool)
    (layer_scale t x r : spec_float) : spec_float :=
  add32 x (DropPathSlot_forward slot training (mul32 layer_scale t) r).

(** The two updates of a block with layer scale at one entry; [t1] and [t2]
    are the entries of [token_mixer(norm1(x))] and of [mlp(norm2(x))]. *)
Definition PoolFormerBlock_forward (slot : option spec_float)
    (training : bool) (layer_scale_1 layer_scale_2 t1 t2 x r1 r2 : spec_float)
    : spec_float :=
  let x := residual_update slot training layer_scale_1 t1 x r1 in
  residual_update slot training layer_scale_2 t2 x r2.

(** The number of in-bounds elements along one axis of extent [n] in the
    window of size [k] centred at [i]. *)
Definition window_extent (k n i : nat) : nat :=
  Nat.min (i + k / 2 + 1) n - (i - k / 2).

(** What the token mixer leaves of a constant [c] where the window holds
    [n] elements: the running sum of [n] copies, divided by [n], minus
    [c]. *)
Definition constant_residue (c : spec_float) (n : nat) : spec_float :=
  sub32
    (div32 (accumulate n (fun _ acc => add32 acc c) (S754_zero false))
       (float32_of_int (Z.of_nat n)))
    c.

(** The average of [r * s] copies of [c] gives back [c], for every window
    of [r] rows and [s] columns inside a [k x k] kernel. *)
Definition averages_exactly (c : spec_float) (k : nat) : bool :=
  forallb (fun r =>
    forallb (fun s => is_zero (constant_residue c (r * s))) (seq 1 k))
    (seq 1 k).

(** The tensor of one shape with every entry [c]. *)
Definition full (shape : list nat) (c : spec_float) : Tensor :=
  mkTensor shape (fun _ => c).

(** The decimal literals [0.1] and [0.5] as Python reads them, and as
    binary32 tensor entries. *)
Definition tenth : spec_float :=
  div64 one (binary_normalize 53 1024 10 0 false).

Definition tenth32 : spec_float := float32_of_float tenth.

Definition half32 : spec_float := S754_finite false 8388608 (-24).


End Machine.

(** What the specification says of the rates: the rate is the rational
    number of the formula, so that the rate of the last block of the last
    stage is the maximal rate itself. *)
Definition rate_is_exact (max_rate : spec_float) (block_idx i : nat)
    (block_counts : list Z) : Prop :=
  exists r q m,
    Machine.block_dpr max_rate block_idx i block_counts = Ok r /\
    Machine.value r = Some q /\ Machine.value max_rate = Some m /\
    (q == stage_rate m block_idx i block_counts)%Q.

(** What the specification says of the token mixer on a constant input:
    every entry of the output is zero. *)
Definition zero_everywhere (r : Result Machine.Tensor) : Prop :=
  exists y,
    r = Ok y /\
    forall idx, in_bounds (Machine.tshape y) idx ->
      Machine.is_zero (Machine.tdata y idx) = true.


(** * Proofs *)

(** ** Finite sums *)

Lemma sumn_ext (n : nat) (f g : nat -> Q) :
  (forall i, i < n -> (f i == g i)%Q) -> (sumn n f == sumn n g)%Q.
Proof.
  induction n as [|n IH]; intros Hfg; simpl.
  - reflexivity.
  - rewrite IH by (intros i Hi; apply Hfg; lia).
    rewrite (Hfg n) by lia. reflexivity.
Qed.

Lemma sumn_zero (n : nat) (f : nat -> Q) :
  (forall i, i < n -> (f i == 0)%Q) -> (sumn n f == 0)%Q.
Proof.
  induction n as [|n IH]; intros Hf; simpl.
  - reflexivity.
  - rewrite IH by (intros i Hi; apply Hf; lia).
    rewrite (Hf n) by lia. ring.
Qed.

Lemma sumn_const (n : nat) (c : Q) :
  (sumn n (fun _ => c) == inject_Z (Z.of_nat n) * c)%Q.
Proof.
  induction n as [|n IH].
  - simpl. ring.
  - cbn [sumn]. rewrite IH, Nat2Z.inj_succ.
    unfold Z.succ. rewrite inject_Z_plus. ring.
Qed.

(** A sum restricted by an interval test is the sum over the interval. *)
Lemma sumn_interval (n lo hi : nat) (g : nat -> Q) :
  lo <= hi -> hi <= n ->
  (sumn n (fun a => if ((lo <=? a)%nat && (a <? hi)%nat)%bool then g a else 0)
   == sumn (hi - lo)%nat (fun u => g (lo + u)%nat))%Q.
Proof.
  revert hi. induction n as [|n IH]; intros hi Hlo Hhi.
  - replace (hi - lo) with 0 by lia. reflexivity.
  - cbn [sumn]. destruct (Nat.eq_dec hi (S n)) as [->|Hne].
    + destruct (Nat.eq_dec lo (S n)) as [->|Hlo'].
      * replace (S n - S n) with 0 by lia. cbn [sumn].
        rewrite sumn_zero.
        -- destruct (S n <=? n) eqn:Hc; [apply Nat.leb_le in Hc; lia|].
           simpl. ring.
        -- intros i Hi. destruct (S n <=? i) eqn:Hc;
             [apply Nat.leb_le in Hc; lia | reflexivity].
      * replace (S n - lo) with (S (n - lo)) by lia. cbn [sumn].
        replace (lo + (n - lo)) with n by lia.
        rewrite <- (IH n ltac:(lia) ltac:(lia)).
        assert (Hn : ((lo <=? n) && (n <? S n))%bool = true).
        { apply andb_true_intro; split;
            [apply Nat.leb_le | apply Nat.ltb_lt]; lia. }
        rewrite Hn. apply Qplus_comp; [|reflexivity].
        apply sumn_ext. intros i Hi.
        assert (Hi1 : (i <? S n) = true) by (apply Nat.ltb_lt; lia).
        assert (Hi2 : (i <? n) = true) by (apply Nat.ltb_lt; lia).
        rewrite Hi1, Hi2. reflexivity.
    + rewrite (IH hi ltac:(lia) ltac:(lia)).
      assert (Hn : (n <? hi) = false) by (apply Nat.ltb_ge; lia).
      rewrite Hn, andb_false_r. ring.
Qed.

(** ** The pooling window *)

Lemma odd_half (k : nat) : Nat.odd k = true -> k = 2 * (k / 2) + 1.
Proof.
  intros Hk. apply Nat.odd_spec in Hk. destruct Hk as [m ->].
  replace ((2 * m + 1) / 2) with m; [reflexivity|].
  apply (Nat.div_unique _ 2 m 1); lia.
Qed.

Lemma sum_range_nat (lo hi : nat) (g : nat -> Q) :
  sum_range (Z.of_nat lo) (Z.of_nat hi) g
  = sumn (hi - lo) (fun u => g (lo + u)).
Proof.
  unfold sum_range. rewrite Nat2Z.id.
  replace (Z.to_nat (Z.of_nat hi - Z.of_nat lo)) with (hi - lo) by lia.
  reflexivity.
Qed.

(** With stride 1 and padding [p] the window of a kernel [2p+1] at [o] is
    [[o - p, min (o + p + 1) n)]. *)
Lemma pool_window_odd (p n o : nat) :
  o < n ->
  exists l, pool_window o n (2 * p + 1) 1 p
            = (Z.of_nat (o - p), Z.of_nat (Nat.min (o + p + 1) n), l).
Proof.
  intros Ho. unfold pool_window. eexists.
  apply pair_equal_spec; split; [|reflexivity].
  apply pair_equal_spec; split; lia.
Qed.

Lemma in_window_interval (p n i a : nat) :
  a < n ->
  in_window (2 * p + 1) i a
  = ((i - p <=? a) && (a <? Nat.min (i + p + 1) n))%bool.
Proof.
  intros Ha. unfold in_window.
  replace ((2 * p + 1) / 2) with p
    by (apply (Nat.div_unique _ 2 p 1); lia).
  destruct (i <=? a + p) eqn:H1, (a <=? i + p) eqn:H2,
           (i - p <=? a) eqn:H3, (a <? Nat.min (i + p + 1) n) eqn:H4;
    try reflexivity; exfalso;
    repeat match goal with
      | H : (_ <=? _) = true |- _ => apply Nat.leb_le in H
      | H : (_ <=? _) = false |- _ => apply Nat.leb_gt in H
      | H : (_ <? _) = true |- _ => apply Nat.ltb_lt in H
      | H : (_ <? _) = false |- _ => apply Nat.ltb_ge in H
      end; lia.
Qed.

(** The in-bounds window sum, as the code iterates it. *)
Lemma window_sum_ranges (p H W : nat) (f : nat -> nat -> Q) (i j : nat) :
  i < H -> j < W ->
  (window_sum (2 * p + 1) H W f i j
   == sumn (Nat.min (i + p + 1) H - (i - p))%nat (fun u =>
        sumn (Nat.min (j + p + 1) W - (j - p))%nat (fun v =>
          f (i - p + u)%nat (j - p + v)%nat)))%Q.
Proof.
  intros Hi Hj. unfold window_sum.
  rewrite <- (sumn_interval H (i - p) (Nat.min (i + p + 1) H)
                (fun a => sumn (Nat.min (j + p + 1) W - (j - p))
                            (fun v => f a (j - p + v)))) by lia.
  apply sumn_ext. intros a Ha.
  rewrite (in_window_interval p H i a Ha).
  destruct ((i - p <=? a) && (a <? Nat.min (i + p + 1) H))%bool.
  - rewrite <- (sumn_interval W (j - p) (Nat.min (j + p + 1) W)
                  (fun b => f a b)) by lia.
    apply sumn_ext. intros b Hb.
    rewrite (in_window_interval p W j b Hb). reflexivity.
  - apply sumn_zero. intros b Hb. reflexivity.
Qed.

Lemma window_count (p H W i j : nat) :
  i < H -> j < W ->
  (window_sum (2 * p + 1) H W (fun _ _ => 1) i j
   == inject_Z (Z.of_nat (Nat.min (i + p + 1) H - (i - p))
                * Z.of_nat (Nat.min (j + p + 1) W - (j - p))))%Q.
Proof.
  intros Hi Hj. rewrite window_sum_ranges by assumption.
  rewrite (sumn_ext _ _ (fun _ =>
             inject_Z (Z.of_nat (Nat.min (j + p + 1) W - (j - p))) * 1)%Q)
    by (intros; apply sumn_const).
  rewrite sumn_const, inject_Z_mult. ring.
Qed.

(** What [nn.AvgPool2d(k, 1, k // 2, count_include_pad=False)] computes at an
    in-bounds position, for an odd kernel. *)
Lemma avg_pool_at_odd (p H W : nat) (f : nat -> nat -> Q) (i j : nat) :
  i < H -> j < W ->
  (avg_pool_at (mkAvgPool2d (2 * p + 1) 1 p false) H W f i j
   == sumn (Nat.min (i + p + 1) H - (i - p))%nat (fun u =>
        sumn (Nat.min (j + p + 1) W - (j - p))%nat (fun v =>
          f (i - p + u)%nat (j - p + v)%nat))
      / inject_Z (Z.of_nat (Nat.min (i + p + 1) H - (i - p))
                  * Z.of_nat (Nat.min (j + p + 1) W - (j - p))))%Q.
Proof.
  intros Hi Hj. unfold avg_pool_at. cbn [ap_kernel_size ap_stride ap_padding
    count_include_pad].
  destruct (pool_window_odd p H i Hi) as [hl ->].
  destruct (pool_window_odd p W j Hj) as [wl ->].
  destruct (Z.of_nat (Nat.min (i + p + 1) H) <=? Z.of_nat (i - p))%Z eqn:H1;
    [apply Z.leb_le in H1; lia|].
  destruct (Z.of_nat (Nat.min (j + p + 1) W) <=? Z.of_nat (j - p))%Z eqn:H2;
    [apply Z.leb_le in H2; lia|].
  cbn [orb]. rewrite sum_range_nat.
  rewrite <- !Nat2Z.inj_sub by lia.
  apply Qdiv_comp; [|reflexivity].
  apply sumn_ext. intros u Hu. rewrite sum_range_nat. reflexivity.
Qed.

Lemma half_odd (p : nat) : (2 * p + 1) / 2 = p.
Proof. symmetry. apply (Nat.div_unique _ 2 p 1); lia. Qed.

Lemma out_size_same (n p : nat) : 1 <= n -> out_size n (2 * p + 1) 1 p = n.
Proof.
  intros Hn. unfold out_size. rewrite Nat.div_1_r. lia.
Qed.

(** The token mixer on a non-empty rank-4 tensor, odd window: it succeeds,
    keeps the shape, and at each position yields the clipped-window average
    minus the input. *)
Lemma Pooling_forward_odd (k : nat) (x : Tensor) (B C H W : nat) :
  Nat.odd k = true ->
  tshape x = [B; C; H; W] -> 1 <= C -> 1 <= H -> 1 <= W ->
  exists y,
    Pooling_forward (Pooling_init k) x = Ok y /\
    tshape y = [B; C; H; W] /\
    forall b c i j, i < H -> j < W ->
      (tdata y [b; c; i; j]
       == sumn (Nat.min (i + k / 2 + 1) H - (i - k / 2))%nat (fun u =>
            sumn (Nat.min (j + k / 2 + 1) W - (j - k / 2))%nat (fun v =>
              tdata x [b; c; (i - k / 2 + u)%nat; (j - k / 2 + v)%nat]))
          / inject_Z (Z.of_nat (Nat.min (i + k / 2 + 1) H - (i - k / 2))
                      * Z.of_nat (Nat.min (j + k / 2 + 1) W - (j - k / 2)))
          - tdata x [b; c; i; j])%Q.
Proof.
  intros Hk Hx HC HH HW.
  apply Nat.odd_spec in Hk. destruct Hk as [p ->].
  unfold Pooling_forward, Pooling_init, AvgPool2d_forward. cbn [pool].
  rewrite Hx. cbn [ap_kernel_size ap_stride ap_padding].
  rewrite !half_odd.
  assert (Hchk : ((1 =? 0) || (p <? p) || (C =? 0) || (H =? 0)
                  || (W =? 0) || (H + 2 * p <? 2 * p + 1)
                  || (W + 2 * p <? 2 * p + 1))%bool = false).
  { repeat (apply orb_false_intro);
      first [ apply Nat.eqb_neq | apply Nat.ltb_ge ]; lia. }
  rewrite Hchk. cbn [rbind]. unfold tsub, tzip. cbn [tshape].
  rewrite Hx, !out_size_same by assumption.
  rewrite bool_decide_eq_true_2 by reflexivity.
  eexists. split; [reflexivity|]. split; [reflexivity|].
  intros b c i j Hi Hj. cbn [tdata].
  rewrite (avg_pool_at_odd p H W (fun a b' => tdata x [b; c; a; b']) i j Hi Hj).
  reflexivity.
Qed.

(** C4. For an odd window size [k] and a non-empty input of shape
    [[B; C; H; W]], the token mixer ([nn.AvgPool2d] with stride 1, padding
    [k // 2], [count_include_pad=False], minus the input) returns a tensor of
    the input's shape whose entry at [(b, c, i, j)] is the average of the
    in-bounds elements of the [k x k] window around [(i, j)] minus the input
    entry.  The module record [Pooling] holds the pooling layer only: no
    tensor, hence no learned parameter. *)
Theorem C4_pooling_local_average (k : nat) (x : Tensor) (B C H W : nat) :
  Nat.odd k = true ->
  tshape x = [B; C; H; W] -> 1 <= C -> 1 <= H -> 1 <= W ->
  pool (Pooling_init k) = mkAvgPool2d k 1 (k / 2) false /\
  exists y,
    Pooling_forward (Pooling_init k) x = Ok y /\
    tshape y = tshape x /\
    forall b c i j, b < B -> c < C -> i < H -> j < W ->
      (tdata y [b; c; i; j]
       == excluded_padding_average k H W
            (fun a a' => tdata x [b; c; a; a']) i j
          - tdata x [b; c; i; j])%Q.
Proof.
  intros Hk Hx HC HH HW. split; [reflexivity|].
  destruct (Pooling_forward_odd k x B C H W Hk Hx HC HH HW)
    as (y & Hy & Hs & Hd).
  exists y. split; [exact Hy|]. split; [congruence|].
  intros b c i j _ _ Hi Hj. rewrite (Hd b c i j Hi Hj).
  unfold excluded_padding_average.
  apply Nat.odd_spec in Hk. destruct Hk as [p ->]. rewrite !half_odd.
  rewrite (window_sum_ranges p H W _ i j Hi Hj).
  rewrite (window_count p H W i j Hi Hj). reflexivity.
Qed.

(** Running the token mixer on a 2 x 3 grid with a 3 x 3 window. *)
Lemma C4_pooling_local_average_witness :
  let x := mkTensor [1; 1; 2; 3]
             (fun idx => match idx with
                         | [_; _; i; j] => inject_Z (Z.of_nat (3 * i + j))
                         | _ => 0%Q
                         end) in
  exists y,
    Pooling_forward (Pooling_init 3) x = Ok y /\
    tshape y = [1; 1; 2; 3] /\
    Qeq (tdata y [0; 0; 0; 0]) (2 - 0)%Q /\
    Qeq (tdata y [0; 0; 1; 1]) ((5 # 2) - 4)%Q.
Proof.
  intros x.
  destruct (C4_pooling_local_average 3 x 1 1 2 3 eq_refl eq_refl
              ltac:(lia) ltac:(lia) ltac:(lia)) as (_ & y & Hy & Hs & Hd).
  exists y. split; [exact Hy|]. split; [exact Hs|]. split.
  - rewrite (Hd 0 0 0 0) by lia. vm_compute. reflexivity.
  - rewrite (Hd 0 0 1 1) by lia. vm_compute. reflexivity.
Defined.

Lemma in_bounds4 (B C H W : nat) (idx : list nat) :
  in_bounds [B; C; H; W] idx <->
  exists b c i j, idx = [b; c; i; j] /\ b < B /\ c < C /\ i < H /\ j < W.
Proof.
  unfold in_bounds. split.
  - intros Hb.
    repeat match goal with
           | H : Forall2 _ _ (_ :: _) |- _ => inversion H; subst; clear H
           | H : Forall2 _ _ [] |- _ => inversion H; subst; clear H
           end.
    eauto 10.
  - intros (b & c & i & j & -> & ? & ? & ? & ?).
    repeat constructor; assumption.
Qed.

(** ** The token mixer in binary32 *)

Lemma accumulate_ext (n : nat) (f g : nat -> spec_float -> spec_float)
    (acc : spec_float) :
  (forall u a, u < n -> f u a = g u a) ->
  Machine.accumulate n f acc = Machine.accumulate n g acc.
Proof.
  induction n as [|n IH]; intros Hfg; cbn [Machine.accumulate].
  - reflexivity.
  - rewrite IH by (intros; apply Hfg; lia). apply Hfg. lia.
Qed.

Lemma accumulate_add (a b : nat) (g : spec_float -> spec_float)
    (acc : spec_float) :
  Machine.accumulate (a + b) (fun _ => g) acc
  = Machine.accumulate a (fun _ => g) (Machine.accumulate b (fun _ => g) acc).
Proof.
  induction a as [|a IH]; cbn [Machine.accumulate Nat.add].
  - reflexivity.
  - rewrite IH. reflexivity.
Qed.

(** Rows of a constant: one running sum over all the elements. *)
Lemma accumulate_rows (n m : nat) (g : spec_float -> spec_float)
    (acc : spec_float) :
  Machine.accumulate n
    (fun _ a => Machine.accumulate m (fun _ => g) a) acc
  = Machine.accumulate (n * m) (fun _ => g) acc.
Proof.
  induction n as [|n IH]; cbn [Machine.accumulate Nat.mul].
  - reflexivity.
  - rewrite IH, accumulate_add. reflexivity.
Qed.

(** The window average at an in-bounds position of a tensor that is [c0]
    on the window. *)
Lemma avg_pool_at_constant (p H W : nat) (f : nat -> nat -> spec_float)
    (c0 : spec_float) (i j : nat) :
  i < H -> j < W ->
  (forall a b, a < H -> b < W -> f a b = c0) ->
  Machine.avg_pool_at (mkAvgPool2d (2 * p + 1) 1 p false) H W f i j
  = Machine.div32
      (Machine.accumulate
         ((Nat.min (i + p + 1) H - (i - p)) * (Nat.min (j + p + 1) W - (j - p)))
         (fun _ acc => Machine.add32 acc c0) (S754_zero false))
      (Machine.float32_of_int
         (Z.of_nat ((Nat.min (i + p + 1) H - (i - p))
                    * (Nat.min (j + p + 1) W - (j - p))))).
Proof.
  intros Hi Hj Hf. unfold Machine.avg_pool_at.
  cbn [ap_kernel_size ap_stride ap_padding count_include_pad].
  destruct (pool_window_odd p H i Hi) as [hl ->].
  destruct (pool_window_odd p W j Hj) as [wl ->].
  destruct (Z.of_nat (Nat.min (i + p + 1) H) <=? Z.of_nat (i - p))%Z eqn:H1;
    [apply Z.leb_le in H1; lia|].
  destruct (Z.of_nat (Nat.min (j + p + 1) W) <=? Z.of_nat (j - p))%Z eqn:H2;
    [apply Z.leb_le in H2; lia|].
  cbn [orb]. unfold Machine.window_sum. rewrite !Nat2Z.id.
  replace (Z.to_nat (Z.of_nat (Nat.min (i + p + 1) H) - Z.of_nat (i - p)))
    with (Nat.min (i + p + 1) H - (i - p)) by lia.
  replace (Z.to_nat (Z.of_nat (Nat.min (j + p + 1) W) - Z.of_nat (j - p)))
    with (Nat.min (j + p + 1) W - (j - p)) by lia.
  f_equal.
  - rewrite <- accumulate_rows. apply accumulate_ext. intros u a Hu.
    apply accumulate_ext. intros v a' Hv. rewrite Hf by lia. reflexivity.
  - f_equal. lia.
Qed.

Lemma forallb_seq (f : nat -> bool) (a n i : nat) :
  forallb f (seq a n) = true -> a <= i < a + n -> f i = true.
Proof.
  intros Hall Hi. rewrite forallb_forall in Hall. apply Hall.
  apply in_seq. lia.
Qed.

(** C8. On a constant input the token mixer in binary32 succeeds, keeps the
    shape, and leaves at a position whose clipped window holds [n]
    elements the residue of the constant for [n]: the running sum of [n]
    copies, divided by [n], minus the constant.  It is zero everywhere when
    the residue is zero for every window of at most [k] rows and [k]
    columns. *)
Theorem C8_pooling_constant_zero (k : nat) (x : Machine.Tensor)
    (B C H W : nat) (c0 : spec_float) :
  Nat.odd k = true ->
  Machine.tshape x = [B; C; H; W] -> 1 <= C -> 1 <= H -> 1 <= W ->
  (forall idx, in_bounds (Machine.tshape x) idx -> Machine.tdata x idx = c0) ->
  exists y,
    Machine.Pooling_forward (Pooling_init k) x = Ok y /\
    Machine.tshape y = Machine.tshape x /\
    (forall b c i j, b < B -> c < C -> i < H -> j < W ->
       Machine.tdata y [b; c; i; j]
       = Machine.constant_residue c0
           (Machine.window_extent k H i * Machine.window_extent k W j)) /\
    (Machine.averages_exactly c0 k = true ->
     forall idx, in_bounds (Machine.tshape y) idx ->
       Machine.is_zero (Machine.tdata y idx) = true).
Proof.
  intros Hk Hx HC HH HW Hconst.
  pose proof Hk as Hodd.
  apply Nat.odd_spec in Hk. destruct Hk as [p ->].
  unfold Machine.Pooling_forward, Pooling_init, Machine.AvgPool2d_forward.
  cbn [pool]. rewrite Hx. cbn [ap_kernel_size ap_stride ap_padding].
  rewrite !half_odd.
  assert (Hchk : ((1 =? 0) || (p <? p) || (C =? 0) || (H =? 0)
                  || (W =? 0) || (H + 2 * p <? 2 * p + 1)
                  || (W + 2 * p <? 2 * p + 1))%bool = false).
  { repeat (apply orb_false_intro);
      first [ apply Nat.eqb_neq | apply Nat.ltb_ge ]; lia. }
  rewrite Hchk. cbn [rbind]. unfold Machine.tsub. cbn [Machine.tshape].
  rewrite Hx, !out_size_same by assumption.
  rewrite bool_decide_eq_true_2 by reflexivity.
  eexists. split; [reflexivity|]. split; [reflexivity|].
  assert (Hentry : forall b c i j, b < B -> c < C -> i < H -> j < W ->
            Machine.sub32
              (Machine.avg_pool_at (mkAvgPool2d (2 * p + 1) 1 p false) H W
                 (fun a b' => Machine.tdata x [b; c; a; b']) i j)
              (Machine.tdata x [b; c; i; j])
            = Machine.constant_residue c0
                (Machine.window_extent (2 * p + 1) H i
                 * Machine.window_extent (2 * p + 1) W j)).
  { intros b c i j Hb Hc Hi Hj.
    rewrite (avg_pool_at_constant p H W _ c0 i j Hi Hj).
    - rewrite (Hconst [b; c; i; j])
        by (rewrite Hx; apply in_bounds4; eauto 10).
      unfold Machine.constant_residue, Machine.window_extent.
      rewrite !half_odd. reflexivity.
    - intros a b' Ha Hb'. apply Hconst. rewrite Hx. apply in_bounds4.
      eauto 10. }
  split.
  - intros b c i j Hb Hc Hi Hj. cbn [Machine.tdata].
    exact (Hentry b c i j Hb Hc Hi Hj).
  - intros Hexact idx Hidx. cbn [Machine.tshape] in Hidx.
    apply in_bounds4 in Hidx.
    destruct Hidx as (b & c & i & j & -> & Hb & Hc & Hi & Hj).
    cbn [Machine.tdata]. rewrite (Hentry b c i j Hb Hc Hi Hj).
    unfold Machine.averages_exactly in Hexact.
    assert (Hr : 1 <= Machine.window_extent (2 * p + 1) H i < 1 + (2 * p + 1)).
    { unfold Machine.window_extent. rewrite half_odd. lia. }
    assert (Hs : 1 <= Machine.window_extent (2 * p + 1) W j < 1 + (2 * p + 1)).
    { unfold Machine.window_extent. rewrite half_odd. lia. }
    pose proof (forallb_seq _ _ _ _ Hexact Hr) as Hrow. cbv beta in Hrow.
    exact (forallb_seq _ _ _ _ Hrow Hs).
Qed.

(** The constant 0.5 on a 2 x 3 grid, window 3: every window is clipped and
    every entry of the output is zero. *)
Lemma C8_pooling_constant_zero_witness :
  zero_everywhere
    (Machine.Pooling_forward (Pooling_init 3)
       (Machine.full [1; 1; 2; 3] Machine.half32)).
Proof.
  destruct (C8_pooling_constant_zero 3
              (Machine.full [1; 1; 2; 3] Machine.half32) 1 1 2 3
              Machine.half32 eq_refl eq_refl ltac:(lia) ltac:(lia) ltac:(lia)
              ltac:(intros; reflexivity)) as (y & Hy & _ & _ & Hz).
  exists y. split; [exact Hy|]. apply Hz. vm_compute. reflexivity.
Defined.

(** The constant 0.1 on a 3 x 3 grid, window 3: the centre of the output is
    2^-27. *)
Lemma C8_counterexample :
  ~ zero_everywhere
      (Machine.Pooling_forward (Pooling_init 3)
         (Machine.full [1; 1; 3; 3] Machine.tenth32)) /\
  Machine.tenth32 = S754_finite false 13421773 (-27) /\
  exists y,
    Machine.Pooling_forward (Pooling_init 3)
      (Machine.full [1; 1; 3; 3] Machine.tenth32) = Ok y /\
    Machine.tdata y [0; 0; 1; 1] = S754_finite false 8388608 (-50).
Proof.
  assert (Hrun : exists y,
            Machine.Pooling_forward (Pooling_init 3)
              (Machine.full [1; 1; 3; 3] Machine.tenth32) = Ok y /\
            Machine.tshape y = [1; 1; 3; 3] /\
            Machine.tdata y [0; 0; 1; 1] = S754_finite false 8388608 (-50)).
  { eexists. split; [reflexivity|]. split; [reflexivity|].
    vm_compute. reflexivity. }
  destruct Hrun as (y & Hy & Hs & Hd).
  split; [|split; [reflexivity|eauto]].
  intros (y' & Hy' & Hz). rewrite Hy in Hy'. injection Hy' as <-.
  specialize (Hz [0; 0; 1; 1]). rewrite Hs, Hd in Hz.
  discriminate Hz. repeat constructor.
Qed.

(** ** Normalisation *)

Lemma sumn_app (a b : nat) (f : nat -> Q) :
  (sumn (a + b) f == sumn a f + sumn b (fun j => f (a + j)%nat))%Q.
Proof.
  induction b as [|b IH].
  - rewrite Nat.add_0_r. simpl. ring.
  - rewrite Nat.add_succ_r. cbn [sumn]. rewrite IH. ring.
Qed.

(** A double sum is the sum over the row-major flattening. *)
Lemma sumn_flatten (n m : nat) (f : nat -> nat -> Q) :
  (sumn n (fun i => sumn m (fun j => f i j))
   == sumn (n * m) (fun t => f (t / m)%nat (t mod m)%nat))%Q.
Proof.
  induction n as [|n IH].
  - reflexivity.
  - cbn [sumn]. rewrite IH.
    replace (S n * m) with (n * m + m) by lia.
    rewrite sumn_app. apply Qplus_comp; [reflexivity|].
    apply sumn_ext. intros j Hj.
    replace ((n * m + j) / m) with n
      by (apply (Nat.div_unique _ m n j); lia).
    replace ((n * m + j) mod m) with j
      by (apply (Nat.mod_unique _ m n j); lia).
    reflexivity.
Qed.

Lemma sum3_flatten (C H W : nat) (f : nat -> nat -> nat -> Q) :
  (sum3 C H W f
   == sumn (C * H * W) (fun t =>
        f (t / (H * W))%nat (t mod (H * W) / W)%nat
          (t mod (H * W) mod W)%nat))%Q.
Proof.
  unfold sum3.
  rewrite (sumn_ext C _ (fun c => sumn (H * W) (fun s =>
             f c (s / W)%nat (s mod W)%nat)))
    by (intros c _; apply sumn_flatten).
  rewrite (sumn_flatten C (H * W) (fun c s => f c (s / W) (s mod W))).
  rewrite Nat.mul_assoc. reflexivity.
Qed.

Lemma group_mean_flat (x : Tensor) (C H W b : nat) :
  (group_mean x C H W b 0 == flat_mean x C H W b)%Q.
Proof.
  unfold group_mean, flat_mean. rewrite sum3_flatten. reflexivity.
Qed.

Lemma group_var_flat (x : Tensor) (C H W b : nat) :
  (group_var x C H W b 0 == flat_var x C H W b)%Q.
Proof.
  unfold group_var, flat_var. rewrite sum3_flatten.
  apply Qdiv_comp; [|reflexivity].
  apply sumn_ext. intros t _. cbn [Nat.mul Nat.add].
  rewrite group_mean_flat. reflexivity.
Qed.

(** C5. The normalisation operator of the source (the class [GroupNorm]:
    [nn.GroupNorm] with one group and the default [eps]), with any learned
    affine parameters [wt], [bs], maps an input of shape [[B; C; H; W]] to a
    tensor of the same shape whose entry at [(b, c, h, w)] is
    [(x - mean_b) / sqrt (var_b + 1e-5) * wt[c] + bs[c]], where [mean_b] and
    [var_b] are the single mean and variance of sample [b] over its flattened
    [C x H x W] volume.  [sqrt] is any function on the rationals. *)
Theorem C5_group_norm_flat_statistics (E : Env) (C : nat) (wt bs x : Tensor)
    (B H W : nat) :
  Proper (Qeq ==> Qeq) (sqrt E) ->
  tshape x = [B; C; H; W] ->
  exists y,
    GroupNorm_forward E (with_affine (GroupNorm_init C) wt bs) x = Ok y /\
    tshape y = tshape x /\
    forall b c h w, b < B -> c < C -> h < H -> w < W ->
      (tdata y [b; c; h; w]
       == (tdata x [b; c; h; w] - flat_mean x C H W b)
          / sqrt E (flat_var x C H W b + (1 # 100000))
          * tdata wt [c] + tdata bs [c])%Q.
Proof.
  intros Hsqrt Hx. unfold GroupNorm_forward, with_affine, GroupNorm_init.
  cbn [num_groups num_channels eps gn_weight gn_bias].
  rewrite Hx, Nat.eqb_refl. cbn [negb orb Nat.eqb].
  rewrite Nat.div_1_r.
  eexists. split; [reflexivity|]. split; [reflexivity|].
  intros b c h w Hb Hc Hh Hw. cbn [tdata].
  rewrite (Nat.div_small c C Hc).
  assert (Hs : (sqrt E (group_var x C H W b 0 + (1 # 100000))
                == sqrt E (flat_var x C H W b + (1 # 100000)))%Q).
  { apply Hsqrt. rewrite group_var_flat. reflexivity. }
  rewrite Hs, group_mean_flat. reflexivity.
Qed.

(** Two channels on a 1 x 2 grid, with the identity in place of [sqrt]. *)
Lemma C5_group_norm_flat_statistics_witness :
  let x := mkTensor [1; 2; 1; 2]
             (fun idx => match idx with
                         | [_; c; _; w] => inject_Z (Z.of_nat (2 * c + w))
                         | _ => 0%Q
                         end) in
  exists y,
    GroupNorm_forward env0 (with_affine (GroupNorm_init 2) (ones 2) (zeros 2)) x
    = Ok y /\
    tshape y = [1; 2; 1; 2] /\
    Qeq (tdata y [0; 1; 0; 1]) (((3 - (3 # 2)) / ((5 # 4) + (1 # 100000))))%Q.
Proof.
  intros x.
  assert (Hp : Proper (Qeq ==> Qeq) (sqrt env0)).
  { intros a b Hab. exact Hab. }
  destruct (C5_group_norm_flat_statistics env0 2 (ones 2) (zeros 2) x 1 1 2
              Hp eq_refl) as (y & Hy & Hs & Hd).
  exists y. split; [exact Hy|]. split; [exact Hs|].
  rewrite (Hd 0 1 0 1) by lia. vm_compute. reflexivity.
Defined.

(** ** Stepping through computations *)

Lemma bind_ok {A B} (c : M A) (k : A -> M B) (n n' : nat) (a : A) :
  c n = Ok (a, n') -> bind c k n = k a n'.
Proof. intros Hc. unfold bind. rewrite Hc. reflexivity. Qed.

Lemma bind_err {A B} (c : M A) (k : A -> M B) (n : nat) (e : PyErr) :
  c n = Err e -> bind c k n = Err e.
Proof. intros Hc. unfold bind. rewrite Hc. reflexivity. Qed.

Lemma lift_ok {A} (r : Result A) (a : A) (n : nat) :
  r = Ok a -> lift r n = Ok (a, n).
Proof. intros ->. reflexivity. Qed.

Lemma bind_inv {A B} (c : M A) (k : A -> M B) (n n2 : nat) (b : B) :
  bind c k n = Ok (b, n2) ->
  exists a n1, c n = Ok (a, n1) /\ k a n1 = Ok (b, n2).
Proof.
  unfold bind. destruct (c n) as [[a n1]|e]; [eauto | discriminate].
Qed.

Lemma lift_inv {A} (r : Result A) (a : A) (n n' : nat) :
  lift r n = Ok (a, n') -> r = Ok a /\ n' = n.
Proof.
  unfold lift. destruct r; intros Heq; inversion Heq; auto.
Qed.

Lemma ret_inv {A} (a b : A) (n n' : nat) :
  ret a n = Ok (b, n') -> b = a /\ n' = n.
Proof. unfold ret. intros Heq. inversion Heq. auto. Qed.

Lemma bind_assoc {A B C} (c : M A) (k : A -> M B) (k' : B -> M C) (n : nat) :
  bind (bind c k) k' n = bind c (fun a => bind (k a) k') n.
Proof. unfold bind. destruct (c n) as [[a n1]|e]; reflexivity. Qed.

Lemma bind_ret {A B} (a : A) (k : A -> M B) (n : nat) :
  bind (ret a) k n = k a n.
Proof. reflexivity. Qed.

(** What a successful [for_each] produced, element by element. *)
Lemma for_each_inv {A B} (body : A -> M B) (xs : list A) :
  forall n n' bs,
    for_each xs body n = Ok (bs, n') ->
    length bs = length xs /\
    forall k a, xs !! k = Some a ->
      exists b m m', bs !! k = Some b /\ body a m = Ok (b, m').
Proof.
  induction xs as [|x xs IH]; intros n n' bs Hrun; cbn [for_each] in Hrun.
  - apply ret_inv in Hrun. destruct Hrun as [-> _]. split; [reflexivity|].
    intros k a Hk. destruct k; discriminate.
  - apply bind_inv in Hrun. destruct Hrun as (b & n1 & Hb & Hrun).
    apply bind_inv in Hrun. destruct Hrun as (bs' & n2 & Hbs & Hrun).
    apply ret_inv in Hrun. destruct Hrun as [-> _].
    destruct (IH _ _ _ Hbs) as [Hlen Hall]. split; [simpl; lia|].
    intros [|k] a Hk; cbn in Hk |- *.
    + inversion Hk; subst. eauto.
    + apply Hall. exact Hk.
Qed.


(** ** Constructors *)

Section Constructors.

Variable E : Env.

Lemma Conv2d_init_ok (i o : Z) (k s p n : nat) :
  (0 <= i)%Z -> (0 <= o)%Z ->
  exists c, Conv2d_init E i o k s p n = Ok (c, S (S n)) /\
            in_channels c = Z.to_nat i /\ out_channels c = Z.to_nat o /\
            kernel_size c = k /\ stride c = s /\ padding c = p.
Proof.
  intros Hi Ho. unfold Conv2d_init.
  destruct (i <? 0)%Z eqn:H1; [apply Z.ltb_lt in H1; lia|].
  destruct (o <? 0)%Z eqn:H2; [apply Z.ltb_lt in H2; lia|].
  cbn. eexists. split; [reflexivity|]. cbn. auto.
Qed.

Lemma Conv2d_init_inv (i o : Z) (k s p n n' : nat) (c : Conv2d) :
  Conv2d_init E i o k s p n = Ok (c, n') ->
  in_channels c = Z.to_nat i /\ out_channels c = Z.to_nat o /\
  kernel_size c = k /\ stride c = s /\ padding c = p /\
  (0 <= i)%Z /\ (0 <= o)%Z.
Proof.
  unfold Conv2d_init.
  destruct (i <? 0)%Z eqn:H1; [discriminate|].
  destruct (o <? 0)%Z eqn:H2; [discriminate|].
  apply Z.ltb_ge in H1, H2. cbn. intros Heq. inversion Heq; subst. cbn.
  auto 10.
Qed.

Lemma Mlp_init_weights_inv (c c' : Conv2d) (n n' : nat) :
  Mlp_init_weights E c n = Ok (c', n') ->
  in_channels c' = in_channels c /\ out_channels c' = out_channels c /\
  kernel_size c' = kernel_size c /\ stride c' = stride c /\
  padding c' = padding c.
Proof.
  unfold Mlp_init_weights. cbn. intros Heq. inversion Heq; subst. cbn. auto.
Qed.

Lemma Mlp_init_inv (dim : nat) (hidden : Z) (drop : Q) (n n' : nat) (m : Mlp) :
  Mlp_init E (Z.of_nat dim) (Some hidden) None drop n = Ok (m, n') ->
  mlp_wf dim m.
Proof.
  unfold Mlp_init. cbn [py_or]. intros Hrun.
  apply bind_inv in Hrun. destruct Hrun as (c1 & n1 & H1 & Hrun).
  apply bind_inv in Hrun. destruct Hrun as (c2 & n2 & H2 & Hrun).
  apply bind_inv in Hrun. destruct Hrun as (d & n3 & H3 & Hrun).
  apply bind_inv in Hrun. destruct Hrun as (c1' & n4 & H4 & Hrun).
  apply bind_inv in Hrun. destruct Hrun as (c2' & n5 & H5 & Hrun).
  apply ret_inv in Hrun. destruct Hrun as [-> _].
  apply Conv2d_init_inv in H1, H2. apply Mlp_init_weights_inv in H4, H5.
  unfold mlp_wf, conv1x1. cbn [fc1 fc2].
  destruct H1 as (? & ? & ? & ? & ? & ? & ?).
  destruct H2 as (? & ? & ? & ? & ? & ? & ?).
  destruct H4 as (? & ? & ? & ? & ?). destruct H5 as (? & ? & ? & ? & ?).
  repeat split; try congruence; try lia.
  all: rewrite ?Nat2Z.id in *; congruence.
Qed.


Lemma GroupNorm_init_wf (dim : nat) :
  norm_wf dim (NGroupNorm (GroupNorm_init dim)).
Proof. eexists. split; [reflexivity|]. split; [reflexivity|discriminate]. Qed.

Lemma PoolFormerBlock_init_inv (dim k : nat) (r drop dp : Q) (uls : bool)
    (lsiv : Q) (n n' : nat) (m : PoolFormerBlock) :
  PoolFormerBlock_init E dim k r drop dp uls lsiv n = Ok (m, n') ->
  block_wf dim k m /\ drop_path m = drop_path_slot dp /\
  use_layer_scale m = uls /\
  (uls = true ->
   layer_scale_1 m = Some (tscale lsiv (ones dim)) /\
   layer_scale_2 m = Some (tscale lsiv (ones dim))).
Proof.
  unfold PoolFormerBlock_init. intros Hrun.
  apply bind_inv in Hrun. destruct Hrun as (ml & n1 & Hml & Hrun).
  apply Mlp_init_inv in Hml.
  destruct uls; apply ret_inv in Hrun; destruct Hrun as [-> _];
    unfold block_wf;
    cbn [norm1 norm2 token_mixer mlp drop_path use_layer_scale
         layer_scale_1 layer_scale_2].
  - split; [|auto].
    do 4 (split; [first [apply GroupNorm_init_wf | reflexivity | exact Hml]|]).
    intros _. eexists _, _. repeat split; reflexivity.
  - split; [|split; [reflexivity|split; [reflexivity|discriminate]]].
    do 4 (split; [first [apply GroupNorm_init_wf | reflexivity | exact Hml]|]).
    discriminate.
Qed.


End Constructors.

(** ** Stochastic-depth rates *)

Lemma sumZ_app (a b : list Z) : sumZ (a ++ b) = (sumZ a + sumZ b)%Z.
Proof.
  induction a as [|x a IH]; cbn [sumZ fold_right app]; [reflexivity|].
  fold (sumZ (a ++ b)). fold (sumZ a). rewrite IH. lia.
Qed.

Lemma sumZ_firstn_last (l : list Z) (c : Z) :
  l !! (length l - 1) = Some c ->
  (sumZ (firstn (length l - 1) l) + c)%Z = sumZ l.
Proof.
  intros Hl. pose proof (take_drop_middle l _ c Hl) as Hsplit.
  assert (Hlen : length l - 1 < length l) by (eapply lookup_lt_Some; eauto).
  rewrite drop_ge in Hsplit by lia.
  rewrite <- Hsplit at 3. rewrite sumZ_app. cbn. lia.
Qed.


Lemma sumZ_nonneg (l : list Z) :
  Forall (fun c => (0 <= c)%Z) l -> (0 <= sumZ l)%Z.
Proof.
  induction 1 as [|c l Hc _ IH]; cbn [sumZ fold_right]; [lia|].
  fold (sumZ l). lia.
Qed.

Lemma sumZ_firstn_bounds (l : list Z) :
  Forall (fun c => (0 <= c)%Z) l ->
  forall i c, l !! i = Some c ->
    (0 <= sumZ (firstn i l))%Z /\ (sumZ (firstn i l) + c <= sumZ l)%Z.
Proof.
  induction 1 as [|a l Ha Hl IH]; intros [|i] c Hi; cbn in Hi;
    try discriminate.
  - inversion Hi; subst. cbn [firstn sumZ fold_right]. fold (sumZ l).
    pose proof (sumZ_nonneg l Hl). lia.
  - destruct (IH i c Hi) as [H0 H1].
    cbn [firstn sumZ fold_right]. fold (sumZ (firstn i l)). fold (sumZ l).
    lia.
Qed.

(** ** Conversions of small integers *)

Lemma digits2_pos_iter_xO (k p : positive) :
  digits2_pos (Pos.iter xO p k) = (digits2_pos p + k)%positive.
Proof.
  induction k using Pos.peano_ind.
  - cbn. lia.
  - rewrite Pos.iter_succ. cbn [digits2_pos]. rewrite IHk. lia.
Qed.

Lemma iter_xO_value (k p : positive) :
  Z.pos (Pos.iter xO p k) = (Z.pos p * 2 ^ Z.pos k)%Z.
Proof.
  induction k using Pos.peano_ind.
  - cbn. lia.
  - rewrite Pos.iter_succ, Pos2Z.inj_succ, Z.pow_succ_r by lia.
    rewrite Pos2Z.inj_xO, IHk. lia.
Qed.

Lemma digits2_pos_bound (p : positive) (prec : Z) :
  (0 <= prec)%Z -> (Z.pos p < 2 ^ prec)%Z ->
  (Z.pos (digits2_pos p) <= prec)%Z.
Proof.
  intros Hprec Hp.
  assert (Hle : (2 ^ (Z.pos (digits2_pos p) - 1) <= Z.pos p)%Z).
  { induction p as [p IH|p IH|]; cbn [digits2_pos].
    - rewrite Pos2Z.inj_succ.
      replace (Z.succ (Z.pos (digits2_pos p)) - 1)%Z
        with (Z.succ (Z.pos (digits2_pos p) - 1)) by lia.
      rewrite Z.pow_succ_r by lia. lia.
    - rewrite Pos2Z.inj_succ.
      replace (Z.succ (Z.pos (digits2_pos p)) - 1)%Z
        with (Z.succ (Z.pos (digits2_pos p) - 1)) by lia.
      rewrite Z.pow_succ_r by lia. lia.
    - cbn. lia. }
  destruct (Z.le_gt_cases (Z.pos (digits2_pos p)) prec) as [H|H]; [exact H|].
  exfalso.
  assert (H2 : (2 ^ prec <= 2 ^ (Z.pos (digits2_pos p) - 1))%Z)
    by (apply Z.pow_le_mono_r; lia).
  lia.
Qed.

(** An integer of at most [prec] digits is a float as it is: the mantissa is
    the integer shifted to [prec] digits. *)
Lemma binary_round_small (prec emax : Z) (s : bool) (p : positive) :
  (0 < prec)%Z -> (prec < emax)%Z ->
  (Z.pos (digits2_pos p) <= prec)%Z ->
  exists m e, binary_round prec emax s p 0 = S754_finite s m e /\
    (Z.pos m = Z.pos p * 2 ^ (- e))%Z /\ (e <= 0)%Z.
Proof.
  intros Hprec Hemax Hd. unfold binary_round.
  assert (Hf : fexp prec emax (Z.pos (digits2_pos p) + 0)
               = (Z.pos (digits2_pos p) - prec)%Z).
  { unfold fexp, emin. lia. }
  rewrite Hf. unfold shl_align.
  destruct (Z.pos (digits2_pos p) - prec - 0)%Z as [|q|q] eqn:Hq; [| lia |].
  - unfold binary_round_aux, shr_fexp. cbn [Zdigits2].
    assert (Hf0 : (fexp prec emax (Z.pos (digits2_pos p) + 0) - 0 = 0)%Z).
    { unfold fexp, emin. lia. }
    rewrite Hf0. cbn [shr shr_record_of_loc shr_m loc_of_shr_record
                      round_nearest_even Zdigits2].
    rewrite Hf0. cbn [shr shr_m].
    destruct (0 <=? emax - prec)%Z eqn:He; [|apply Z.leb_gt in He; lia].
    exists p, 0%Z. split; [reflexivity|]. split; [cbn; lia | lia].
  - unfold binary_round_aux, shr_fexp. cbn [Zdigits2].
    rewrite digits2_pos_iter_xO.
    assert (Hf0 : (fexp prec emax
                     (Z.pos (digits2_pos p + q)
                      + (Z.pos (digits2_pos p) - prec))
                   - (Z.pos (digits2_pos p) - prec) = 0)%Z).
    { unfold fexp, emin. lia. }
    rewrite Hf0. cbn [shr shr_record_of_loc shr_m loc_of_shr_record
                      round_nearest_even Zdigits2].
    rewrite digits2_pos_iter_xO, Hf0. cbn [shr shr_m].
    destruct (Z.pos (digits2_pos p) - prec <=? emax - prec)%Z eqn:He;
      [|apply Z.leb_gt in He; lia].
    eexists _, _. split; [reflexivity|]. split; [|lia].
    replace (- (Z.pos (digits2_pos p) - prec))%Z with (Z.pos q) by lia.
    apply iter_xO_value.
Qed.

Lemma represents_scaled (m : positive) (e z : Z) :
  (e <= 0)%Z -> (Z.pos m = z * 2 ^ (- e))%Z ->
  Machine.represents (S754_finite false m e) (inject_Z z).
Proof.
  intros He Hm. eexists. split; [reflexivity|]. cbn [cond_Zopp].
  rewrite Hm, inject_Z_mult.
  replace e with (- - e)%Z at 2 by lia.
  rewrite Qpower_opp, (Zpower_Qpower 2 (- e)) by lia.
  change (inject_Z 2) with 2%Q.
  field. apply Qpower_not_0. discriminate.
Qed.

(** [float(z)] is exact for [0 < z < 2^53]. *)
Lemma float_of_int_small (z : Z) :
  (0 < z < 2 ^ 53)%Z ->
  exists m e,
    Machine.float_of_int z = Ok (S754_finite false m e) /\
    Machine.represents (S754_finite false m e) (inject_Z z).
Proof.
  intros [H0 H1]. destruct z as [|p|p]; try lia.
  destruct (binary_round_small 53 1024 false p ltac:(lia) ltac:(lia)
              (digits2_pos_bound p 53 ltac:(lia) H1)) as (m & e & Hr & Hm & He).
  exists m, e. unfold Machine.float_of_int. cbn [binary_normalize].
  rewrite Hr. split; [reflexivity|]. apply represents_scaled; assumption.
Qed.

Lemma float_of_int_nonneg (z : Z) :
  (0 <= z < 2 ^ 53)%Z ->
  exists f,
    Machine.float_of_int z = Ok f /\ Machine.represents f (inject_Z z).
Proof.
  intros [H0 H1]. destruct (Z.eq_dec z 0%Z) as [->|Hz].
  - exists (S754_zero false). split; [reflexivity|].
    eexists. split; reflexivity.
  - destruct (float_of_int_small z ltac:(lia)) as (m & e & Hf & Hr). eauto.
Qed.

(** The loop over the blocks of a stage, when every rate can be computed. *)
Lemma slots_loop_ok (f : nat -> Result spec_float) (len s : nat) :
  (forall a, s <= a < s + len -> exists r, f a = Ok r) ->
  exists slots,
    fold_right
      (fun block_idx rest =>
         rbind (f block_idx)
           (fun dpr =>
              rbind rest
                (fun slots => Ok (Machine.drop_path_slot dpr :: slots))))
      (Ok []) (seq s len) = Ok slots /\
    length slots = len /\
    forall a r, a < len -> f (s + a) = Ok r ->
      slots !! a = Some (Machine.drop_path_slot r).
Proof.
  revert s. induction len as [|len IH]; intros s Hf; cbn [seq fold_right].
  - exists []. split; [reflexivity|]. split; [reflexivity|]. intros; lia.
  - destruct (Hf s ltac:(lia)) as (r0 & Hr0). rewrite Hr0. cbn [rbind].
    destruct (IH (S s) ltac:(intros a Ha; apply Hf; lia))
      as (slots & Hrun & Hlen & Hall).
    rewrite Hrun. cbn [rbind]. eexists. split; [reflexivity|].
    split; [cbn; lia|].
    intros [|a] r Ha Hr.
    + rewrite Nat.add_0_r in Hr. rewrite Hr0 in Hr. injection Hr as <-.
      reflexivity.
    + cbn. apply Hall; [lia|]. rewrite <- Hr. f_equal. lia.
Qed.

(** The rate of one block: both integers convert without error and the
    quotient is defined. *)
Lemma block_dpr_small (max_rate : spec_float) (i block_idx : nat)
    (block_counts : list Z) (c : Z) :
  Forall (fun c => (0 <= c)%Z) block_counts ->
  (1 < sumZ block_counts <= 2 ^ 53)%Z ->
  block_counts !! i = Some c -> (Z.of_nat block_idx < c)%Z ->
  exists n d,
    Machine.represents n
      (inject_Z (Z.of_nat block_idx + sumZ (firstn i block_counts))) /\
    Machine.represents d (inject_Z (sumZ block_counts - 1)) /\
    Machine.block_dpr max_rate block_idx i block_counts
    = Ok (Machine.div64 (Machine.mul64 max_rate n) d).
Proof.
  intros Hall [Hsum Hmax] Hi Hidx.
  destruct (sumZ_firstn_bounds _ Hall i c Hi) as [H0 H1].
  destruct (float_of_int_small (sumZ block_counts - 1) ltac:(lia))
    as (md & ed & Hd & Hdr).
  destruct (float_of_int_nonneg
              (Z.of_nat block_idx + sumZ (firstn i block_counts))
              ltac:(lia)) as (n & Hn & Hnr).
  exists n, (S754_finite false md ed).
  split; [exact Hnr|]. split; [exact Hdr|].
  unfold Machine.block_dpr. rewrite Hn. cbn [rbind]. rewrite Hd.
  reflexivity.
Qed.

(** C2. In the program the rate of block [block_idx] of stage [i] is the
    binary64 number [(max_rate * n) / d], with
    [n = block_idx + sum(block_counts[:i])] and
    [d = sum(block_counts) - 1] converted without error, the product
    rounded first and the quotient second, and the block keeps it as its
    [drop_path]; this for non-negative block counts with
    [1 < sum(block_counts) <= 2^53].  The rate of block 0 of stage 0 is a
    zero for every finite maximal rate; the rate of the last block of the
    last stage is [(max_rate * d) / d]. *)
Theorem C2_stage_rates (max_rate : spec_float) (i : nat)
    (block_counts : list Z) (c : Z) :
  Forall (fun c => (0 <= c)%Z) block_counts ->
  (1 < sumZ block_counts <= 2 ^ 53)%Z ->
  block_counts !! i = Some c ->
  (exists slots,
     Machine.basic_blocks i block_counts max_rate = Ok slots /\
     length slots = Z.to_nat c /\
     forall block_idx, block_idx < Z.to_nat c ->
       exists n d,
         Machine.represents n
           (inject_Z (Z.of_nat block_idx + sumZ (firstn i block_counts))) /\
         Machine.represents d (inject_Z (sumZ block_counts - 1)) /\
         Machine.block_dpr max_rate block_idx i block_counts
         = Ok (Machine.div64 (Machine.mul64 max_rate n) d) /\
         slots !! block_idx
         = Some (Machine.drop_path_slot
                   (Machine.div64 (Machine.mul64 max_rate n) d))) /\
  (Machine.is_finite max_rate = true ->
   exists s, Machine.block_dpr max_rate 0 0 block_counts = Ok (S754_zero s)) /\
  (forall last,
     block_counts !! (length block_counts - 1) = Some last -> (1 <= last)%Z ->
     exists d,
       Machine.represents d (inject_Z (sumZ block_counts - 1)) /\
       Machine.block_dpr max_rate (Z.to_nat last - 1)
         (length block_counts - 1) block_counts
       = Ok (Machine.div64 (Machine.mul64 max_rate d) d)).
Proof.
  intros Hall Hsum Hi. split; [|split].
  - unfold Machine.basic_blocks, getitem. rewrite Hi. cbn [rbind].
    destruct (slots_loop_ok
                (fun block_idx =>
                   Machine.block_dpr max_rate block_idx i block_counts)
                (Z.to_nat c) 0) as (slots & Hrun & Hlen & Hslots).
    { intros a Ha.
      destruct (block_dpr_small max_rate i a block_counts c Hall Hsum Hi
                  ltac:(lia)) as (n & d & _ & _ & Hr).
      eauto. }
    exists slots. split; [exact Hrun|]. split; [exact Hlen|].
    intros block_idx Hidx.
    destruct (block_dpr_small max_rate i block_idx block_counts c Hall Hsum
                Hi ltac:(lia)) as (n & d & Hn & Hd & Hr).
    exists n, d. split; [exact Hn|]. split; [exact Hd|].
    split; [exact Hr|]. exact (Hslots block_idx _ Hidx Hr).
  - intros Hfin.
    destruct (sumZ_firstn_bounds _ Hall i c Hi) as [H0 H1].
    destruct (float_of_int_small (sumZ block_counts - 1) ltac:(lia))
      as (md & ed & Hd & Hdr).
    unfold Machine.block_dpr.
    change (Z.of_nat 0 + sumZ (firstn 0 block_counts))%Z with 0%Z.
    change (Machine.float_of_int 0) with (Ok (S754_zero false)).
    cbn [rbind]. rewrite Hd. cbn [rbind].
    destruct max_rate as [s|s| |s m e]; try discriminate;
      eexists; reflexivity.
  - intros last Hlast Hpos.
    destruct (float_of_int_small (sumZ block_counts - 1) ltac:(lia))
      as (md & ed & Hd & Hdr).
    exists (S754_finite false md ed).
    split; [exact Hdr|]. unfold Machine.block_dpr.
    replace (Z.of_nat (Z.to_nat last - 1)
             + sumZ (firstn (length block_counts - 1) block_counts))%Z
      with (sumZ block_counts - 1)%Z
      by (rewrite <- (sumZ_firstn_last _ _ Hlast); lia).
    rewrite Hd. reflexivity.
Qed.

(** The last stage of PoolFormer-S12 at a maximal rate of 0.1. *)
Lemma C2_stage_rates_witness :
  (exists slots,
     Machine.basic_blocks 3 [2; 2; 6; 2]%Z Machine.tenth = Ok slots /\
     length slots = 2 /\
     exists n d,
       Machine.represents n (inject_Z 11) /\
       Machine.represents d (inject_Z 11) /\
       slots !! 1
       = Some (Machine.drop_path_slot
                 (Machine.div64 (Machine.mul64 Machine.tenth n) d))) /\
  exists s, Machine.block_dpr Machine.tenth 0 0 [2; 2; 6; 2]%Z
            = Ok (S754_zero s).
Proof.
  destruct (C2_stage_rates Machine.tenth 3 [2; 2; 6; 2]%Z 2)
    as ((slots & Hrun & Hlen & Hall) & H0 & _).
  - repeat constructor; lia.
  - cbn. lia.
  - reflexivity.
  - split; [|exact (H0 eq_refl)].
    exists slots. split; [exact Hrun|]. split; [exact Hlen|].
    destruct (Hall 1 ltac:(cbn; lia)) as (n & d & Hn & Hd & _ & Hs).
    exists n, d. auto.
Defined.

(** With block counts [1, 2, 3, 1] and a maximal rate of 0.1 the last block
    gets 0.10000000000000002: neither the rational number of the formula nor
    the maximal rate. *)
Lemma C2_counterexample :
  ~ rate_is_exact Machine.tenth 0 3 [1; 2; 3; 1]%Z /\
  Machine.block_dpr Machine.tenth 0 3 [1; 2; 3; 1]%Z
  = Ok (S754_finite false 7205759403792795 (-56)) /\
  Machine.tenth = S754_finite false 7205759403792794 (-56).
Proof.
  split; [|split; reflexivity].
  intros (r & q & m & Hr & Hq & Hm & Heq).
  vm_compute in Hr. injection Hr as <-.
  cbn [Machine.value] in Hq. injection Hq as <-.
  vm_compute in Hm. injection Hm as <-.
  apply Qeq_bool_iff in Heq. vm_compute in Heq. discriminate.
Qed.

(** ** Shapes through the layers *)

Section Shapes.

Variable E : Env.

Lemma NormLayer_forward_ok (nl : NormLayer) (x : Tensor) (B C H W : nat) :
  norm_wf C nl -> tshape x = [B; C; H; W] ->
  exists y, NormLayer_forward E nl x = Ok y /\ tshape y = [B; C; H; W].
Proof.
  intros (g & -> & Hc & Hg) Hx. cbn [NormLayer_forward].
  unfold GroupNorm_forward. rewrite Hx, Hc, Nat.eqb_refl.
  destruct (num_groups g =? 0) eqn:H0; [apply Nat.eqb_eq in H0; lia|].
  cbn [negb orb]. eexists. split; reflexivity.
Qed.


Lemma Conv2d_forward_ok (m : Conv2d) (x : Tensor) (B C H W : nat) :
  tshape x = [B; C; H; W] -> in_channels m = C -> stride m <> 0 ->
  1 <= kernel_size m ->
  kernel_size m <= H + 2 * padding m ->
  kernel_size m <= W + 2 * padding m ->
  exists y, Conv2d_forward m x = Ok y /\
            tshape y = [B; out_channels m;
                        out_size H (kernel_size m) (stride m) (padding m);
                        out_size W (kernel_size m) (stride m) (padding m)].
Proof.
  intros Hx Hc Hs Hk HH HW. unfold Conv2d_forward.
  rewrite Hx, Hc, Nat.eqb_refl.
  destruct (stride m =? 0) eqn:H1; [apply Nat.eqb_eq in H1; lia|].
  destruct (kernel_size m =? 0) eqn:H0; [apply Nat.eqb_eq in H0; lia|].
  destruct (H + 2 * padding m <? kernel_size m) eqn:H2;
    [apply Nat.ltb_lt in H2; lia|].
  destruct (W + 2 * padding m <? kernel_size m) eqn:H3;
    [apply Nat.ltb_lt in H3; lia|].
  cbn [negb orb]. eexists. split; reflexivity.
Qed.

Lemma Dropout_forward_ok (d : Dropout) (x : Tensor) (n : nat) :
  exists y n', Dropout_forward E d x n = Ok (y, n') /\ tshape y = tshape x.
Proof.
  unfold Dropout_forward.
  destruct (training E && negb (Qeq_bool (dropout_p d) 0))%bool;
    cbn; eauto.
Qed.

Lemma out_size_1x1 (n : nat) : 1 <= n -> out_size n 1 1 0 = n.
Proof. intros Hn. unfold out_size. rewrite Nat.div_1_r. lia. Qed.

Lemma Mlp_forward_ok (dim : nat) (m : Mlp) (x : Tensor) (B H W n : nat) :
  mlp_wf dim m -> tshape x = [B; dim; H; W] -> 1 <= H -> 1 <= W ->
  exists y n', Mlp_forward E m x n = Ok (y, n') /\ tshape y = [B; dim; H; W].
Proof.
  intros (Hi1 & Ho2 & Hi2 & (Hk1 & Hs1 & Hp1) & (Hk2 & Hs2 & Hp2)) Hx HH HW.
  unfold Mlp_forward.
  destruct (Conv2d_forward_ok (fc1 m) x B dim H W Hx Hi1 ltac:(lia)
              ltac:(lia) ltac:(lia) ltac:(lia)) as (y1 & Hy1 & Hsh1).
  rewrite Hk1, Hs1, Hp1, !out_size_1x1 in Hsh1 by assumption.
  rewrite (bind_ok _ _ _ _ _ (lift_ok _ _ n Hy1)).
  destruct (Dropout_forward_ok (drop m) (act E y1) n) as (y2 & n2 & Hy2 & Hsh2).
  rewrite (bind_ok _ _ _ _ _ Hy2). cbn [act tshape] in Hsh2.
  rewrite Hsh1 in Hsh2.
  destruct (Conv2d_forward_ok (fc2 m) y2 B _ H W Hsh2 Hi2 ltac:(lia)
              ltac:(lia) ltac:(lia) ltac:(lia)) as (y3 & Hy3 & Hsh3).
  rewrite Hk2, Hs2, Hp2, Ho2, !out_size_1x1 in Hsh3 by assumption.
  rewrite (bind_ok _ _ _ _ _ (lift_ok _ _ n2 Hy3)).
  destruct (Dropout_forward_ok (drop m) y3 n2) as (y4 & n4 & Hy4 & Hsh4).
  rewrite (bind_ok _ _ _ _ _ Hy4). unfold ret.
  exists y4, n4. split; [reflexivity|]. congruence.
Qed.

Lemma scale_channels_ok (v x : Tensor) (B C H W : nat) :
  tshape v = [C] -> tshape x = [B; C; H; W] ->
  exists y, scale_channels v x = Ok y /\ tshape y = [B; C; H; W] /\
            forall b c h w,
              tdata y [b; c; h; w]
              = (tdata v [c] * tdata x [b; c; h; w])%Q.
Proof.
  intros Hv Hx. unfold scale_channels. rewrite Hv, Hx, Nat.eqb_refl.
  eexists. split; [reflexivity|]. split; reflexivity.
Qed.

Lemma DropPathSlot_forward_ok (s : DropPathSlot) (x : Tensor) (n : nat) :
  exists y n', DropPathSlot_forward E s x n = Ok (y, n') /\
               tshape y = tshape x /\
               forall idx, (tdata x idx == 0)%Q -> (tdata y idx == 0)%Q.
Proof.
  destruct s as [|p]; cbn [DropPathSlot_forward].
  - unfold ret. eauto.
  - unfold DropPath_forward.
    destruct (Qeq_bool p 0 || negb (training E))%bool.
    + unfold ret. eauto.
    + cbn. eexists _, _. split; [reflexivity|]. split; [reflexivity|].
      intros idx Hz. cbn [tdata]. destruct idx as [|b idx]; [reflexivity|].
      rewrite Hz. unfold Qdiv. ring.
Qed.

Lemma tadd_ok (x y : Tensor) :
  tshape x = tshape y ->
  exists z, tadd x y = Ok z /\ tshape z = tshape x /\
            forall idx, tdata z idx = (tdata x idx + tdata y idx)%Q.
Proof.
  intros Hs. unfold tadd, tzip.
  rewrite bool_decide_eq_true_2 by exact Hs.
  eexists. split; [reflexivity|]. split; reflexivity.
Qed.

(** One residual update on a tensor of width [C]: it succeeds and keeps the
    shape; with a zero layer scale it returns its input. *)
Lemma residual_update_ok (norm : NormLayer) (branch : Tensor -> M Tensor)
    (scale : option Tensor) (dp : DropPathSlot) (x : Tensor)
    (B C H W : nat) :
  norm_wf C norm ->
  tshape x = [B; C; H; W] ->
  (forall t m, tshape t = [B; C; H; W] ->
     exists t' m', branch t m = Ok (t', m') /\ tshape t' = [B; C; H; W]) ->
  (forall v, scale = Some v -> tshape v = [C]) ->
  forall n, exists y n',
    residual_update E norm branch scale dp x n = Ok (y, n') /\
    tshape y = [B; C; H; W] /\
    (forall v, scale = Some v -> (forall c, c < C -> (tdata v [c] == 0)%Q) ->
       teq y x).
Proof.
  intros Hnorm Hx Hbranch Hscale n. unfold residual_update.
  destruct (NormLayer_forward_ok norm x B C H W Hnorm Hx) as (x1 & Hx1 & Hs1).
  rewrite (bind_ok _ _ _ _ _ (lift_ok _ _ n Hx1)).
  destruct (Hbranch x1 n Hs1) as (t & n1 & Ht & Hst).
  rewrite (bind_ok _ _ _ _ _ Ht).
  assert (Hsc : exists s, apply_scale scale t = Ok s /\
                tshape s = [B; C; H; W] /\
                forall v, scale = Some v ->
                  forall b c h w, tdata s [b; c; h; w]
                                  = (tdata v [c] * tdata t [b; c; h; w])%Q).
  { destruct scale as [v|]; cbn [apply_scale].
    - destruct (scale_channels_ok v t B C H W (Hscale v eq_refl) Hst)
        as (s & Hs & Hss & Hsd).
      exists s. split; [exact Hs|]. split; [exact Hss|].
      intros v' Hv'. inversion Hv'; subst. exact Hsd.
    - exists t. split; [reflexivity|]. split; [exact Hst|]. discriminate. }
  destruct Hsc as (s & Hs & Hss & Hsd).
  rewrite (bind_ok _ _ _ _ _ (lift_ok _ _ n1 Hs)).
  destruct (DropPathSlot_forward_ok dp s n1) as (d & n2 & Hd & Hds & Hdz).
  rewrite (bind_ok _ _ _ _ _ Hd).
  destruct (tadd_ok x d ltac:(congruence)) as (y & Hy & Hys & Hyd).
  rewrite (lift_ok _ _ n2 Hy). exists y, n2.
  split; [reflexivity|]. split; [congruence|].
  intros v Hv Hzero. split; [exact Hys|].
  intros idx Hidx. rewrite Hys, Hx in Hidx. apply in_bounds4 in Hidx.
  destruct Hidx as (b & c & h & w & -> & Hb & Hc & Hh & Hw).
  rewrite Hyd, (Hdz [b; c; h; w]); [ring|].
  rewrite (Hsd v Hv), (Hzero c Hc). ring.
Qed.

End Shapes.

(** ** The residual block *)

Section Block.

Variable E : Env.


Lemma teq_trans (x y z : Tensor) : teq x y -> teq y z -> teq x z.
Proof.
  intros [Hs1 Hd1] [Hs2 Hd2]. split; [congruence|].
  intros idx Hidx. rewrite (Hd1 idx Hidx). apply Hd2. rewrite <- Hs1.
  exact Hidx.
Qed.

(** The forward pass of the source, read as two residual updates. *)
Lemma forward_two_updates (m : PoolFormerBlock) (x : Tensor) (n : nat) :
  layer_scale_present m ->
  PoolFormerBlock_forward E m x n = two_residual_updates E m x n.
Proof.
  intros Hp. unfold PoolFormerBlock_forward, two_residual_updates,
    residual_update, layer_scale_present in *.
  destruct (use_layer_scale m).
  - destruct (Hp eq_refl) as [[t1 H1] [t2 H2]]. rewrite H1, H2.
    cbn [effective_scale get_layer_scale apply_scale lift].
    unfold bind, lift, ret.
    destruct (NormLayer_forward E (norm1 m) x) as [x1|]; [|reflexivity].
    destruct (Pooling_forward (token_mixer m) x1) as [p1|]; [|reflexivity].
    destruct (scale_channels t1 p1) as [s1|]; [|reflexivity].
    destruct (DropPathSlot_forward E (drop_path m) s1 n) as [[d1 n1]|];
      [|reflexivity].
    destruct (tadd x d1) as [y1|]; [|reflexivity].
    destruct (NormLayer_forward E (norm2 m) y1) as [x2|]; [|reflexivity].
    destruct (Mlp_forward E (mlp m) x2 n1) as [[p2 n2]|]; [|reflexivity].
    destruct (scale_channels t2 p2) as [s2|]; [|reflexivity].
    destruct (DropPathSlot_forward E (drop_path m) s2 n2) as [[d2 n3]|];
      [|reflexivity].
    destruct (tadd y1 d2) as [y2|]; reflexivity.
  - cbn [effective_scale apply_scale lift]. unfold bind, lift, ret.
    destruct (NormLayer_forward E (norm1 m) x) as [x1|]; [|reflexivity].
    destruct (Pooling_forward (token_mixer m) x1) as [p1|]; [|reflexivity].
    destruct (DropPathSlot_forward E (drop_path m) p1 n) as [[d1 n1]|];
      [|reflexivity].
    destruct (tadd x d1) as [y1|]; [|reflexivity].
    destruct (NormLayer_forward E (norm2 m) y1) as [x2|]; [|reflexivity].
    destruct (Mlp_forward E (mlp m) x2 n1) as [[p2 n2]|]; [|reflexivity].
    destruct (DropPathSlot_forward E (drop_path m) p2 n2) as [[d2 n3]|];
      [|reflexivity].
    destruct (tadd y1 d2) as [y2|]; reflexivity.
Qed.

Lemma block_wf_present (dim k : nat) (m : PoolFormerBlock) :
  block_wf dim k m -> layer_scale_present m.
Proof.
  intros (_ & _ & _ & _ & Hls) Hu.
  destruct (Hls Hu) as (t1 & t2 & H1 & H2 & _). rewrite H1, H2. split; eauto.
Qed.

(** The two updates on a well-formed block of width [dim]: success, same
    shape, and the identity when both layer-scale vectors are zero. *)
Lemma two_updates_ok (dim k : nat) (m : PoolFormerBlock) (x : Tensor)
    (B H W : nat) :
  block_wf dim k m -> Nat.odd k = true ->
  tshape x = [B; dim; H; W] -> 1 <= dim -> 1 <= H -> 1 <= W ->
  forall n, exists y n',
    two_residual_updates E m x n = Ok (y, n') /\
    tshape y = [B; dim; H; W] /\
    (use_layer_scale m = true ->
     forall t1 t2, layer_scale_1 m = Some t1 -> layer_scale_2 m = Some t2 ->
       (forall c, c < dim -> (tdata t1 [c] == 0)%Q) ->
       (forall c, c < dim -> (tdata t2 [c] == 0)%Q) ->
       teq y x).
Proof.
  intros (Hn1 & Hn2 & Htm & Hmlp & Hls) Hk Hx Hdim HH HW n.
  unfold two_residual_updates. rewrite Htm.
  assert (Hsc : forall which v,
            effective_scale (use_layer_scale m)
              (if which : bool then layer_scale_1 m else layer_scale_2 m)
            = Some v -> tshape v = [dim]).
  { intros which v Hv. destruct (use_layer_scale m); [|discriminate].
    destruct (Hls eq_refl) as (t1 & t2 & H1 & H2 & Hs1 & Hs2).
    cbn [effective_scale] in Hv. destruct which; congruence. }
  destruct (residual_update_ok E (norm1 m)
              (fun t => lift (Pooling_forward (Pooling_init k) t))
              (effective_scale (use_layer_scale m) (layer_scale_1 m))
              (drop_path m) x B dim H W Hn1 Hx) with (n := n)
    as (y1 & n1 & Hy1 & Hs1 & Hz1).
  { intros t m0 Ht.
    destruct (Pooling_forward_odd k t B dim H W Hk Ht Hdim HH HW)
      as (t' & Ht' & Hst' & _).
    exists t', m0. split; [apply lift_ok; exact Ht' | exact Hst']. }
  { exact (Hsc true). }
  rewrite (bind_ok _ _ _ _ _ Hy1).
  destruct (residual_update_ok E (norm2 m) (Mlp_forward E (mlp m))
              (effective_scale (use_layer_scale m) (layer_scale_2 m))
              (drop_path m) y1 B dim H W Hn2 Hs1) with (n := n1)
    as (y2 & n2 & Hy2 & Hs2 & Hz2).
  { intros t m0 Ht. exact (Mlp_forward_ok E dim (mlp m) t B H W m0 Hmlp Ht HH HW). }
  { exact (Hsc false). }
  exists y2, n2. split; [exact Hy2|]. split; [exact Hs2|].
  intros Hu t1 t2 H1 H2 Hz1' Hz2'. rewrite Hu in Hz1, Hz2.
  cbn [effective_scale] in Hz1, Hz2.
  apply (teq_trans y2 y1 x); [exact (Hz2 t2 H2 Hz2') | exact (Hz1 t1 H1 Hz1')].
Qed.

(** A well-formed block keeps the shape of its input. *)
Lemma PoolFormerBlock_forward_ok (dim k : nat) (m : PoolFormerBlock)
    (x : Tensor) (B H W : nat) :
  block_wf dim k m -> Nat.odd k = true ->
  tshape x = [B; dim; H; W] -> 1 <= dim -> 1 <= H -> 1 <= W ->
  forall n, exists y n',
    PoolFormerBlock_forward E m x n = Ok (y, n') /\
    tshape y = [B; dim; H; W].
Proof.
  intros Hwf Hk Hx Hdim HH HW n.
  rewrite (forward_two_updates m x n (block_wf_present dim k m Hwf)).
  destruct (two_updates_ok dim k m x B H W Hwf Hk Hx Hdim HH HW n)
    as (y & n' & Hy & Hs & _).
  eauto.
Qed.

End Block.

(** C1. One forward pass of a block is exactly two residual updates in a
    fixed order: [x + drop_path(LayerScale1 * TokenMixer(Norm1(x)))], then
    [x + drop_path(LayerScale2 * MLP(Norm2(x)))].  With the layer-scale
    feature off no scale is applied, which is the same as scaling by the
    all-ones vector, the multiplicative identity. *)
Theorem C1_block_two_residual_updates (E : Env) (m : PoolFormerBlock)
    (x : Tensor) (n : nat) :
  layer_scale_present m ->
  PoolFormerBlock_forward E m x n = two_residual_updates E m x n /\
  (use_layer_scale m = false ->
   effective_scale (use_layer_scale m) (layer_scale_1 m) = None /\
   effective_scale (use_layer_scale m) (layer_scale_2 m) = None) /\
  (forall t B C H W, tshape t = [B; C; H; W] ->
     apply_scale None t = Ok t /\
     exists s, apply_scale (Some (ones C)) t = Ok s /\ teq s t).
Proof.
  intros Hp. split; [exact (forward_two_updates E m x n Hp)|]. split.
  - intros ->. split; reflexivity.
  - intros t B C H W Ht. split; [reflexivity|]. cbn [apply_scale].
    destruct (scale_channels_ok (ones C) t B C H W eq_refl Ht)
      as (s & Hs & Hss & Hsd).
    exists s. split; [exact Hs|]. split; [congruence|].
    intros idx Hidx. rewrite Hss in Hidx. apply in_bounds4 in Hidx.
    destruct Hidx as (b & c & h & w & -> & _). rewrite Hsd.
    cbn [ones tdata]. ring.
Qed.

(** The sample block is what the constructor returns, and its forward pass
    on the sample input is the two updates. *)
Lemma C1_block_two_residual_updates_witness :
  PoolFormerBlock_init env0 2 3 4 0 0 true (1 # 100000) 0
  = Ok (sample_block DPIdentity, 6) /\
  PoolFormerBlock_forward env0 (sample_block DPIdentity) sample_input 6
  = two_residual_updates env0 (sample_block DPIdentity) sample_input 6.
Proof.
  split; [reflexivity|].
  apply (C1_block_two_residual_updates env0 (sample_block DPIdentity)
           sample_input 6).
  intros _. split; eexists; reflexivity.
Defined.




(** ** Attributes of a constructed model *)

Section Attributes.

Variable E : Env.

Lemma norm_name_head (i : nat) : exists s, norm_name i = String "n" s.
Proof. unfold norm_name. cbn. eauto. Qed.

Lemma add_norms_other (cfg : Config) (name : string) :
  (forall i, norm_name i <> name) ->
  forall pairs self self',
    add_norms E cfg self pairs = Ok self' -> self' !! name = self !! name.
Proof.
  intros Hname. induction pairs as [|[i_emb i_layer] rest IH];
    intros self self' Hrun; cbn [add_norms] in Hrun.
  - inversion Hrun. reflexivity.
  - unfold rbind in Hrun at 1.
    destruct (if ((i_emb =? 0) && env_truthy (environ E !! "FORK_LAST3"))%bool
              then _ else _) as [layer|e]; [|discriminate].
    rewrite (IH _ _ Hrun). apply lookup_insert_ne. apply Hname.
Qed.

Lemma apply_cls_init_weights_other (name : string) (self self' : gmap string Value)
    (n n' : nat) :
  name <> "head" ->
  apply_cls_init_weights E self n = Ok (self', n') ->
  self' !! name = self !! name.
Proof.
  intros Hname. unfold apply_cls_init_weights.
  destruct (self !! "head") as [[| | | | | | |[l|]]|];
    try (intros Hrun; apply ret_inv in Hrun; destruct Hrun as [-> _];
         reflexivity).
  intros Hrun. apply bind_inv in Hrun. destruct Hrun as (l' & n1 & _ & Hrun).
  apply ret_inv in Hrun. destruct Hrun as [-> _].
  apply lookup_insert_ne. congruence.
Qed.

(** No path through the constructor assigns [embed_dim]. *)
Lemma PoolFormer_init_no_embed_dim (cfg : Config) (n n' : nat)
    (self : gmap string Value) :
  PoolFormer_init E cfg n = Ok (self, n') -> self !! "embed_dim" = None.
Proof.
  unfold PoolFormer_init. intros Hrun.
  apply bind_inv in Hrun. destruct Hrun as (d0 & n1 & _ & Hrun).
  apply bind_inv in Hrun. destruct Hrun as (pe & n2 & _ & Hrun).
  apply bind_inv in Hrun. destruct Hrun as (network & n3 & _ & Hrun).
  apply bind_inv in Hrun. destruct Hrun as (self1 & n4 & Hmode & Hrun).
  apply bind_inv in Hrun. destruct Hrun as (self2 & n5 & Hcls & Hrun).
  apply ret_inv in Hrun. destruct Hrun as [-> _].
  rewrite lookup_insert_ne by discriminate.
  rewrite (apply_cls_init_weights_other "embed_dim" _ _ _ _
             ltac:(discriminate) Hcls).
  destruct (fork_feat cfg).
  - apply lift_inv in Hmode. destruct Hmode as [Hmode _].
    assert (Hname : forall i, norm_name i <> "embed_dim").
    { intros i Heq. destruct (norm_name_head i) as [s Hs].
      rewrite Hs in Heq. discriminate. }
    rewrite (add_norms_other cfg "embed_dim" Hname _ _ _ Hmode).
    cbn [negb]. repeat (rewrite lookup_insert_ne by discriminate).
    apply lookup_empty.
  - apply bind_inv in Hmode. destruct Hmode as (dl & n6 & _ & Hmode).
    apply bind_inv in Hmode. destruct Hmode as (head & n7 & _ & Hmode).
    apply ret_inv in Hmode. destruct Hmode as [-> _].
    cbn [negb]. repeat (rewrite lookup_insert_ne by discriminate).
    apply lookup_empty.
Qed.

End Attributes.

(** C10. On every constructed model, [reset_classifier(num_classes)] with
    [num_classes > 0] raises the attribute error of [self.embed_dim], which
    no constructor path assigns; the call succeeds only through the branch
    that installs the identity head, which a class count reaches at
    [num_classes = 0] alone. *)
Theorem C10_reset_classifier_attribute_error (E : Env) (cfg : Config)
    (n n' : nat) (self : gmap string Value) :
  PoolFormer_init E cfg n = Ok (self, n') ->
  self !! "embed_dim" = None /\
  (forall nc m, (0 < nc)%Z ->
     snd (reset_classifier E self nc m) = Err (AttributeError "embed_dim")) /\
  (forall m,
     reset_classifier E self 0 m
     = (<["head" := VHead HIdentity]> (<["num_classes" := VInt 0]> self),
        Ok m)) /\
  (forall nc m m',
     snd (reset_classifier E self nc m) = Ok m' ->
     (nc <= 0)%Z /\
     fst (reset_classifier E self nc m) !! "head" = Some (VHead HIdentity) /\
     ((0 <= nc)%Z -> nc = 0%Z)).
Proof.
  intros Hinit. pose proof (PoolFormer_init_no_embed_dim E cfg n n' self Hinit)
    as Hnone.
  assert (Hpos : forall nc m, (0 < nc)%Z ->
            snd (reset_classifier E self nc m)
            = Err (AttributeError "embed_dim")).
  { intros nc m Hnc. unfold reset_classifier, getattr.
    apply Z.ltb_lt in Hnc. rewrite Hnc.
    rewrite lookup_insert_ne by discriminate. rewrite Hnone. reflexivity. }
  split; [exact Hnone|]. split; [exact Hpos|]. split; [reflexivity|].
  intros nc m m' Hok. destruct (Z.ltb_spec 0 nc) as [Hlt|Hle].
  - rewrite (Hpos nc m Hlt) in Hok. discriminate.
  - split; [exact Hle|]. split; [|lia].
    unfold reset_classifier. apply Z.ltb_ge in Hle. rewrite Hle.
    cbn [fst]. apply lookup_insert_eq.
Qed.

(** PoolFormer-S12: construction succeeds and [reset_classifier(10)] raises
    the attribute error. *)
Lemma C10_reset_classifier_attribute_error_witness :
  exists self n',
    PoolFormer_init env0 poolformer_s12 0 = Ok (self, n') /\
    snd (reset_classifier env0 self 10 n') = Err (AttributeError "embed_dim").
Proof.
  assert (Hok : is_ok (PoolFormer_init env0 poolformer_s12 0) = true)
    by (vm_compute; reflexivity).
  destruct (PoolFormer_init env0 poolformer_s12 0) as [[self n']|e] eqn:Hinit;
    [|discriminate].
  exists self, n'. split; [reflexivity|].
  destruct (C10_reset_classifier_attribute_error env0 poolformer_s12 0 n'
              self Hinit) as (_ & Hpos & _).
  apply Hpos. lia.
Defined.

(** ** Errors of the constructor *)

Section ConstructionErrors.

Variable E : Env.

Lemma getitem_ok {A} (l : list A) (i : nat) :
  i < length l -> exists a, getitem l i = Ok a /\ l !! i = Some a.
Proof.
  intros Hi. unfold getitem.
  destruct (lookup_lt_is_Some_2 l i Hi) as [a Ha]. rewrite Ha. eauto.
Qed.

Lemma getitem_inv {A} (l : list A) (i : nat) (a : A) :
  getitem l i = Ok a -> l !! i = Some a /\ i < length l.
Proof.
  unfold getitem. destruct (l !! i) as [b|] eqn:Hl; [|discriminate].
  intros Heq. inversion Heq; subst. split; [reflexivity|].
  eapply lookup_lt_Some; eauto.
Qed.

Lemma PatchEmbed_init_ok (k s p : nat) (i o : nat) (n : nat) :
  exists pe, PatchEmbed_init E k s p (Z.of_nat i) (Z.of_nat o) None n
             = Ok (pe, S (S n)) /\
             pe_norm pe = NIdentity /\ in_channels (proj pe) = i /\
             out_channels (proj pe) = o /\ kernel_size (proj pe) = k /\
             stride (proj pe) = s /\ padding (proj pe) = p.
Proof.
  unfold PatchEmbed_init.
  destruct (Conv2d_init_ok E (Z.of_nat i) (Z.of_nat o) k s p n
              ltac:(lia) ltac:(lia)) as (c & Hc & Hi & Ho & Hk & Hs & Hp).
  rewrite (bind_ok _ _ _ _ _ Hc). unfold ret.
  eexists. split; [reflexivity|]. cbn [pe_norm proj].
  rewrite Hi, Ho, !Nat2Z.id. auto 10.
Qed.

Lemma sumZ_pos_exists (l : list Z) :
  (0 < sumZ l)%Z -> exists i c, l !! i = Some c /\ (1 <= c)%Z.
Proof.
  induction l as [|x l IH]; cbn [sumZ fold_right]; [lia|].
  fold (sumZ l). intros Hs. destruct (Z.ltb_spec 0 x) as [Hx|Hx].
  - exists 0, x. split; [reflexivity | lia].
  - destruct (IH ltac:(lia)) as (i & c & Hi & Hc). exists (S i), c. auto.
Qed.

(** With one block in total, the first non-empty stage divides by zero. *)
Lemma basic_blocks_zero_div (dim i : nat) (block_counts : list Z) (k : nat)
    (r dr dpr : Q) (uls : bool) (lsiv : Q) (c : Z) (n : nat) :
  sumZ block_counts = 1%Z -> block_counts !! i = Some c -> (1 <= c)%Z ->
  basic_blocks E dim i block_counts k r dr dpr uls lsiv n
  = Err ZeroDivisionError.
Proof.
  intros Hs Hc Hpos. unfold basic_blocks, getitem. rewrite Hc.
  rewrite (bind_ok _ _ n n c eq_refl).
  replace (Z.to_nat c) with (S (Z.to_nat c - 1)) by lia.
  cbn [seq for_each]. apply bind_err. apply bind_err.
  unfold block_dpr, py_div. rewrite Hs. reflexivity.
Qed.

Lemma basic_blocks_empty (dim i : nat) (block_counts : list Z) (k : nat)
    (r dr dpr : Q) (uls : bool) (lsiv : Q) (c : Z) (n : nat) :
  block_counts !! i = Some c -> (c <= 0)%Z ->
  basic_blocks E dim i block_counts k r dr dpr uls lsiv n = Ok ([], n).
Proof.
  intros Hc Hneg. unfold basic_blocks, getitem. rewrite Hc.
  rewrite (bind_ok _ _ n n c eq_refl).
  replace (Z.to_nat c) with 0 by lia. reflexivity.
Qed.

Lemma build_network_zero_div (cfg : Config) :
  sumZ (layers cfg) = 1%Z ->
  length (embed_dims cfg) = length (layers cfg) ->
  length (mlp_ratios cfg) = length (layers cfg) ->
  length (downsamples cfg) = length (layers cfg) ->
  forall k a n,
    a + k = length (layers cfg) ->
    (exists i c, a <= i /\ layers cfg !! i = Some c /\ (1 <= c)%Z) ->
    build_network E cfg (seq a k) n = Err ZeroDivisionError.
Proof.
  intros Hs He Hm Hd. induction k as [|k IH]; intros a n Hak (i & c & Hai & Hi & Hc).
  - apply lookup_lt_Some in Hi. lia.
  - cbn [seq build_network].
    destruct (getitem_ok (embed_dims cfg) a ltac:(lia)) as (d & Hgd & _).
    rewrite (bind_ok _ _ _ _ _ (lift_ok _ _ n Hgd)).
    destruct (getitem_ok (mlp_ratios cfg) a ltac:(lia)) as (r & Hgr & _).
    rewrite (bind_ok _ _ _ _ _ (lift_ok _ _ n Hgr)).
    destruct (getitem_ok (layers cfg) a ltac:(lia)) as (ca & _ & Hca).
    destruct (Z.ltb_spec 0 ca) as [Hpos|Hneg].
    + apply bind_err. apply (basic_blocks_zero_div _ _ _ _ _ _ _ _ _ ca);
        [assumption | assumption | lia].
    + rewrite (bind_ok _ _ _ _ _
                 (basic_blocks_empty _ _ _ _ _ _ _ _ _ ca n Hca Hneg)).
      assert (Hia : a <> i) by (intros ->; rewrite Hca in Hi; inversion Hi; lia).
      assert (Hil : i < length (layers cfg)) by (eapply lookup_lt_Some; eauto).
      destruct (length (layers cfg) - 1 <=? a) eqn:Hbrk;
        [apply Nat.leb_le in Hbrk; lia|].
      destruct (getitem_ok (downsamples cfg) a ltac:(lia)) as (ds & Hgs & _).
      rewrite (bind_ok _ _ _ _ _ (lift_ok _ _ n Hgs)).
      destruct (getitem_ok (embed_dims cfg) (a + 1) ltac:(lia))
        as (d' & Hgd' & _).
      assert (Hrec : forall m, build_network E cfg (seq (S a) k) m
                               = Err ZeroDivisionError).
      { intros m. apply IH; [lia|]. exists i, c. split; [lia|auto]. }
      assert (Hcond : exists cond,
                (if ds then ret true
                 else let* d'0 := lift (getitem (embed_dims cfg) (a + 1)) in
                      ret (negb (d =? d'0))) n = Ok (cond, n)).
      { destruct ds; [unfold ret; eauto|].
        rewrite (bind_ok _ _ _ _ _ (lift_ok _ _ n Hgd')). unfold ret. eauto. }
      destruct Hcond as (cond & Hcond).
      rewrite (bind_ok _ _ _ _ _ Hcond). destruct cond.
      * rewrite (bind_ok _ _ _ _ _ (lift_ok _ _ n Hgd')).
        destruct (PatchEmbed_init_ok (down_patch_size cfg) (down_stride cfg)
                    (down_pad cfg) d d' n) as (pe & Hpe & _).
        rewrite (bind_ok _ _ _ _ _ Hpe). apply bind_err. apply Hrec.
      * apply bind_err. apply Hrec.
Qed.

Lemma build_network_short (cfg : Config) :
  forall k a n,
    a + k = length (layers cfg) ->
    (exists i, a <= i < length (layers cfg) /\
               (length (embed_dims cfg) <= i \/
                length (mlp_ratios cfg) <= i \/
                (length (downsamples cfg) <= i /\
                 i + 1 < length (layers cfg)))) ->
    exists e, build_network E cfg (seq a k) n = Err e.
Proof.
  induction k as [|k IH]; intros a n Hak (i & Hai & Hshort); [lia|].
  cbn [seq build_network]. unfold bind at 1. unfold lift at 1.
  destruct (getitem (embed_dims cfg) a) as [d|e] eqn:Hgd; [|eauto].
  apply getitem_inv in Hgd. destruct Hgd as [_ Hgd].
  unfold bind at 1. unfold lift at 1.
  destruct (getitem (mlp_ratios cfg) a) as [r|e] eqn:Hgr; [|eauto].
  apply getitem_inv in Hgr. destruct Hgr as [_ Hgr].
  unfold bind at 1.
  destruct (basic_blocks E d a (layers cfg) (pool_size cfg) r (drop_rate cfg)
              (drop_path_rate cfg) (cfg_use_layer_scale cfg)
              (layer_scale_init_value cfg) n) as [[stage n1]|e]; [|eauto].
  destruct (length (layers cfg) - 1 <=? a) eqn:Hbrk.
  { apply Nat.leb_le in Hbrk. exfalso. lia. }
  apply Nat.leb_gt in Hbrk.
  unfold bind at 1. unfold lift at 1.
  destruct (getitem (downsamples cfg) a) as [ds|e] eqn:Hgs; [|eauto].
  apply getitem_inv in Hgs. destruct Hgs as [_ Hgs].
  assert (Hrec : forall m, exists e,
            build_network E cfg (seq (S a) k) m = Err e).
  { intros m. apply IH; [lia|]. exists i. split; [lia | exact Hshort]. }
  unfold bind at 1.
  destruct ((if ds then ret true
             else let* d' := lift (getitem (embed_dims cfg) (a + 1)) in
                  ret (negb (d =? d'))) n1) as [[cond n2]|e]; [|eauto].
  destruct cond.
  - unfold bind at 1. unfold lift at 1.
    destruct (getitem (embed_dims cfg) (a + 1)) as [d'|e]; [|eauto].
    unfold bind at 1.
    destruct (PatchEmbed_init E (down_patch_size cfg) (down_stride cfg)
                (down_pad cfg) (Z.of_nat d) (Z.of_nat d') None n2)
      as [[pe n3]|e]; [|eauto].
    destruct (Hrec n3) as [e He]. exists e. apply bind_err. exact He.
  - destruct (Hrec n2) as [e He]. exists e. apply bind_err. exact He.
Qed.

End ConstructionErrors.

(** C6, as stated, fails: the constructor accepts a configuration whose
    block counts sum to 0 and one whose [embed_dims] is longer than
    [layers]. *)
Lemma C6_counterexample :
  is_ok (PoolFormer_init env0 no_block_config 0) = true /\
  is_ok (PoolFormer_init env0 long_dims_config 0) = true /\
  ~ rejects_invalid_configurations env0.
Proof.
  assert (H0 : is_ok (PoolFormer_init env0 no_block_config 0) = true)
    by (vm_compute; reflexivity).
  split; [exact H0|]. split; [vm_compute; reflexivity|].
  intros Hrej.
  destruct (Hrej no_block_config 0) as [e He].
  - right. cbn. lia.
  - rewrite He in H0. discriminate.
Qed.

(** C6, amended.  The constructor has no validation of its own; what stops
    a bad configuration is the first Python error on its path.  With lists
    of equal length and [sum(layers) = 1] construction raises the
    [ZeroDivisionError] of the rate formula; with [embed_dims] or
    [mlp_ratios] shorter than [layers], or [downsamples] shorter than
    [len(layers) - 1], construction raises an exception. *)
Theorem C6_construction_errors (E : Env) (cfg : Config) (n : nat) :
  (sumZ (layers cfg) = 1%Z ->
   length (embed_dims cfg) = length (layers cfg) ->
   length (mlp_ratios cfg) = length (layers cfg) ->
   length (downsamples cfg) = length (layers cfg) ->
   PoolFormer_init E cfg n = Err ZeroDivisionError) /\
  (length (embed_dims cfg) < length (layers cfg) \/
   length (mlp_ratios cfg) < length (layers cfg) \/
   length (downsamples cfg) + 1 < length (layers cfg) ->
   exists e, PoolFormer_init E cfg n = Err e).
Proof.
  split.
  - intros Hs He Hm Hd. unfold PoolFormer_init.
    destruct (sumZ_pos_exists (layers cfg) ltac:(lia)) as (i & c & Hi & Hc).
    assert (Hil : i < length (layers cfg)) by (eapply lookup_lt_Some; eauto).
    destruct (getitem_ok (embed_dims cfg) 0 ltac:(lia)) as (d0 & Hd0 & _).
    rewrite (bind_ok _ _ _ _ _ (lift_ok _ _ n Hd0)).
    destruct (PatchEmbed_init_ok E (in_patch_size cfg) (in_stride cfg)
                (in_pad cfg) 3 d0 n) as (pe & Hpe & _).
    change 3%Z with (Z.of_nat 3). rewrite (bind_ok _ _ _ _ _ Hpe).
    apply bind_err.
    apply (build_network_zero_div E cfg Hs He Hm Hd); [lia|].
    exists i, c. split; [lia | auto].
  - intros Hshort. unfold PoolFormer_init.
    unfold bind at 1. unfold lift at 1.
    destruct (getitem (embed_dims cfg) 0) as [d0|e]; [|eauto].
    unfold bind at 1.
    destruct (PatchEmbed_init E (in_patch_size cfg) (in_stride cfg)
                (in_pad cfg) 3 (Z.of_nat d0) None n) as [[pe n1]|e]; [|eauto].
    destruct (build_network_short E cfg (length (layers cfg)) 0 n1 eq_refl)
      as [e He].
    + destruct Hshort as [H|[H|H]].
      * exists (length (embed_dims cfg)). split; [lia|]. left. lia.
      * exists (length (mlp_ratios cfg)). split; [lia|]. right. left. lia.
      * exists (length (downsamples cfg)). split; [lia|]. right. right. lia.
    + exists e. apply bind_err. exact He.
Qed.

(** One block in total: the division by zero; three embedding widths for
    four stages: an exception. *)
Lemma C6_construction_errors_witness :
  PoolFormer_init env0
    (default_config [0; 1; 0; 0]%Z [64; 128; 320; 512] (all4 4%Q) (all4 true))
    0 = Err ZeroDivisionError /\
  exists e,
    PoolFormer_init env0
      (default_config [2; 2; 6; 2]%Z [64; 128; 320] (all4 4%Q) (all4 true)) 0
    = Err e.
Proof.
  split.
  - apply (C6_construction_errors env0); reflexivity.
  - apply (C6_construction_errors env0). left. cbn. lia.
Defined.

(** ** Building the network *)

Section Building.

Variable E : Env.






End Building.

(** ** Running the network *)

Section Running.

Variable E : Env.

Lemma Sequential_forward_ok (dim k : nat) (blocks : list PoolFormerBlock) :
  Forall (block_wf dim k) blocks -> Nat.odd k = true -> 1 <= dim ->
  forall (x : Tensor) (B H W n : nat),
    tshape x = [B; dim; H; W] -> 1 <= H -> 1 <= W ->
    exists y n', Sequential_forward E blocks x n = Ok (y, n') /\
                 tshape y = [B; dim; H; W].
Proof.
  intros Hwf Hk Hdim. induction Hwf as [|b blocks Hb _ IH];
    intros x B H W n Hx HH HW; cbn [Sequential_forward].
  - unfold ret. eauto.
  - destruct (PoolFormerBlock_forward_ok E dim k b x B H W Hb Hk Hx Hdim HH HW n)
      as (y & n1 & Hy & Hs).
    rewrite (bind_ok _ _ _ _ _ Hy). exact (IH y B H W n1 Hs HH HW).
Qed.






End Running.

(** ** The constructed model *)

Section Constructed.

Variable E : Env.




End Constructed.

(** ** Classification *)





(** ** The feature pyramid *)


Section Pyramid.

Variable E : Env.




End Pyramid.






(** ** End-to-end scenarios *)

(** PoolFormer-S12, classification, 1000 classes, one 224 x 224 image. *)
Example scenario_classification :
  run env0 poolformer_s12 (image 1 224 224) = Ok [[1; 1000]].
Proof. vm_compute. reflexivity. Qed.

(** The same configuration as a feature-pyramid backbone. *)
Example scenario_feature_pyramid :
  run env0 poolformer_s12_feat (image 1 224 224)
  = Ok [[1; 64; 56; 56]; [1; 128; 28; 28]; [1; 320; 14; 14]; [1; 512; 7; 7]].
Proof. vm_compute. reflexivity. Qed.

(** [num_classes = 0]: the pooled features, without projection. *)
Example scenario_no_classifier :
  run env0 (with_num_classes 0 poolformer_s12) (image 1 224 224)
  = Ok [[1; 512]].
Proof. vm_compute. reflexivity. Qed.

(** The unused class [LayerNormChannel] takes its statistics per position
    over the channels; on the sample input it disagrees with the class
    [GroupNorm] that the model uses. *)
Example norm_layers_differ :
  exists y z,
    GroupNorm_forward env0 (GroupNorm_init 2) sample_input = Ok y /\
    LayerNormChannel_forward env0 (LayerNormChannel_init 2) sample_input
    = Ok z /\
    ~ Qeq (tdata y [0; 0; 0; 0]) (tdata z [0; 0; 0; 0]).
Proof.
  eexists _, _. split; [reflexivity|]. split; [reflexivity|].
  vm_compute. discriminate.
Qed.

(** * Further properties of the code *)

(** ** The token mixer *)

(** X2. With an even window size the token mixer cannot be applied: the
    pooled tensor is one larger than the input along both spatial axes, and
    the subtraction of the input is a shape error. *)
Theorem X2_pooling_even_window_error (k : nat) (x : Tensor) (B C H W : nat) :
  Nat.even k = true -> 2 <= k ->
  tshape x = [B; C; H; W] -> 1 <= C -> 1 <= H -> 1 <= W ->
  2 <= H \/ 2 <= W ->
  (exists y, AvgPool2d_forward (pool (Pooling_init k)) x = Ok y /\
             tshape y = [B; C; H + 1; W + 1]) /\
  Pooling_forward (Pooling_init k) x = Err RuntimeError.
Proof.
  intros Hk Hk2 Hx HC HH HW _. apply Nat.even_spec in Hk.
  destruct Hk as [p ->].
  assert (Hhalf : 2 * p / 2 = p)
    by (symmetry; apply (Nat.div_unique _ 2 p 0); lia).
  assert (Hpool : exists y,
            AvgPool2d_forward (pool (Pooling_init (2 * p))) x = Ok y /\
            tshape y = [B; C; H + 1; W + 1]).
  { unfold Pooling_init, AvgPool2d_forward. cbn [pool].
    rewrite Hx. cbn [ap_kernel_size ap_stride ap_padding]. rewrite !Hhalf.
    assert (Hchk : ((1 =? 0) || (p <? p) || (C =? 0) || (H =? 0)
                    || (W =? 0) || (H + 2 * p <? 2 * p)
                    || (W + 2 * p <? 2 * p))%bool = false).
    { repeat (apply orb_false_intro);
        first [ apply Nat.eqb_neq | apply Nat.ltb_ge ]; lia. }
    rewrite Hchk. eexists. split; [reflexivity|]. cbn [tshape].
    unfold out_size. rewrite !Nat.div_1_r. repeat f_equal; lia. }
  split; [exact Hpool|].
  destruct Hpool as (y & Hy & Hs). unfold Pooling_forward. rewrite Hy.
  cbn [rbind]. unfold tsub, tzip.
  rewrite bool_decide_eq_false_2; [reflexivity|].
  rewrite Hs, Hx. intros Heq. inversion Heq. lia.
Qed.

(** A window of 2 on the sample input. *)
Lemma X2_pooling_even_window_error_witness :
  Pooling_forward (Pooling_init 2) sample_input = Err RuntimeError.
Proof.
  apply (X2_pooling_even_window_error 2 sample_input 1 2 2 2);
    first [reflexivity | lia].
Defined.

(** ** Normalisation *)

Lemma sum3_ext (C H W : nat) (f g : nat -> nat -> nat -> Q) :
  (forall c h w, c < C -> h < H -> w < W -> (f c h w == g c h w)%Q) ->
  (sum3 C H W f == sum3 C H W g)%Q.
Proof.
  intros Hfg. unfold sum3.
  apply sumn_ext; intros c Hc. apply sumn_ext; intros h Hh.
  apply sumn_ext; intros w Hw. auto.
Qed.

(** X5. [LayerNormChannel] works position by position: the output at
    [(b, ., h, w)] is determined by the input at [(b, ., h, w)]. *)
Theorem X5_layer_norm_channel_pointwise (E : Env) (m : LayerNormChannel)
    (x x' : Tensor) (B C H W b h w : nat) :
  Proper (Qeq ==> Qeq) (sqrt E) ->
  tshape x = [B; C; H; W] -> tshape x' = [B; C; H; W] ->
  tshape (lnc_weight m) = [C] ->
  (forall c, c < C -> (tdata x' [b; c; h; w] == tdata x [b; c; h; w])%Q) ->
  exists y y',
    LayerNormChannel_forward E m x = Ok y /\
    LayerNormChannel_forward E m x' = Ok y' /\
    forall c, c < C -> (tdata y' [b; c; h; w] == tdata y [b; c; h; w])%Q.
Proof.
  intros Hsqrt Hx Hx' Hwt Hsame. unfold LayerNormChannel_forward.
  rewrite Hx, Hx', Hwt, Nat.eqb_refl.
  eexists. eexists. split; [reflexivity|]. split; [reflexivity|].
  intros c Hc. cbn [tdata].
  assert (Hu : (sumn C (fun c0 => tdata x' [b; c0; h; w])
                / inject_Z (Z.of_nat C)
                == sumn C (fun c0 => tdata x [b; c0; h; w])
                   / inject_Z (Z.of_nat C))%Q).
  { rewrite (sumn_ext C _ _ Hsame). reflexivity. }
  assert (Hs : (sumn C (fun c0 =>
                  (tdata x' [b; c0; h; w]
                   - sumn C (fun c1 => tdata x' [b; c1; h; w])
                     / inject_Z (Z.of_nat C))
                  * (tdata x' [b; c0; h; w]
                     - sumn C (fun c1 => tdata x' [b; c1; h; w])
                       / inject_Z (Z.of_nat C)))
                == sumn C (fun c0 =>
                  (tdata x [b; c0; h; w]
                   - sumn C (fun c1 => tdata x [b; c1; h; w])
                     / inject_Z (Z.of_nat C))
                  * (tdata x [b; c0; h; w]
                     - sumn C (fun c1 => tdata x [b; c1; h; w])
                       / inject_Z (Z.of_nat C))))%Q).
  { apply sumn_ext. intros c0 Hc0. rewrite Hu, (Hsame c0 Hc0). reflexivity. }
  assert (Hq : (sqrt E (sumn C (fun c0 =>
                  (tdata x' [b; c0; h; w]
                   - sumn C (fun c1 => tdata x' [b; c1; h; w])
                     / inject_Z (Z.of_nat C))
                  * (tdata x' [b; c0; h; w]
                     - sumn C (fun c1 => tdata x' [b; c1; h; w])
                       / inject_Z (Z.of_nat C)))
                  / inject_Z (Z.of_nat C) + lnc_eps m)
                == sqrt E (sumn C (fun c0 =>
                  (tdata x [b; c0; h; w]
                   - sumn C (fun c1 => tdata x [b; c1; h; w])
                     / inject_Z (Z.of_nat C))
                  * (tdata x [b; c0; h; w]
                     - sumn C (fun c1 => tdata x [b; c1; h; w])
                       / inject_Z (Z.of_nat C)))
                  / inject_Z (Z.of_nat C) + lnc_eps m))%Q).
  { apply Hsqrt. rewrite Hs. reflexivity. }
  rewrite Hq, Hu, (Hsame c Hc). reflexivity.
Qed.

(** Two inputs that differ only away from position (0, 0). *)
Lemma X5_layer_norm_channel_pointwise_witness :
  let x' := mkTensor [1; 2; 2; 2]
              (fun idx => match idx with
                          | [_; _; 0; 0] => tdata sample_input idx
                          | _ => 0%Q
                          end) in
  exists y y',
    LayerNormChannel_forward env0 (LayerNormChannel_init 2) sample_input
    = Ok y /\
    LayerNormChannel_forward env0 (LayerNormChannel_init 2) x' = Ok y' /\
    forall c, c < 2 -> Qeq (tdata y' [0; c; 0; 0]) (tdata y [0; c; 0; 0]).
Proof.
  intros x'.
  apply (X5_layer_norm_channel_pointwise env0 (LayerNormChannel_init 2)
           sample_input x' 1 2 2 2 0 0 0).
  - intros a b Hab. exact Hab.
  - reflexivity.
  - reflexivity.
  - reflexivity.
  - intros c _. reflexivity.
Defined.

(** ** The channel MLP *)

(** A convolution with a 1 x 1 kernel, stride 1 and no padding mixes the
    channels of each position. *)
Lemma Conv2d_forward_1x1 (c : Conv2d) (x : Tensor) (B C H W : nat) :
  conv1x1 c -> in_channels c = C -> tshape x = [B; C; H; W] ->
  1 <= H -> 1 <= W ->
  exists y,
    Conv2d_forward c x = Ok y /\
    tshape y = [B; out_channels c; H; W] /\
    forall b o h w, h < H -> w < W ->
      (tdata y [b; o; h; w]
       == tdata (conv_bias c) [o]
          + sumn C (fun i => tdata (conv_weight c) [o; i; 0%nat; 0%nat]
                             * tdata x [b; i; h; w]))%Q.
Proof.
  intros (Hk & Hs & Hp) Hin Hx HH HW. unfold Conv2d_forward.
  rewrite Hx. cbv zeta. rewrite Hk, Hs, Hp, Hin, Nat.eqb_refl.
  destruct (H + 2 * 0 <? 1) eqn:H2; [apply Nat.ltb_lt in H2; lia|].
  destruct (W + 2 * 0 <? 1) eqn:H3; [apply Nat.ltb_lt in H3; lia|].
  cbn [negb orb Nat.eqb].
  eexists. split; [reflexivity|]. split.
  - cbn [tshape]. rewrite !out_size_1x1 by assumption. reflexivity.
  - intros b o h w Hh Hw. cbn [tdata]. unfold sum3.
    apply Qplus_comp; [reflexivity|]. apply sumn_ext. intros i Hi.
    cbn [sumn]. unfold padded.
    replace (h * 1 + 0 - 0) with h by lia.
    replace (w * 1 + 0 - 0) with w by lia.
    cbn [Nat.leb andb].
    destruct (h <? H) eqn:H4; [|apply Nat.ltb_ge in H4; lia].
    destruct (w <? W) eqn:H5; [|apply Nat.ltb_ge in H5; lia].
    cbn [andb]. ring.
Qed.

(** X6. Outside training, or with dropout probability 0, the channel MLP is
    a two-layer perceptron applied to each position on its own: it draws no
    random number, keeps the shape, and its output at [(b, o, h, w)] is
    [b2[o] + sum_c w2[o, c] * gelu (b1[c] + sum_i w1[c, i] * x[b, i, h, w])]. *)
Theorem X6_mlp_position_wise (E : Env) (m : Mlp) (x : Tensor)
    (B C H W n : nat) :
  Proper (Qeq ==> Qeq) (gelu E) ->
  mlp_wf C m -> tshape x = [B; C; H; W] -> 1 <= H -> 1 <= W ->
  training E = false \/ (dropout_p (drop m) == 0)%Q ->
  exists y,
    Mlp_forward E m x n = Ok (y, n) /\ tshape y = [B; C; H; W] /\
    forall b o h w, h < H -> w < W ->
      (tdata y [b; o; h; w]
       == tdata (conv_bias (fc2 m)) [o]
          + sumn (out_channels (fc1 m)) (fun c =>
              tdata (conv_weight (fc2 m)) [o; c; 0%nat; 0%nat]
              * gelu E (tdata (conv_bias (fc1 m)) [c]
                        + sumn C (fun i =>
                            tdata (conv_weight (fc1 m)) [c; i; 0%nat; 0%nat]
                            * tdata x [b; i; h; w]))))%Q.
Proof.
  intros Hgelu (Hi1 & Ho2 & Hi2 & Hc1 & Hc2) Hx HH HW Hmode.
  assert (Hdrop : forall t k, Dropout_forward E (drop m) t k = Ok (t, k)).
  { intros t k. unfold Dropout_forward.
    assert (Hcond : (training E && negb (Qeq_bool (dropout_p (drop m)) 0))%bool
                    = false).
    { destruct Hmode as [->|Hp]; [reflexivity|].
      apply Qeq_bool_iff in Hp. rewrite Hp. apply andb_false_r. }
    rewrite Hcond. reflexivity. }
  destruct (Conv2d_forward_1x1 (fc1 m) x B C H W Hc1 Hi1 Hx HH HW)
    as (y1 & Hy1 & Hs1 & Hd1).
  assert (Hsa : tshape (act E y1) = [B; out_channels (fc1 m); H; W])
    by exact Hs1.
  destruct (Conv2d_forward_1x1 (fc2 m) (act E y1) B _ H W Hc2 Hi2 Hsa HH HW)
    as (y2 & Hy2 & Hs2 & Hd2).
  exists y2. split; [|split].
  - unfold Mlp_forward.
    rewrite (bind_ok _ _ _ _ _ (lift_ok _ _ n Hy1)).
    rewrite (bind_ok _ _ _ _ _ (Hdrop _ _)).
    rewrite (bind_ok _ _ _ _ _ (lift_ok _ _ n Hy2)).
    rewrite (bind_ok _ _ _ _ _ (Hdrop _ _)). reflexivity.
  - rewrite Hs2, Ho2. reflexivity.
  - intros b o h w Hh Hw. rewrite (Hd2 b o h w Hh Hw).
    apply Qplus_comp; [reflexivity|]. apply sumn_ext. intros c Hc.
    apply Qmult_comp; [reflexivity|]. cbn [act tdata].
    apply Hgelu. apply Hd1; assumption.
Qed.

(** The MLP of the sample block on the sample input. *)
Lemma X6_mlp_position_wise_witness :
  exists y,
    Mlp_forward env0 (mlp (sample_block DPIdentity)) sample_input 0
    = Ok (y, 0) /\
    tshape y = [1; 2; 2; 2].
Proof.
  destruct (X6_mlp_position_wise env0 (mlp (sample_block DPIdentity))
              sample_input 1 2 2 2 0) as (y & Hy & Hs & _).
  - intros a b Hab. exact Hab.
  - unfold mlp_wf, conv1x1. cbn. auto 10.
  - reflexivity.
  - lia.
  - lia.
  - left. reflexivity.
  - exists y. auto.
Defined.

Lemma Conv2d_init_draws (E : Env) (i o : Z) (k s p n n' : nat) (c : Conv2d) :
  Conv2d_init E i o k s p n = Ok (c, n') -> n' = S (S n).
Proof.
  unfold Conv2d_init. destruct ((i <? 0)%Z || (o <? 0)%Z)%bool; [discriminate|].
  cbn. intros Heq. injection Heq as _ <-. reflexivity.
Qed.

Lemma Mlp_init_weights_bias (E : Env) (c c' : Conv2d) (n n' : nat) :
  Mlp_init_weights E c n = Ok (c', n') ->
  n' = S n /\ conv_bias c' = zeros (out_channels c).
Proof.
  unfold Mlp_init_weights. cbn. intros Heq. injection Heq as <- <-.
  split; reflexivity.
Qed.

(** In binary64 the product of 10 and 0.7 rounds up to 7, which is the
    hidden width that the program builds; the exact product of 10 and the
    number that 0.7 stands for truncates to 6. *)
Example hidden_width_rounds_up :
  let ratio := Machine.div64 (binary_normalize 53 1024 7 0 false)
                 (binary_normalize 53 1024 10 0 false) in
  Machine.mlp_hidden_dim 10 ratio = Ok 7%Z /\
  exists r, Machine.value ratio = Some r /\
            py_int (inject_Z (Z.of_nat 10) * r) = 6%Z.
Proof.
  split; [reflexivity|]. eexists. split; [reflexivity|].
  vm_compute. reflexivity.
Qed.

(** X7. What [PoolFormerBlock.__init__] makes of its MLP when the product
    [dim * mlp_ratio] truncates to the same integer [h] in binary64, as the
    program computes it, and in exact arithmetic (so for every integral
    ratio, as in the presets): six random draws, a hidden width of [h] or,
    when [h] is 0, of [dim] (the [or] of [Mlp.__init__]), zero biases, and
    the given dropout probability, which lies in [0, 1]. *)
Theorem X7_block_mlp_parameters (E : Env) (dim k : nat) (r dr dp : Q)
    (uls : bool) (lsiv : Q) (n n' : nat) (m : PoolFormerBlock)
    (ratio : spec_float) (h : Z) :
  Machine.represents ratio r ->
  Machine.mlp_hidden_dim dim ratio = Ok h ->
  h = py_int (inject_Z (Z.of_nat dim) * r) ->
  PoolFormerBlock_init E dim k r dr dp uls lsiv n = Ok (m, n') ->
  n' = n + 6 /\
  (0 <= h)%Z /\
  out_channels (fc1 (mlp m))
  = (if (h =? 0)%Z then dim else Z.to_nat h) /\
  conv_bias (fc1 (mlp m)) = zeros (out_channels (fc1 (mlp m))) /\
  conv_bias (fc2 (mlp m)) = zeros dim /\
  dropout_p (drop (mlp m)) = dr /\
  Qle_bool 0 dr = true /\ Qle_bool dr 1 = true.
Proof.
  intros _ _ Hh. unfold PoolFormerBlock_init. cbv zeta. intros Hrun.
  apply bind_inv in Hrun. destruct Hrun as (ml & n1 & Hml & Hrun).
  assert (Hm : mlp m = ml /\ n' = n1).
  { destruct uls; apply ret_inv in Hrun; destruct Hrun as [-> ->];
      split; reflexivity. }
  destruct Hm as [-> ->]. clear Hrun.
  unfold Mlp_init in Hml. cbn [py_or] in Hml.
  rewrite <- Hh in Hml.
  apply bind_inv in Hml. destruct Hml as (c1 & k1 & H1 & Hml).
  apply bind_inv in Hml. destruct Hml as (c2 & k2 & H2 & Hml).
  apply bind_inv in Hml. destruct Hml as (d & k3 & H3 & Hml).
  apply bind_inv in Hml. destruct Hml as (c1' & k4 & H4 & Hml).
  apply bind_inv in Hml. destruct Hml as (c2' & k5 & H5 & Hml).
  apply ret_inv in Hml. destruct Hml as [Hmk ->].
  rewrite Hmk. cbn [fc1 fc2 drop].
  unfold Dropout_init in H3.
  destruct (Qle_bool 0 dr) eqn:Hd0; [|discriminate].
  destruct (Qle_bool dr 1) eqn:Hd1; [|discriminate].
  cbn [andb] in H3. apply ret_inv in H3. destruct H3 as [-> ->].
  pose proof (Conv2d_init_draws _ _ _ _ _ _ _ _ _ H1) as Hk1.
  pose proof (Conv2d_init_draws _ _ _ _ _ _ _ _ _ H2) as Hk2.
  apply Conv2d_init_inv in H1, H2.
  destruct H1 as (_ & Ho1 & _ & _ & _ & _ & Hpos).
  destruct H2 as (_ & Ho2 & _).
  pose proof (Mlp_init_weights_inv _ _ _ _ _ H4) as (_ & Ho1' & _).
  pose proof (Mlp_init_weights_inv _ _ _ _ _ H5) as (_ & Ho2' & _).
  apply Mlp_init_weights_bias in H4, H5.
  destruct H4 as [Hk4 Hb1]. destruct H5 as [Hk5 Hb2].
  cbn [dropout_p].
  split; [lia|]. split.
  { destruct (Z.eqb_spec h 0); lia. }
  split.
  { rewrite Ho1', Ho1.
    destruct (Z.eqb_spec h 0) as [->|Hne]; [apply Nat2Z.id | reflexivity]. }
  split; [rewrite Hb1, Ho1'; reflexivity|].
  split; [rewrite Hb2, Ho2, Nat2Z.id; reflexivity|]. auto.
Qed.

(** A block of width 2 with [mlp_ratio = 0]: the hidden width is 2. *)
Lemma X7_block_mlp_parameters_witness :
  exists m n',
    PoolFormerBlock_init env0 2 3 0 0 0 true (1 # 100000) 0 = Ok (m, n') /\
    n' = 6 /\ out_channels (fc1 (mlp m)) = 2.
Proof.
  destruct (PoolFormerBlock_init env0 2 3 0 0 0 true (1 # 100000) 0)
    as [[m n']|e] eqn:Hinit.
  - exists m, n'. split; [reflexivity|].
    destruct (X7_block_mlp_parameters env0 2 3 0 0 0 true (1 # 100000) 0 n' m
                (S754_zero false) 0%Z
                ltac:(eexists; split; reflexivity) eq_refl eq_refl Hinit)
      as (Hn & _ & Hh & _).
    split; [exact Hn | exact Hh].
  - exfalso. vm_compute in Hinit. discriminate.
Defined.

Section DropRate.

Variable E : Env.



End DropRate.



(** ** Randomness of the forward pass *)

Lemma draws_nothing_ret {A} (a : A) : draws_nothing (ret a).
Proof. exists (Ok a). reflexivity. Qed.

Lemma draws_nothing_lift {A} (r : Result A) : draws_nothing (lift r).
Proof. exists r. reflexivity. Qed.

Lemma draws_nothing_raise {A} (e : PyErr) : draws_nothing (@raise A e).
Proof. exists (Err e). reflexivity. Qed.

Lemma draws_nothing_bind {A B} (c : M A) (k : A -> M B) :
  draws_nothing c -> (forall a, draws_nothing (k a)) ->
  draws_nothing (bind c k).
Proof.
  intros [r Hr] Hk. destruct r as [a|e].
  - destruct (Hk a) as [r' Hr']. exists r'. intros n.
    unfold bind. rewrite Hr. cbn. apply Hr'.
  - exists (Err e). intros n. unfold bind. rewrite Hr. reflexivity.
Qed.

Lemma draws_nothing_bind_lift {A B} (r : Result A) (k : A -> M B) :
  (forall a, r = Ok a -> draws_nothing (k a)) ->
  draws_nothing (bind (lift r) k).
Proof.
  intros Hk. destruct r as [a|e].
  - destruct (Hk a eq_refl) as [r' Hr']. exists r'. intros n. apply Hr'.
  - exists (Err e). reflexivity.
Qed.

Lemma draws_nothing_state {A} (c : M A) (n n' : nat) (a : A) :
  draws_nothing c -> c n = Ok (a, n') ->
  n' = n /\ forall k, c k = Ok (a, k).
Proof.
  intros [r Hr] Hrun. rewrite Hr in Hrun. destruct r as [a0|e];
    [|discriminate].
  cbn in Hrun. injection Hrun as -> ->. split; [reflexivity|].
  intros k. rewrite Hr. reflexivity.
Qed.

Lemma draws_nothing_error {A} (c : M A) (n : nat) (e : PyErr) :
  draws_nothing c -> c n = Err e -> forall k, c k = Err e.
Proof.
  intros [r Hr] Hrun k. rewrite Hr in Hrun. rewrite Hr.
  destruct r as [a0|e0]; [discriminate | exact Hrun].
Qed.

Ltac quiet_step :=
  first [ apply draws_nothing_ret
        | apply draws_nothing_lift
        | apply draws_nothing_raise
        | apply draws_nothing_bind; [|intro] ].

Section Quiet.

Variable E : Env.

Lemma Dropout_quiet (d : Dropout) (x : Tensor) :
  training E = false \/ Qeq_bool (dropout_p d) 0 = true ->
  draws_nothing (Dropout_forward E d x).
Proof.
  intros Hq. unfold Dropout_forward.
  assert (Hcond : (training E && negb (Qeq_bool (dropout_p d) 0))%bool = false).
  { destruct Hq as [->| ->]; [reflexivity | apply andb_false_r]. }
  rewrite Hcond. apply draws_nothing_ret.
Qed.

Lemma DropPathSlot_quiet (s : DropPathSlot) (x : Tensor) :
  training E = false \/ s = DPIdentity ->
  draws_nothing (DropPathSlot_forward E s x).
Proof.
  intros [Ht| ->]; [|apply draws_nothing_ret].
  destruct s as [|p]; [apply draws_nothing_ret|].
  unfold DropPathSlot_forward, DropPath_forward. rewrite Ht.
  rewrite orb_true_r. apply draws_nothing_ret.
Qed.

Lemma Mlp_quiet (m : Mlp) (x : Tensor) :
  training E = false \/ Qeq_bool (dropout_p (drop m)) 0 = true ->
  draws_nothing (Mlp_forward E m x).
Proof.
  intros Hq. unfold Mlp_forward.
  repeat first [ apply Dropout_quiet; exact Hq | quiet_step ].
Qed.

Lemma PoolFormerBlock_quiet (m : PoolFormerBlock) (x : Tensor) :
  quiet_block E m -> draws_nothing (PoolFormerBlock_forward E m x).
Proof.
  intros Hq.
  assert (Hdp : training E = false \/ drop_path m = DPIdentity)
    by (destruct Hq as [?|[? _]]; auto).
  assert (Hml : training E = false
                \/ Qeq_bool (dropout_p (drop (mlp m))) 0 = true)
    by (destruct Hq as [?|[_ ?]]; auto).
  unfold PoolFormerBlock_forward. destruct (use_layer_scale m);
    repeat first [ apply DropPathSlot_quiet; exact Hdp
                 | apply Mlp_quiet; exact Hml
                 | quiet_step ].
Qed.

Lemma Sequential_quiet (blocks : list PoolFormerBlock) :
  Forall (quiet_block E) blocks ->
  forall x, draws_nothing (Sequential_forward E blocks x).
Proof.
  induction 1 as [|b rest Hb _ IH]; intros x; cbn [Sequential_forward].
  - apply draws_nothing_ret.
  - apply draws_nothing_bind; [apply PoolFormerBlock_quiet, Hb | apply IH].
Qed.

Lemma tokens_loop_quiet (self : gmap string Value) :
  forall (items : list (nat * NetItem)),
    (forall i blocks, In (i, Stage blocks) items ->
       Forall (quiet_block E) blocks) ->
    forall x outs, draws_nothing (tokens_loop E self items x outs).
Proof.
  induction items as [|[idx block] rest IH]; intros Hq x outs;
    cbn [tokens_loop].
  - apply draws_nothing_ret.
  - apply draws_nothing_bind.
    + destruct block as [blocks|pe]; cbn [NetItem_forward].
      * apply Sequential_quiet. apply (Hq idx). left. reflexivity.
      * apply draws_nothing_lift.
    + intros x'. apply draws_nothing_bind; [apply draws_nothing_lift|].
      intros fork. apply draws_nothing_bind.
      { destruct fork; repeat quiet_step. }
      intros hit. apply draws_nothing_bind.
      { destruct hit; repeat quiet_step. }
      intros outs'. apply IH. intros i blocks Hin. apply (Hq i).
      right. exact Hin.
Qed.

Lemma quiet_network_In (items : list NetItem) (blocks : list PoolFormerBlock) :
  quiet_network E items -> In (Stage blocks) items ->
  Forall (quiet_block E) blocks.
Proof.
  unfold quiet_network, stages. intros Hq Hin.
  rewrite List.Forall_forall in Hq. apply Hq. apply in_flat_map.
  exists (Stage blocks). split; [exact Hin | left; reflexivity].
Qed.

Lemma forward_quiet (self : gmap string Value) (x : Tensor) :
  (forall items, self !! "network" = Some (VNetwork items) ->
     quiet_network E items) ->
  draws_nothing (forward E self x).
Proof.
  intros Hq. unfold forward. apply draws_nothing_bind.
  { unfold forward_embeddings. repeat quiet_step. }
  intros x0. apply draws_nothing_bind.
  { unfold forward_tokens. apply draws_nothing_bind_lift.
    intros network Hnet. apply draws_nothing_bind.
    - apply tokens_loop_quiet. intros i blocks Hin.
      apply (quiet_network_In network).
      + apply Hq. unfold getattr in Hnet.
        destruct (self !! "network") as [[]|]; try discriminate.
        cbn in Hnet. congruence.
      + unfold enumerate in Hin. apply in_combine_r in Hin. exact Hin.
    - intros r. apply draws_nothing_bind; [apply draws_nothing_lift|].
      intros fork. destruct fork; apply draws_nothing_ret. }
  intros r. apply draws_nothing_bind; [apply draws_nothing_lift|].
  intros fork. destruct fork; [apply draws_nothing_ret|].
  destruct r; repeat quiet_step.
Qed.

End Quiet.

(** X9. Outside training the forward pass is deterministic: whatever the
    object, it draws no random number, so it leaves the generator where it
    was and returns the same output or raises the same exception from every
    generator state. *)
Theorem X9_eval_forward_draws_nothing (E : Env) (self : gmap string Value)
    (x : Tensor) :
  training E = false ->
  (forall n o n', forward E self x n = Ok (o, n') ->
     n' = n /\ forall k, forward E self x k = Ok (o, k)) /\
  (forall n e, forward E self x n = Err e ->
     forall k, forward E self x k = Err e).
Proof.
  intros Ht.
  assert (Hq : draws_nothing (forward E self x)).
  { apply forward_quiet. intros items _. unfold quiet_network.
    apply List.Forall_forall. intros blocks _.
    apply List.Forall_forall. intros m _. left. exact Ht. }
  split.
  - intros n o n'. apply draws_nothing_state, Hq.
  - intros n e. apply draws_nothing_error, Hq.
Qed.

(** PoolFormer-S12 in evaluation mode. *)
Lemma X9_eval_forward_draws_nothing_witness :
  exists self n0,
    PoolFormer_init env0 poolformer_s12 0 = Ok (self, n0) /\
    forall n o n', forward env0 self (image 1 224 224) n = Ok (o, n') ->
      n' = n.
Proof.
  assert (Hok : is_ok (PoolFormer_init env0 poolformer_s12 0) = true)
    by (vm_compute; reflexivity).
  destruct (PoolFormer_init env0 poolformer_s12 0) as [[self n0]|e];
    [|discriminate].
  exists self, n0. split; [reflexivity|]. intros n o n' Hrun.
  destruct (X9_eval_forward_draws_nothing env0 self (image 1 224 224)
              eq_refl) as [Hstate _].
  destruct (Hstate n o n' Hrun) as [Hn _]. exact Hn.
Defined.

(** ** What a successful construction tells *)

Section Inversion.

Variable E : Env.

Lemma basic_blocks_inv (dim i : nat) (block_counts : list Z) (k : nat)
    (r dr dpr : Q) (uls : bool) (lsiv : Q) (n n' : nat)
    (blocks : list PoolFormerBlock) :
  basic_blocks E dim i block_counts k r dr dpr uls lsiv n = Ok (blocks, n') ->
  exists c,
    block_counts !! i = Some c /\ length blocks = Z.to_nat c /\
    forall j blk, blocks !! j = Some blk ->
      exists rate m m',
        block_dpr dpr j i block_counts = Ok rate /\
        PoolFormerBlock_init E dim k r dr rate uls lsiv m = Ok (blk, m').
Proof.
  unfold basic_blocks. intros Hrun.
  apply bind_inv in Hrun. destruct Hrun as (c & n1 & Hc & Hrun).
  apply lift_inv in Hc. destruct Hc as [Hc ->].
  apply getitem_inv in Hc. destruct Hc as [Hc _].
  apply for_each_inv in Hrun. destruct Hrun as [Hlen Hall].
  exists c. split; [exact Hc|]. rewrite length_seq in Hlen.
  split; [exact Hlen|].
  intros j blk Hj.
  assert (Hjl : j < Z.to_nat c)
    by (rewrite <- Hlen; eapply lookup_lt_Some; eauto).
  destruct (Hall j j (lookup_seq_lt _ _ _ Hjl)) as (b & m & m' & Hb & Hbody).
  rewrite Hj in Hb. inversion Hb; subst b.
  apply bind_inv in Hbody. destruct Hbody as (rate & m1 & Hrate & Hinit).
  apply lift_inv in Hrate. destruct Hrate as [Hrate ->].
  eauto 10.
Qed.

(** Stage [i] of a constructed network is what [basic_blocks] returned for
    [i]. *)
Lemma build_network_inv (cfg : Config) :
  forall k a n n' items,
    a + k = length (layers cfg) ->
    build_network E cfg (seq a k) n = Ok (items, n') ->
    Forall2 (fun i blocks =>
               exists d r m m',
                 embed_dims cfg !! i = Some d /\
                 mlp_ratios cfg !! i = Some r /\
                 basic_blocks E d i (layers cfg) (pool_size cfg) r
                   (drop_rate cfg) (drop_path_rate cfg)
                   (cfg_use_layer_scale cfg) (layer_scale_init_value cfg) m
                 = Ok (blocks, m'))
      (seq a k) (stages items).
Proof.
  induction k as [|k IH]; intros a n n' items Hak Hrun;
    cbn [seq build_network] in Hrun.
  - apply ret_inv in Hrun. destruct Hrun as [-> _]. constructor.
  - apply bind_inv in Hrun. destruct Hrun as (d & n1 & Hd & Hrun).
    apply lift_inv in Hd. destruct Hd as [Hd ->].
    apply getitem_inv in Hd. destruct Hd as [Hd _].
    apply bind_inv in Hrun. destruct Hrun as (r & n1 & Hr & Hrun).
    apply lift_inv in Hr. destruct Hr as [Hr ->].
    apply getitem_inv in Hr. destruct Hr as [Hr _].
    apply bind_inv in Hrun. destruct Hrun as (stage & n1 & Hst & Hrun).
    assert (Hhead : exists d0 r0 m m',
              embed_dims cfg !! a = Some d0 /\ mlp_ratios cfg !! a = Some r0 /\
              basic_blocks E d0 a (layers cfg) (pool_size cfg) r0
                (drop_rate cfg) (drop_path_rate cfg) (cfg_use_layer_scale cfg)
                (layer_scale_init_value cfg) m = Ok (stage, m'))
      by eauto 10.
    destruct (length (layers cfg) - 1 <=? a) eqn:Hbrk.
    + apply Nat.leb_le in Hbrk. apply ret_inv in Hrun.
      destruct Hrun as [-> _].
      replace k with 0 by lia. cbn. repeat constructor. exact Hhead.
    + apply bind_inv in Hrun. destruct Hrun as (ds & n2 & _ & Hrun).
      apply bind_inv in Hrun. destruct Hrun as (cond & n3 & _ & Hrun).
      destruct cond.
      * apply bind_inv in Hrun. destruct Hrun as (d' & n4 & _ & Hrun).
        apply bind_inv in Hrun. destruct Hrun as (pe & n5 & _ & Hrun).
        apply bind_inv in Hrun. destruct Hrun as (tl & n6 & Htl & Hrun).
        apply ret_inv in Hrun. destruct Hrun as [-> _].
        cbn. constructor; [exact Hhead|].
        apply (IH (S a) _ _ _ ltac:(lia) Htl).
      * apply bind_inv in Hrun. destruct Hrun as (tl & n6 & Htl & Hrun).
        apply ret_inv in Hrun. destruct Hrun as [-> _].
        cbn. constructor; [exact Hhead|].
        apply (IH (S a) _ _ _ ltac:(lia) Htl).
Qed.

Lemma PoolFormerBlock_init_dropout (dim k : nat) (r dr dp : Q) (uls : bool)
    (lsiv : Q) (n n' : nat) (m : PoolFormerBlock) :
  PoolFormerBlock_init E dim k r dr dp uls lsiv n = Ok (m, n') ->
  dropout_p (drop (mlp m)) = dr.
Proof.
  unfold PoolFormerBlock_init. cbv zeta. intros Hrun.
  apply bind_inv in Hrun. destruct Hrun as (ml & n1 & Hml & Hrun).
  assert (Hm : mlp m = ml)
    by (destruct uls; apply ret_inv in Hrun; destruct Hrun as [-> _];
        reflexivity).
  rewrite Hm. clear Hrun Hm. unfold Mlp_init in Hml.
  apply bind_inv in Hml. destruct Hml as (c1 & k1 & _ & Hml).
  apply bind_inv in Hml. destruct Hml as (c2 & k2 & _ & Hml).
  apply bind_inv in Hml. destruct Hml as (d & k3 & H3 & Hml).
  apply bind_inv in Hml. destruct Hml as (c1' & k4 & _ & Hml).
  apply bind_inv in Hml. destruct Hml as (c2' & k5 & _ & Hml).
  apply ret_inv in Hml. destruct Hml as [-> _]. cbn [drop].
  unfold Dropout_init in H3.
  destruct (Qle_bool 0 dr && Qle_bool dr 1)%bool; [|discriminate].
  apply ret_inv in H3. destruct H3 as [-> _]. reflexivity.
Qed.

Lemma Linear_init_inv (i o : Z) (n n' : nat) (l : Linear) :
  Linear_init E i o n = Ok (l, n') ->
  in_features l = Z.to_nat i /\ out_features l = Z.to_nat o.
Proof.
  unfold Linear_init. destruct ((i <? 0)%Z || (o <? 0)%Z)%bool; [discriminate|].
  cbn. intros Heq. injection Heq as <- _. split; reflexivity.
Qed.

Lemma apply_cls_init_weights_head (self self' : gmap string Value)
    (n n' : nat) :
  apply_cls_init_weights E self n = Ok (self', n') ->
  match self !! "head" with
  | Some (VHead (HLinear l)) =>
      exists l', self' !! "head" = Some (VHead (HLinear l')) /\
                 in_features l' = in_features l /\
                 out_features l' = out_features l /\
                 lin_bias l' = zeros (out_features l)
  | v => self' !! "head" = v
  end.
Proof.
  unfold apply_cls_init_weights.
  destruct (self !! "head") as [[| | | | | | |[l|]]|] eqn:Hh;
    try (intros Hrun; apply ret_inv in Hrun; destruct Hrun as [-> _];
         exact Hh).
  intros Hrun. apply bind_inv in Hrun. destruct Hrun as (l' & n1 & Hl & Hrun).
  apply ret_inv in Hrun. destruct Hrun as [-> _].
  unfold cls_init_weights in Hl. cbn in Hl. injection Hl as <- _.
  eexists. split; [apply lookup_insert_eq|]. cbn. auto.
Qed.

Lemma string_of_uint_nonempty (d : Decimal.uint) :
  d <> Decimal.Nil -> exists c s, NilEmpty.string_of_uint d = String c s.
Proof. destruct d; cbn; [congruence | eauto ..]. Qed.

Lemma revapp_nonnil (d d' : Decimal.uint) :
  d' <> Decimal.Nil -> Decimal.revapp d d' <> Decimal.Nil.
Proof.
  revert d'. induction d; intros d' Hd'; cbn; [exact Hd' | apply IHd ..];
    discriminate.
Qed.

Lemma to_little_uint_nonnil (n : nat) (acc : Decimal.uint) :
  acc <> Decimal.Nil -> Nat.to_little_uint n acc <> Decimal.Nil.
Proof.
  revert acc. induction n as [|n IH]; intros acc Hacc; cbn; [exact Hacc|].
  apply IH. destruct acc; cbn; try discriminate.
Qed.

Lemma to_uint_nonnil (n : nat) : Nat.to_uint n <> Decimal.Nil.
Proof.
  unfold Nat.to_uint, Decimal.rev.
  pose proof (to_little_uint_nonnil n Decimal.zero ltac:(discriminate)) as Hn.
  destruct (Nat.to_little_uint n Decimal.zero); [congruence | ..];
    cbn; apply revapp_nonnil; discriminate.
Qed.

(** [f'norm{i}'] is ["norm"] followed by at least one digit. *)
Lemma norm_name_shape (i : nat) :
  exists c s,
    norm_name i = String "n" (String "o" (String "r" (String "m" (String c s)))).
Proof.
  unfold norm_name.
  destruct (string_of_uint_nonempty _ (to_uint_nonnil i)) as (c & s & ->).
  cbn. eauto.
Qed.

Ltac attr :=
  repeat first [ rewrite lookup_insert_eq
               | rewrite lookup_insert_ne by discriminate
               | rewrite lookup_empty ];
  try reflexivity.

Ltac norm_neq :=
  let i := fresh "i" in
  let Heq := fresh "Heq" in
  let c := fresh "c" in
  let s := fresh "s" in
  let Hs := fresh "Hs" in
  intros i Heq; destruct (norm_name_shape i) as (c & s & Hs);
  rewrite Hs in Heq; discriminate.

Lemma PoolFormer_init_inv (cfg : Config) (n n' : nat)
    (self : gmap string Value) :
  PoolFormer_init E cfg n = Ok (self, n') ->
  exists d0 pe network n1 n2,
    embed_dims cfg !! 0 = Some d0 /\
    PatchEmbed_init E (in_patch_size cfg) (in_stride cfg) (in_pad cfg)
      3 (Z.of_nat d0) None n = Ok (pe, n1) /\
    build_network E cfg (seq 0 (length (layers cfg))) n1 = Ok (network, n2) /\
    self !! "patch_embed" = Some (VPatchEmbed pe) /\
    self !! "network" = Some (VNetwork network) /\
    self !! "fork_feat" = Some (VBool (fork_feat cfg)) /\
    if fork_feat cfg
    then self !! "head" = None /\ self !! "norm" = None /\
         self !! "num_classes" = None /\
         self !! "out_indices" = Some (VIndices [0; 2; 4; 6])
    else self !! "out_indices" = None /\
         (forall i, self !! norm_name i = None) /\
         self !! "num_classes" = Some (VInt (num_classes cfg)) /\
         exists dl head,
           getitem_last (embed_dims cfg) = Ok dl /\
           self !! "norm" = Some (VNorm (GroupNorm_cls dl)) /\
           self !! "head" = Some (VHead head) /\
           if (0 <? num_classes cfg)%Z
           then exists l, head = HLinear l /\ in_features l = dl /\
                          out_features l = Z.to_nat (num_classes cfg) /\
                          lin_bias l = zeros (Z.to_nat (num_classes cfg))
           else head = HIdentity.
Proof.
  unfold PoolFormer_init. intros Hrun.
  apply bind_inv in Hrun. destruct Hrun as (d0 & n1 & Hd0 & Hrun).
  apply lift_inv in Hd0. destruct Hd0 as [Hd0 ->].
  apply getitem_inv in Hd0. destruct Hd0 as [Hd0 _].
  apply bind_inv in Hrun. destruct Hrun as (pe & n2 & Hpe & Hrun).
  apply bind_inv in Hrun. destruct Hrun as (network & n3 & Hnet & Hrun).
  apply bind_inv in Hrun. destruct Hrun as (self1 & n4 & Hmode & Hrun).
  apply bind_inv in Hrun. destruct Hrun as (self2 & n5 & Hcls & Hrun).
  apply ret_inv in Hrun. destruct Hrun as [-> _].
  exists d0, pe, network, n2, n3.
  do 3 (split; [assumption|]).
  pose proof (apply_cls_init_weights_head _ _ _ _ Hcls) as Hhead.
  assert (Hother : forall name, name <> "head" -> name <> "init_cfg" ->
            (<["init_cfg" := VNone]> self2 : gmap string Value) !! name
            = self1 !! name).
  { intros name H1 H2. rewrite lookup_insert_ne by congruence.
    apply (apply_cls_init_weights_other E name _ _ _ _ H1 Hcls). }
  assert (Hhd2 : (<["init_cfg" := VNone]> self2 : gmap string Value) !! "head"
                 = self2 !! "head")
    by (apply lookup_insert_ne; discriminate).
  destruct (fork_feat cfg); cbn [negb] in *.
  - apply lift_inv in Hmode. destruct Hmode as [Hmode _].
    assert (Hkeep : forall name,
              (forall i, norm_name i <> name) ->
              self1 !! name
              = (<["out_indices" := VIndices [0; 2; 4; 6]]>
                   (<["network" := VNetwork network]>
                      (<["patch_embed" := VPatchEmbed pe]>
                         (<["fork_feat" := VBool true]> ∅)))
                 : gmap string Value) !! name).
    { intros name Hname.
      apply (add_norms_other E cfg name Hname _ _ _ Hmode). }
    rewrite (Hkeep "head") in Hhead by norm_neq.
    rewrite Hhd2.
    rewrite !Hother by discriminate.
    rewrite (Hkeep "patch_embed"), (Hkeep "network"), (Hkeep "fork_feat"),
      (Hkeep "norm"), (Hkeep "num_classes"), (Hkeep "out_indices")
      by norm_neq.
    revert Hhead. attr. intros Hhead. auto 10.
  - apply bind_inv in Hmode. destruct Hmode as (dl & n6 & Hdl & Hmode).
    apply lift_inv in Hdl. destruct Hdl as [Hdl ->].
    apply bind_inv in Hmode. destruct Hmode as (head & n7 & Hhd & Hmode).
    apply ret_inv in Hmode. destruct Hmode as [-> _].
    rewrite Hhd2. rewrite !Hother by discriminate.
    assert (Hnorms : forall i,
              (<["init_cfg" := VNone]> self2 : gmap string Value)
                !! norm_name i = None).
    { intros i. destruct (norm_name_shape i) as (c & s & Hs). rewrite Hs.
      rewrite Hother by discriminate. attr. }
    revert Hhead. attr. intros Hhead.
    do 6 (split; [first [reflexivity | exact Hnorms]|]).
    destruct (0 <? num_classes cfg)%Z.
    + apply bind_inv in Hhd. destruct Hhd as (l & n8 & Hl & Hhd).
      apply ret_inv in Hhd. destruct Hhd as [-> _].
      destruct Hhead as (l' & Hl' & Hin & Hout & Hbias).
      apply Linear_init_inv in Hl. destruct Hl as [Hli Hlo].
      exists dl, (HLinear l'). do 3 (split; [first [assumption|reflexivity]|]).
      exists l'. split; [reflexivity|].
      rewrite Hin, Hout, Hbias, Hli, Hlo, Nat2Z.id. auto.
    + apply ret_inv in Hhd. destruct Hhd as [-> _].
      exists dl, HIdentity. do 3 (split; [first [assumption|reflexivity]|]).
      reflexivity.
Qed.

End Inversion.

(** ** Stochastic depth *)

Lemma Forall2_right_Forall {A B} (P : A -> B -> Prop) (Q : B -> Prop)
    (l : list A) (k : list B) :
  Forall2 P l k -> (forall x y, P x y -> Q y) -> Forall Q k.
Proof. induction 1; intros HPQ; constructor; eauto. Qed.

(** Every block of a constructed model came out of
    [PoolFormerBlock.__init__] with the rate that [basic_blocks] computed
    for it. *)
Lemma constructed_blocks (E : Env) (cfg : Config) (n n' : nat)
    (self : gmap string Value) :
  PoolFormer_init E cfg n = Ok (self, n') ->
  exists items,
    self !! "network" = Some (VNetwork items) /\
    Forall (Forall (fun blk =>
              exists d r j i rate m m',
                block_dpr (drop_path_rate cfg) j i (layers cfg) = Ok rate /\
                PoolFormerBlock_init E d (pool_size cfg) r (drop_rate cfg)
                  rate (cfg_use_layer_scale cfg) (layer_scale_init_value cfg)
                  m = Ok (blk, m')))
      (stages items).
Proof.
  intros Hinit.
  destruct (PoolFormer_init_inv E cfg n n' self Hinit)
    as (d0 & pe & items & n1 & n2 & _ & _ & Hnet & _ & Hattr & _).
  exists items. split; [exact Hattr|].
  apply (build_network_inv E cfg _ 0) in Hnet; [|reflexivity].
  eapply Forall2_right_Forall; [exact Hnet|].
  intros i blocks (d & r & m & m' & _ & _ & Hbb). cbn beta.
  apply basic_blocks_inv in Hbb. destruct Hbb as (c & _ & _ & Hblk).
  apply Forall_lookup_2. intros j blk Hj.
  destruct (Hblk j blk Hj) as (rate & k & k' & Hrate & Hb).
  eauto 12.
Qed.

Lemma block_dpr_zero (max_rate rate : Q) (j i : nat) (block_counts : list Z) :
  (max_rate == 0)%Q -> block_dpr max_rate j i block_counts = Ok rate ->
  drop_path_slot rate = DPIdentity.
Proof.
  intros Hz. unfold block_dpr, py_div.
  destruct (sumZ block_counts - 1 =? 0)%Z; [discriminate|].
  intros Heq. injection Heq as <-. unfold drop_path_slot.
  assert (Hle : Qle_bool
                  (max_rate
                   * inject_Z (Z.of_nat j + sumZ (firstn i block_counts))
                   / inject_Z (sumZ block_counts - 1)) 0 = true).
  { apply Qle_bool_iff. rewrite Hz. unfold Qdiv. rewrite !Qmult_0_l.
    apply Qle_refl. }
  rewrite Hle. reflexivity.
Qed.

(** X11. With [drop_path_rate = 0], the default, no block of a constructed
    model holds a [DropPath]: every [drop_path] is [nn.Identity()]. *)
Theorem X11_no_drop_path_at_rate_zero (E : Env) (cfg : Config) (n n' : nat)
    (self : gmap string Value) :
  PoolFormer_init E cfg n = Ok (self, n') ->
  (drop_path_rate cfg == 0)%Q ->
  exists items,
    self !! "network" = Some (VNetwork items) /\
    Forall (Forall (fun blk => drop_path blk = DPIdentity)) (stages items).
Proof.
  intros Hinit Hz.
  destruct (constructed_blocks E cfg n n' self Hinit) as (items & Hnet & Hall).
  exists items. split; [exact Hnet|].
  eapply Forall_impl; [exact Hall|]. intros blocks Hblocks. cbn beta.
  eapply Forall_impl; [exact Hblocks|].
  intros blk (d & r & j & i & rate & m & m' & Hrate & Hb). cbn beta.
  apply PoolFormerBlock_init_inv in Hb. destruct Hb as (_ & Hdp & _).
  rewrite Hdp. exact (block_dpr_zero _ _ _ _ _ Hz Hrate).
Qed.

(** PoolFormer-S12 at its defaults. *)
Lemma X11_no_drop_path_at_rate_zero_witness :
  exists self n0 items,
    PoolFormer_init env_train poolformer_s12 0 = Ok (self, n0) /\
    self !! "network" = Some (VNetwork items) /\
    Forall (Forall (fun blk => drop_path blk = DPIdentity)) (stages items).
Proof.
  assert (Hok : is_ok (PoolFormer_init env_train poolformer_s12 0) = true)
    by (vm_compute; reflexivity).
  destruct (PoolFormer_init env_train poolformer_s12 0) as [[self n0]|e] eqn:Hinit;
    [|discriminate].
  destruct (X11_no_drop_path_at_rate_zero env_train poolformer_s12 0 n0 self
              Hinit ltac:(reflexivity)) as (items & Hnet & Hall).
  exists self, n0, items. auto.
Defined.

(** X12. With [drop_rate = 0] and [drop_path_rate = 0], the defaults, the
    forward pass of a constructed model draws no random number in training
    either: it returns the same output, or raises the same exception, from
    every generator state, and leaves the generator where it was. *)
Theorem X12_zero_rates_forward_draws_nothing (E : Env) (cfg : Config)
    (n n' : nat) (self : gmap string Value) (x : Tensor) :
  PoolFormer_init E cfg n = Ok (self, n') ->
  (drop_rate cfg == 0)%Q -> (drop_path_rate cfg == 0)%Q ->
  (forall m o m', forward E self x m = Ok (o, m') ->
     m' = m /\ forall k, forward E self x k = Ok (o, k)) /\
  (forall m e, forward E self x m = Err e ->
     forall k, forward E self x k = Err e).
Proof.
  intros Hinit Hdr Hdpr.
  destruct (constructed_blocks E cfg n n' self Hinit) as (items & Hnet & Hall).
  assert (Hq : draws_nothing (forward E self x)).
  { apply forward_quiet. intros items' Hnet'.
    rewrite Hnet in Hnet'. inversion Hnet'; subst items'.
    unfold quiet_network.
    eapply Forall_impl; [exact Hall|]. intros blocks Hblocks. cbn beta.
    eapply Forall_impl; [exact Hblocks|].
    intros blk (d & r & j & i & rate & m & m' & Hrate & Hb). cbn beta.
    right. split.
    - apply PoolFormerBlock_init_inv in Hb. destruct Hb as (_ & Hdp & _).
      rewrite Hdp. exact (block_dpr_zero _ _ _ _ _ Hdpr Hrate).
    - apply PoolFormerBlock_init_dropout in Hb. rewrite Hb.
      apply Qeq_bool_iff, Hdr. }
  split.
  - intros m o m'. apply draws_nothing_state, Hq.
  - intros m e. apply draws_nothing_error, Hq.
Qed.

(** PoolFormer-S12 at its defaults, in training. *)
Lemma X12_zero_rates_forward_draws_nothing_witness :
  exists self n0,
    PoolFormer_init env_train poolformer_s12 0 = Ok (self, n0) /\
    forall m o m', forward env_train self (image 1 224 224) m = Ok (o, m') ->
      m' = m.
Proof.
  assert (Hok : is_ok (PoolFormer_init env_train poolformer_s12 0) = true)
    by (vm_compute; reflexivity).
  destruct (PoolFormer_init env_train poolformer_s12 0) as [[self n0]|e] eqn:Hinit;
    [|discriminate].
  exists self, n0. split; [reflexivity|]. intros m o m' Hrun.
  destruct (X12_zero_rates_forward_draws_nothing env_train poolformer_s12 0 n0
              self (image 1 224 224) Hinit ltac:(reflexivity)
              ltac:(reflexivity)) as [Hstate _].
  destruct (Hstate m o m' Hrun) as [Hm _]. exact Hm.
Defined.

(** ** The layout of the network *)

Lemma stage_sizes (E : Env) (cfg : Config) :
  forall k a (L : list (list PoolFormerBlock)),
    a + k = length (layers cfg) ->
    Forall2 (fun i blocks =>
               exists d r m m',
                 embed_dims cfg !! i = Some d /\
                 mlp_ratios cfg !! i = Some r /\
                 basic_blocks E d i (layers cfg) (pool_size cfg) r
                   (drop_rate cfg) (drop_path_rate cfg)
                   (cfg_use_layer_scale cfg) (layer_scale_init_value cfg) m
                 = Ok (blocks, m'))
      (seq a k) L ->
    map length L = map Z.to_nat (skipn a (layers cfg)).
Proof.
  induction k as [|k IH]; intros a L Hak HL; cbn [seq] in HL.
  - inversion HL; subst. rewrite drop_ge by lia. reflexivity.
  - inversion HL as [|i blocks s L' Hhead Htail]; subst.
    destruct Hhead as (d & r & m & m' & _ & _ & Hbb).
    apply basic_blocks_inv in Hbb. destruct Hbb as (c & Hc & Hlen & _).
    rewrite (drop_S _ _ _ Hc). cbn [map]. rewrite Hlen.
    f_equal. apply IH; [lia | exact Htail].
Qed.

(** X13. A constructed network has one stage per entry of [layers], in
    order, and stage [i] has [layers[i]] blocks (none for an entry below
    1). *)
Theorem X13_stage_sizes (E : Env) (cfg : Config) (n n' : nat)
    (self : gmap string Value) :
  PoolFormer_init E cfg n = Ok (self, n') ->
  exists items,
    self !! "network" = Some (VNetwork items) /\
    map length (stages items) = map Z.to_nat (layers cfg).
Proof.
  intros Hinit.
  destruct (PoolFormer_init_inv E cfg n n' self Hinit)
    as (d0 & pe & items & n1 & n2 & _ & _ & Hnet & _ & Hattr & _).
  exists items. split; [exact Hattr|].
  apply (build_network_inv E cfg _ 0) in Hnet; [|reflexivity].
  apply (stage_sizes E cfg _ 0 _ eq_refl Hnet).
Qed.

(** PoolFormer-S12: stages of 2, 2, 6 and 2 blocks. *)
Lemma X13_stage_sizes_witness :
  exists self n0 items,
    PoolFormer_init env0 poolformer_s12 0 = Ok (self, n0) /\
    self !! "network" = Some (VNetwork items) /\
    map length (stages items) = [2; 2; 6; 2].
Proof.
  assert (Hok : is_ok (PoolFormer_init env0 poolformer_s12 0) = true)
    by (vm_compute; reflexivity).
  destruct (PoolFormer_init env0 poolformer_s12 0) as [[self n0]|e] eqn:Hinit;
    [|discriminate].
  destruct (X13_stage_sizes env0 poolformer_s12 0 n0 self Hinit)
    as (items & Hnet & Hsizes).
  exists self, n0, items. auto.
Defined.

(** ** The two modes of a model *)

(** X14. The attributes of a constructed model depend on its mode.  A
    backbone ([fork_feat]) has [out_indices] but no [head], [norm] or
    [num_classes], so [get_classifier] raises the attribute error of
    [head]; a classifier has a [head] but no [out_indices] and no
    [norm{i}]. *)
Theorem X14_mode_attributes (E : Env) (cfg : Config) (n n' : nat)
    (self : gmap string Value) :
  PoolFormer_init E cfg n = Ok (self, n') ->
  (fork_feat cfg = true ->
   get_classifier self = Err (AttributeError "head") /\
   self !! "norm" = None /\ self !! "num_classes" = None /\
   self !! "out_indices" = Some (VIndices [0; 2; 4; 6])) /\
  (fork_feat cfg = false ->
   (exists h, get_classifier self = Ok (VHead h)) /\
   self !! "num_classes" = Some (VInt (num_classes cfg)) /\
   self !! "out_indices" = None /\
   forall i, self !! norm_name i = None).
Proof.
  intros Hinit.
  destruct (PoolFormer_init_inv E cfg n n' self Hinit)
    as (d0 & pe & items & n1 & n2 & _ & _ & _ & _ & _ & _ & Hmode).
  unfold get_classifier, getattr. split; intros Hfork; rewrite Hfork in Hmode.
  - destruct Hmode as (Hhead & Hnorm & Hnc & Hoi). rewrite Hhead. auto.
  - destruct Hmode as (Hoi & Hnorms & Hnc & dl & head & _ & _ & Hhead & _).
    rewrite Hhead. eauto 10.
Qed.

(** PoolFormer-S12 as a backbone. *)
Lemma X14_mode_attributes_witness :
  exists self n0,
    PoolFormer_init env0 poolformer_s12_feat 0 = Ok (self, n0) /\
    get_classifier self = Err (AttributeError "head").
Proof.
  assert (Hok : is_ok (PoolFormer_init env0 poolformer_s12_feat 0) = true)
    by (vm_compute; reflexivity).
  destruct (PoolFormer_init env0 poolformer_s12_feat 0) as [[self n0]|e]
    eqn:Hinit; [|discriminate].
  exists self, n0. split; [reflexivity|].
  destruct (X14_mode_attributes env0 poolformer_s12_feat 0 n0 self Hinit)
    as [Hfork _].
  destruct (Hfork eq_refl) as [Hget _]. exact Hget.
Defined.

(** X15. A failing [reset_classifier] is not without effect: called with
    [num_classes > 0] on a constructed model it leaves the object with the
    new [num_classes] and nothing else changed, so a classifier keeps its
    head for the old number of classes. *)
Theorem X15_failed_reset_keeps_head (E : Env) (cfg : Config) (n n' : nat)
    (self : gmap string Value) (nc : Z) (m : nat) :
  PoolFormer_init E cfg n = Ok (self, n') -> (0 < nc)%Z ->
  fst (reset_classifier E self nc m) = <["num_classes" := VInt nc]> self /\
  (fork_feat cfg = false -> (0 < num_classes cfg)%Z ->
   exists l,
     fst (reset_classifier E self nc m) !! "head" = Some (VHead (HLinear l)) /\
     out_features l = Z.to_nat (num_classes cfg)).
Proof.
  intros Hinit Hnc.
  assert (Hfst : fst (reset_classifier E self nc m)
                 = <["num_classes" := VInt nc]> self).
  { unfold reset_classifier, getattr.
    destruct (0 <? nc)%Z eqn:Hpos; [|apply Z.ltb_ge in Hpos; lia].
    rewrite lookup_insert_ne by discriminate.
    rewrite (PoolFormer_init_no_embed_dim E cfg n n' self Hinit).
    reflexivity. }
  split; [exact Hfst|]. intros Hfork Hold. rewrite Hfst.
  destruct (PoolFormer_init_inv E cfg n n' self Hinit)
    as (d0 & pe & items & n1 & n2 & _ & _ & _ & _ & _ & _ & Hmode).
  rewrite Hfork in Hmode.
  destruct Hmode as (_ & _ & _ & dl & head & _ & _ & Hhead & Hkind).
  destruct (0 <? num_classes cfg)%Z eqn:Hpos; [|apply Z.ltb_ge in Hpos; lia].
  destruct Hkind as (l & -> & _ & Hout & _).
  exists l. rewrite lookup_insert_ne by discriminate. auto.
Qed.

(** PoolFormer-S12 asked for 10 classes: [num_classes] is 10, the head
    still has 1000 outputs. *)
Lemma X15_failed_reset_keeps_head_witness :
  exists self n0 l,
    PoolFormer_init env0 poolformer_s12 0 = Ok (self, n0) /\
    fst (reset_classifier env0 self 10 n0) !! "num_classes"
    = Some (VInt 10) /\
    fst (reset_classifier env0 self 10 n0) !! "head"
    = Some (VHead (HLinear l)) /\
    out_features l = 1000.
Proof.
  assert (Hok : is_ok (PoolFormer_init env0 poolformer_s12 0) = true)
    by (vm_compute; reflexivity).
  destruct (PoolFormer_init env0 poolformer_s12 0) as [[self n0]|e]
    eqn:Hinit; [|discriminate].
  destruct (X15_failed_reset_keeps_head env0 poolformer_s12 0 n0 self 10 n0
              Hinit ltac:(lia)) as [Hfst Hhead].
  destruct (Hhead eq_refl ltac:(cbn; lia)) as (l & Hl & Hout).
  exists self, n0, l. split; [reflexivity|]. split.
  - rewrite Hfst. apply lookup_insert_eq.
  - split; [exact Hl | exact Hout].
Defined.

Section Features.

Variable E : Env.

Lemma bind_ext {A B} (c : M A) (k k' : A -> M B) (n : nat) :
  (forall a n1, k a n1 = k' a n1) -> bind c k n = bind c k' n.
Proof.
  intros Hk. unfold bind. destruct (c n) as [[a n1]|e]; [apply Hk|reflexivity].
Qed.

(** [forward_tokens] reads [fork_feat], [out_indices], [network] and the
    [norm{i}]. *)
Lemma tokens_loop_attrs (self self' : gmap string Value) :
  self' !! "fork_feat" = self !! "fork_feat" ->
  self' !! "out_indices" = self !! "out_indices" ->
  (forall i, self' !! norm_name i = self !! norm_name i) ->
  forall items x outs n,
    tokens_loop E self' items x outs n = tokens_loop E self items x outs n.
Proof.
  intros Hf Ho Hn. induction items as [|[idx block] rest IH];
    intros x outs n; cbn [tokens_loop]; [reflexivity|].
  unfold getattr. rewrite Hf, Ho, Hn.
  apply bind_ext; intros x' n1. apply bind_ext; intros fork n2.
  apply bind_ext; intros hit n3. apply bind_ext; intros outs' n4. apply IH.
Qed.

Lemma forward_tokens_attrs (self self' : gmap string Value) (x : Tensor)
    (n : nat) :
  self' !! "network" = self !! "network" ->
  self' !! "fork_feat" = self !! "fork_feat" ->
  self' !! "out_indices" = self !! "out_indices" ->
  (forall i, self' !! norm_name i = self !! norm_name i) ->
  forward_tokens E self' x n = forward_tokens E self x n.
Proof.
  intros Hnet Hf Ho Hn. unfold forward_tokens, getattr. rewrite Hnet, Hf.
  apply bind_ext; intros network n1.
  unfold bind at 1 3.
  rewrite (tokens_loop_attrs self self' Hf Ho Hn). reflexivity.
Qed.

End Features.

(** X16. Removing the classifier exposes the features it was applied to:
    whenever [forward] returns a tensor, [forward] after
    [reset_classifier(0)] returns, from the same generator state, a tensor of
    pooled features on which the old head gives the old output. *)
Theorem X16_reset_to_features (E : Env) (self : gmap string Value)
    (x logits : Tensor) (m m' k : nat) :
  forward E self x m = Ok (OTensor logits, m') ->
  exists h feats,
    get_classifier self = Ok (VHead h) /\
    snd (reset_classifier E self 0 k) = Ok k /\
    forward E (fst (reset_classifier E self 0 k)) x m
    = Ok (OTensor feats, m') /\
    Head_forward h feats = Ok logits.
Proof.
  intros Hrun.
  assert (Hreset : reset_classifier E self 0 k
                   = (<["head" := VHead HIdentity]>
                        (<["num_classes" := VInt 0]> self), Ok k))
    by reflexivity.
  rewrite Hreset. cbn [fst snd].
  set (self' := <["head" := VHead HIdentity]>
                  (<["num_classes" := VInt 0]> self) : gmap string Value).
  assert (Hsame : forall name, name <> "head" -> name <> "num_classes" ->
            self' !! name = self !! name).
  { intros name H1 H2. unfold self'.
    rewrite !lookup_insert_ne by congruence. reflexivity. }
  assert (Hnorms : forall i, self' !! norm_name i = self !! norm_name i).
  { intros i. destruct (norm_name_shape i) as (c & s & Hs). rewrite Hs.
    apply Hsame; discriminate. }
  unfold forward in Hrun.
  apply bind_inv in Hrun. destruct Hrun as (x0 & n1 & Hemb & Hrun).
  apply bind_inv in Hrun. destruct Hrun as (r & n2 & Htok & Hrun).
  apply bind_inv in Hrun. destruct Hrun as (fork & n3 & Hfork & Hrun).
  apply lift_inv in Hfork. destruct Hfork as [Hfork ->].
  destruct fork.
  { exfalso. apply ret_inv in Hrun. destruct Hrun as [Hr _]. subst r.
    unfold forward_tokens in Htok.
    apply bind_inv in Htok. destruct Htok as (nw & k1 & _ & Htok).
    apply bind_inv in Htok. destruct Htok as (r' & k2 & _ & Htok).
    apply bind_inv in Htok. destruct Htok as (fork' & k3 & Hfork' & Htok).
    apply lift_inv in Hfork'. destruct Hfork' as [Hfork' _].
    rewrite Hfork in Hfork'. inversion Hfork'; subst fork'.
    apply ret_inv in Htok. destruct Htok as [Htok _]. discriminate. }
  destruct r as [t|l]; [|discriminate].
  apply bind_inv in Hrun. destruct Hrun as (nl & k1 & Hnl & Hrun).
  apply lift_inv in Hnl. destruct Hnl as [Hnl ->].
  apply bind_inv in Hrun. destruct Hrun as (xn & k1 & Hxn & Hrun).
  apply lift_inv in Hxn. destruct Hxn as [Hxn ->].
  apply bind_inv in Hrun. destruct Hrun as (h & k1 & Hh & Hrun).
  apply lift_inv in Hh. destruct Hh as [Hh ->].
  apply bind_inv in Hrun. destruct Hrun as (feats & k1 & Hfeats & Hrun).
  apply lift_inv in Hfeats. destruct Hfeats as [Hfeats ->].
  apply bind_inv in Hrun. destruct Hrun as (out & k1 & Hout & Hrun).
  apply lift_inv in Hout. destruct Hout as [Hout ->].
  apply ret_inv in Hrun. destruct Hrun as [Hlog Hm].
  inversion Hlog; subst out m'.
  exists h, feats.
  assert (Hget : get_classifier self = Ok (VHead h)).
  { unfold get_classifier. unfold getattr in *.
    destruct (self !! "head") as [[]|]; try discriminate.
    cbn in Hh. congruence. }
  split; [exact Hget|]. split; [reflexivity|]. split; [|exact Hout].
  unfold forward.
  assert (Hemb' : forward_embeddings E self' x m = Ok (x0, n1)).
  { rewrite <- Hemb. unfold forward_embeddings, getattr.
    rewrite (Hsame "patch_embed") by discriminate. reflexivity. }
  rewrite (bind_ok _ _ _ _ _ Hemb').
  assert (Htok' : forward_tokens E self' x0 n1 = Ok (OTensor t, n2)).
  { rewrite <- Htok. apply forward_tokens_attrs;
      [apply Hsame; discriminate .. | exact Hnorms]. }
  rewrite (bind_ok _ _ _ _ _ Htok').
  assert (Hfork' : rbind (getattr self' "fork_feat") as_bool = Ok false).
  { rewrite <- Hfork. unfold getattr.
    rewrite (Hsame "fork_feat") by discriminate. reflexivity. }
  rewrite (bind_ok _ _ _ _ _ (lift_ok _ _ n2 Hfork')).
  assert (Hnl' : rbind (getattr self' "norm") as_norm = Ok nl).
  { rewrite <- Hnl. unfold getattr.
    rewrite (Hsame "norm") by discriminate. reflexivity. }
  rewrite (bind_ok _ _ _ _ _ (lift_ok _ _ n2 Hnl')).
  rewrite (bind_ok _ _ _ _ _ (lift_ok _ _ n2 Hxn)).
  assert (Hh' : rbind (getattr self' "head") as_head = Ok HIdentity).
  { unfold getattr, self'. rewrite lookup_insert_eq. reflexivity. }
  rewrite (bind_ok _ _ _ _ _ (lift_ok _ _ n2 Hh')).
  rewrite (bind_ok _ _ _ _ _ (lift_ok _ _ n2 Hfeats)).
  reflexivity.
Qed.

(** PoolFormer-S12: the 1000 logits are the head applied to the 512 pooled
    features. *)
Lemma X16_reset_to_features_witness :
  exists self n0 logits m' h feats,
    PoolFormer_init env0 poolformer_s12 0 = Ok (self, n0) /\
    forward env0 self (image 1 224 224) 0 = Ok (OTensor logits, m') /\
    get_classifier self = Ok (VHead h) /\
    forward env0 (fst (reset_classifier env0 self 0 n0)) (image 1 224 224) 0
    = Ok (OTensor feats, m') /\
    Head_forward h feats = Ok logits.
Proof.
  assert (Hok : match PoolFormer_init env0 poolformer_s12 0 with
                | Ok (self, _) =>
                    returns_tensor (forward env0 self (image 1 224 224) 0)
                | Err _ => false
                end = true)
    by (vm_compute; reflexivity).
  destruct (PoolFormer_init env0 poolformer_s12 0) as [[self n0]|e];
    [|discriminate].
  destruct (forward env0 self (image 1 224 224) 0) as [[[logits|l] m']|e]
    eqn:Hrun; try discriminate.
  destruct (X16_reset_to_features env0 self (image 1 224 224) logits 0 m' n0
              Hrun) as (h & feats & Hget & _ & Hfeat & Hhead).
  exists self, n0, logits, m', h, feats. auto 10.
Defined.

(** ** Inputs and the fresh head *)

(** X17. A constructed model rejects an input that its stem cannot take:
    with a channel count other than 3, or smaller than the patch after
    padding, [forward] raises the runtime error of the convolution. *)
Theorem X17_forward_rejects_input (E : Env) (cfg : Config) (n n' : nat)
    (self : gmap string Value) (x : Tensor) (B C H W m : nat) :
  PoolFormer_init E cfg n = Ok (self, n') ->
  tshape x = [B; C; H; W] ->
  C <> 3 \/ H + 2 * in_pad cfg < in_patch_size cfg
  \/ W + 2 * in_pad cfg < in_patch_size cfg ->
  forward E self x m = Err RuntimeError.
Proof.
  intros Hinit Hx Hbad.
  destruct (PoolFormer_init_inv E cfg n n' self Hinit)
    as (d0 & pe & items & n1 & n2 & _ & Hpe & _ & Hattr & _).
  unfold PatchEmbed_init in Hpe.
  apply bind_inv in Hpe. destruct Hpe as (c & k1 & Hc & Hpe).
  apply ret_inv in Hpe. destruct Hpe as [-> _].
  apply Conv2d_init_inv in Hc.
  destruct Hc as (Hin & _ & Hk & _ & Hp & _).
  unfold forward. apply bind_err. unfold forward_embeddings, getattr.
  rewrite Hattr. cbn [rbind as_patch_embed].
  rewrite (bind_ok _ _ m m _ eq_refl).
  unfold PatchEmbed_forward, Conv2d_forward. cbn [proj pe_norm].
  rewrite Hx. cbv zeta. rewrite Hin, Hk, Hp.
  assert (Hchk : (negb (C =? Z.to_nat 3) || (stride c =? 0)
                  || (in_patch_size cfg =? 0)
                  || (H + 2 * in_pad cfg <? in_patch_size cfg)
                  || (W + 2 * in_pad cfg <? in_patch_size cfg))%bool = true).
  { destruct Hbad as [HC|[HH|HW]].
    - apply Nat.eqb_neq in HC. change (Z.to_nat 3) with 3. rewrite HC.
      reflexivity.
    - apply Nat.ltb_lt in HH. rewrite HH. rewrite orb_true_r. reflexivity.
    - apply Nat.ltb_lt in HW. rewrite HW. apply orb_true_r. }
  rewrite Hchk. reflexivity.
Qed.

(** PoolFormer-S12 on a one-channel image. *)
Lemma X17_forward_rejects_input_witness :
  exists self n0,
    PoolFormer_init env0 poolformer_s12 0 = Ok (self, n0) /\
    forward env0 self (mkTensor [1; 1; 224; 224] (fun _ => 1%Q)) 0
    = Err RuntimeError.
Proof.
  assert (Hok : is_ok (PoolFormer_init env0 poolformer_s12 0) = true)
    by (vm_compute; reflexivity).
  destruct (PoolFormer_init env0 poolformer_s12 0) as [[self n0]|e]
    eqn:Hinit; [|discriminate].
  exists self, n0. split; [reflexivity|].
  apply (X17_forward_rejects_input env0 poolformer_s12 0 n0 self
           (mkTensor [1; 1; 224; 224] (fun _ => 1%Q)) 1 1 224 224 0 Hinit
           eq_refl).
  left. discriminate.
Defined.

(** X18. The head of a freshly constructed classifier is a linear layer
    from the last embedding width to [num_classes] whose bias is zero: on
    features of shape [[B; d]] its output at [(b, o)] is
    [sum_i x[b, i] * weight[o, i]]. *)
Theorem X18_fresh_head_has_zero_bias (E : Env) (cfg : Config) (n n' : nat)
    (self : gmap string Value) :
  PoolFormer_init E cfg n = Ok (self, n') ->
  fork_feat cfg = false -> (0 < num_classes cfg)%Z ->
  exists d l,
    getitem_last (embed_dims cfg) = Ok d /\
    get_classifier self = Ok (VHead (HLinear l)) /\
    in_features l = d /\ out_features l = Z.to_nat (num_classes cfg) /\
    forall x B, tshape x = [B; d] ->
      exists y,
        Linear_forward l x = Ok y /\
        tshape y = [B; Z.to_nat (num_classes cfg)] /\
        forall b o,
          (tdata y [b; o]
           == sumn d (fun i => tdata x [b; i] * tdata (lin_weight l) [o; i]))%Q.
Proof.
  intros Hinit Hfork Hnc.
  destruct (PoolFormer_init_inv E cfg n n' self Hinit)
    as (d0 & pe & items & n1 & n2 & _ & _ & _ & _ & _ & _ & Hmode).
  rewrite Hfork in Hmode.
  destruct Hmode as (_ & _ & _ & dl & head & Hdl & _ & Hhead & Hkind).
  destruct (0 <? num_classes cfg)%Z eqn:Hpos; [|apply Z.ltb_ge in Hpos; lia].
  destruct Hkind as (l & -> & Hin & Hout & Hbias).
  exists dl, l. split; [exact Hdl|]. split.
  { unfold get_classifier, getattr. rewrite Hhead. reflexivity. }
  split; [exact Hin|]. split; [exact Hout|].
  intros x B Hx. unfold Linear_forward. rewrite Hx, Hin, Nat.eqb_refl.
  eexists. split; [reflexivity|]. split; [rewrite Hout; reflexivity|].
  intros b o. cbn [tdata]. rewrite Hbias. cbn [zeros tdata]. ring.
Qed.

(** PoolFormer-S12: 512 features, 1000 classes. *)
Lemma X18_fresh_head_has_zero_bias_witness :
  exists self n0 l,
    PoolFormer_init env0 poolformer_s12 0 = Ok (self, n0) /\
    get_classifier self = Ok (VHead (HLinear l)) /\
    in_features l = 512 /\ out_features l = 1000.
Proof.
  assert (Hok : is_ok (PoolFormer_init env0 poolformer_s12 0) = true)
    by (vm_compute; reflexivity).
  destruct (PoolFormer_init env0 poolformer_s12 0) as [[self n0]|e]
    eqn:Hinit; [|discriminate].
  destruct (X18_fresh_head_has_zero_bias env0 poolformer_s12 0 n0 self Hinit
              eq_refl ltac:(cbn; lia))
    as (d & l & Hd & Hget & Hin & Hout & _).
  exists self, n0, l. split; [reflexivity|]. split; [exact Hget|].
  vm_compute in Hd. injection Hd as Hd.
  split; [rewrite Hin, <- Hd; reflexivity | exact Hout].
Defined.

(** ** The feature pyramid on any image *)




(** ** Layer scale at zero *)

Section ZeroScale.

Variable E : Env.


End ZeroScale.



(** ** A backbone with fewer than four stages *)




(** ** Samples of a batch do not interact *)

Lemma rel_result_refl {A} (r : Result A) : rel_result eq r r.
Proof. destruct r; reflexivity. Qed.

Lemma rel_result_rbind {A B} (R : A -> A -> Prop) (S : B -> B -> Prop)
    (r r' : Result A) (k k' : A -> Result B) :
  rel_result R r r' ->
  (forall a a', R a a' -> rel_result S (k a) (k' a')) ->
  rel_result S (rbind r k) (rbind r' k').
Proof.
  destruct r as [a|e], r' as [a'|e']; cbn; intros Hr Hk;
    [apply Hk, Hr | contradiction | contradiction | exact Hr].
Qed.

Lemma rel_M_ret {A} (R : A -> A -> Prop) (a a' : A) :
  R a a' -> rel_M R (ret a) (ret a').
Proof. intros Ha n. cbn. auto. Qed.

Lemma rel_M_lift {A} (R : A -> A -> Prop) (r r' : Result A) :
  rel_result R r r' -> rel_M R (lift r) (lift r').
Proof.
  intros Hr n. unfold lift. destruct r as [a|e], r' as [a'|e']; cbn in *; auto.
Qed.

Lemma rel_M_bind {A B} (R : A -> A -> Prop) (S : B -> B -> Prop)
    (c c' : M A) (k k' : A -> M B) :
  rel_M R c c' ->
  (forall a a', R a a' -> rel_M S (k a) (k' a')) ->
  rel_M S (bind c k) (bind c' k').
Proof.
  intros Hc Hk n. unfold bind. specialize (Hc n).
  destruct (c n) as [[a n1]|e], (c' n) as [[a' n1']|e']; cbn in Hc;
    try contradiction.
  - destruct Hc as [Ha <-]. apply Hk, Ha.
  - exact Hc.
Qed.

Lemma rel_M_bind_same {A B} (S : B -> B -> Prop) (r : Result A)
    (k k' : A -> M B) :
  (forall a, rel_M S (k a) (k' a)) ->
  rel_M S (bind (lift r) k) (bind (lift r) k').
Proof.
  intros Hk. apply (rel_M_bind eq); [apply rel_M_lift, rel_result_refl|].
  intros a a' <-. apply Hk.
Qed.

Lemma same_sample_refl (b : nat) (x : Tensor) : same_sample b x x.
Proof. split; reflexivity. Qed.

Lemma avg_pool_at_ext (m : AvgPool2d) (H W : nat) (f g : nat -> nat -> Q)
    (oh ow : nat) :
  (forall a a', (f a a' == g a a')%Q) ->
  (avg_pool_at m H W f oh ow == avg_pool_at m H W g oh ow)%Q.
Proof.
  intros Hfg. unfold avg_pool_at.
  destruct (pool_window oh H _ _ _) as [[hs he] hl].
  destruct (pool_window ow W _ _ _) as [[ws we] wl].
  destruct ((he <=? hs)%Z || (we <=? ws)%Z)%bool; [reflexivity|].
  apply Qdiv_comp; [|reflexivity]. unfold sum_range.
  apply sumn_ext; intros u _. apply sumn_ext; intros v _. apply Hfg.
Qed.

Ltac idx_cases rest :=
  destruct rest as [|? [|? [|? [|? ?]]]]; cbn [tdata]; try reflexivity.

Section Samples.

Variable E : Env.
Hypothesis Hsqrt : Proper (Qeq ==> Qeq) (sqrt E).
Hypothesis Hgelu : Proper (Qeq ==> Qeq) (gelu E).
Variable b : nat.

Lemma tzip_sample (op : Q -> Q -> Q) (x x' y y' : Tensor) :
  Proper (Qeq ==> Qeq ==> Qeq) op ->
  same_sample b x x' -> same_sample b y y' ->
  rel_result (same_sample b) (tzip op x y) (tzip op x' y').
Proof.
  intros Hop [Hsx Hdx] [Hsy Hdy]. unfold tzip. rewrite <- Hsx, <- Hsy.
  destruct (bool_decide (tshape x = tshape y)); [|reflexivity].
  split; [reflexivity|]. intros rest. cbn [tdata]. apply Hop; auto.
Qed.

Lemma scale_channels_sample (v x x' : Tensor) :
  same_sample b x x' ->
  rel_result (same_sample b) (scale_channels v x) (scale_channels v x').
Proof.
  intros [Hs Hd]. unfold scale_channels. rewrite <- Hs.
  destruct (tshape v) as [|C' [|? ?]]; try reflexivity.
  destruct (tshape x) as [|B [|C [|H [|W [|? ?]]]]]; try reflexivity.
  destruct (C' =? C); [|reflexivity].
  split; [reflexivity|]. intros rest. idx_cases rest.
  rewrite Hd. reflexivity.
Qed.

Lemma AvgPool2d_forward_sample (m : AvgPool2d) (x x' : Tensor) :
  same_sample b x x' ->
  rel_result (same_sample b) (AvgPool2d_forward m x) (AvgPool2d_forward m x').
Proof.
  intros [Hs Hd]. unfold AvgPool2d_forward. rewrite <- Hs.
  destruct (tshape x) as [|B [|C [|H [|W [|? ?]]]]]; try reflexivity.
  cbv zeta.
  match goal with |- context [if ?c then Err _ else _] => destruct c end;
    [reflexivity|].
  split; [reflexivity|]. intros rest. idx_cases rest.
  apply avg_pool_at_ext. intros a a'. apply Hd.
Qed.

Lemma Pooling_forward_sample (m : Pooling) (x x' : Tensor) :
  same_sample b x x' ->
  rel_result (same_sample b) (Pooling_forward m x) (Pooling_forward m x').
Proof.
  intros Hx. unfold Pooling_forward.
  apply (rel_result_rbind (same_sample b));
    [apply AvgPool2d_forward_sample, Hx|].
  intros y y' Hy. apply tzip_sample; [apply Qminus_comp | exact Hy | exact Hx].
Qed.

Lemma Conv2d_forward_sample (m : Conv2d) (x x' : Tensor) :
  same_sample b x x' ->
  rel_result (same_sample b) (Conv2d_forward m x) (Conv2d_forward m x').
Proof.
  intros [Hs Hd]. unfold Conv2d_forward. rewrite <- Hs.
  destruct (tshape x) as [|B [|C [|H [|W [|? ?]]]]]; try reflexivity.
  cbv zeta.
  match goal with |- context [if ?c then Err _ else _] => destruct c end;
    [reflexivity|].
  split; [reflexivity|]. intros rest. idx_cases rest.
  apply Qplus_comp; [reflexivity|]. apply sum3_ext. intros c u v _ _ _.
  apply Qmult_comp; [reflexivity|]. unfold padded.
  match goal with |- context [if ?c then _ else _] => destruct c end;
    [apply Hd | reflexivity].
Qed.

Lemma group_mean_sample (x x' : Tensor) (cg H W g : nat) :
  (forall rest, (tdata x (b :: rest) == tdata x' (b :: rest))%Q) ->
  (group_mean x cg H W b g == group_mean x' cg H W b g)%Q.
Proof.
  intros Hd. unfold group_mean. apply Qdiv_comp; [|reflexivity].
  apply sum3_ext. intros t h w _ _ _. apply Hd.
Qed.

Lemma group_var_sample (x x' : Tensor) (cg H W g : nat) :
  (forall rest, (tdata x (b :: rest) == tdata x' (b :: rest))%Q) ->
  (group_var x cg H W b g == group_var x' cg H W b g)%Q.
Proof.
  intros Hd. unfold group_var. apply Qdiv_comp; [|reflexivity].
  apply sum3_ext. intros t h w _ _ _.
  rewrite (Hd [(g * cg + t)%nat; h; w]), (group_mean_sample x x' cg H W g Hd).
  reflexivity.
Qed.

Lemma GroupNorm_forward_sample (m : GroupNorm) (x x' : Tensor) :
  same_sample b x x' ->
  rel_result (same_sample b) (GroupNorm_forward E m x)
    (GroupNorm_forward E m x').
Proof.
  intros [Hs Hd]. unfold GroupNorm_forward. rewrite <- Hs.
  destruct (tshape x) as [|B [|C [|H [|W [|? ?]]]]]; try reflexivity.
  match goal with |- context [if ?c then Err _ else _] => destruct c end;
    [reflexivity|].
  split; [reflexivity|]. intros rest. idx_cases rest.
  assert (Hv : (sqrt E (group_var x (C / num_groups m) H W b
                          (n / (C / num_groups m)) + eps m)
                == sqrt E (group_var x' (C / num_groups m) H W b
                             (n / (C / num_groups m)) + eps m))%Q).
  { apply Hsqrt. rewrite (group_var_sample x x' _ H W _ Hd). reflexivity. }
  rewrite Hv, (group_mean_sample x x' _ H W _ Hd), (Hd [n; n0; n1]).
  reflexivity.
Qed.

Lemma NormLayer_forward_sample (m : NormLayer) (x x' : Tensor) :
  same_sample b x x' ->
  rel_result (same_sample b) (NormLayer_forward E m x)
    (NormLayer_forward E m x').
Proof.
  intros Hx. destruct m as [|g]; cbn [NormLayer_forward];
    [exact Hx | apply GroupNorm_forward_sample, Hx].
Qed.

Lemma Dropout_forward_sample (d : Dropout) (x x' : Tensor) :
  same_sample b x x' ->
  rel_M (same_sample b) (Dropout_forward E d x) (Dropout_forward E d x').
Proof.
  intros [Hs Hd]. unfold Dropout_forward.
  destruct (training E && negb (Qeq_bool (dropout_p d) 0))%bool;
    [|apply rel_M_ret; split; assumption].
  intros n. cbn. split; [|reflexivity]. split; [exact Hs|].
  intros rest. cbn [tdata].
  destruct (Qeq_bool (dropout_p d) 1); [reflexivity|].
  destruct (Qle_bool _ _); [reflexivity|]. rewrite Hd. reflexivity.
Qed.

Lemma DropPathSlot_forward_sample (s : DropPathSlot) (x x' : Tensor) :
  same_sample b x x' ->
  rel_M (same_sample b) (DropPathSlot_forward E s x)
    (DropPathSlot_forward E s x').
Proof.
  intros [Hs Hd]. destruct s as [|p]; cbn [DropPathSlot_forward];
    [apply rel_M_ret; split; assumption|].
  unfold DropPath_forward.
  destruct (Qeq_bool p 0 || negb (training E))%bool;
    [apply rel_M_ret; split; assumption|].
  intros n. cbn. split; [|reflexivity]. split; [exact Hs|].
  intros rest. cbn [tdata]. rewrite Hd. reflexivity.
Qed.

Lemma act_sample (x x' : Tensor) :
  same_sample b x x' -> same_sample b (act E x) (act E x').
Proof.
  intros [Hs Hd]. split; [exact Hs|]. intros rest. cbn [act tdata].
  apply Hgelu, Hd.
Qed.

Lemma Mlp_forward_sample (m : Mlp) (x x' : Tensor) :
  same_sample b x x' ->
  rel_M (same_sample b) (Mlp_forward E m x) (Mlp_forward E m x').
Proof.
  intros Hx. unfold Mlp_forward.
  apply (rel_M_bind (same_sample b));
    [apply rel_M_lift, Conv2d_forward_sample, Hx|].
  intros y y' Hy. apply (rel_M_bind (same_sample b));
    [apply Dropout_forward_sample, act_sample, Hy|].
  intros z z' Hz. apply (rel_M_bind (same_sample b));
    [apply rel_M_lift, Conv2d_forward_sample, Hz|].
  intros u u' Hu. apply (rel_M_bind (same_sample b));
    [apply Dropout_forward_sample, Hu|].
  intros v v' Hv. apply rel_M_ret, Hv.
Qed.

Lemma tadd_sample (x x' y y' : Tensor) :
  same_sample b x x' -> same_sample b y y' ->
  rel_result (same_sample b) (tadd x y) (tadd x' y').
Proof. apply tzip_sample, Qplus_comp. Qed.

Lemma PoolFormerBlock_forward_sample (m : PoolFormerBlock) (x x' : Tensor) :
  same_sample b x x' ->
  rel_M (same_sample b) (PoolFormerBlock_forward E m x)
    (PoolFormerBlock_forward E m x').
Proof.
  intros Hx. unfold PoolFormerBlock_forward. destruct (use_layer_scale m).
  - apply rel_M_bind_same. intros ls1.
    apply (rel_M_bind (same_sample b));
      [apply rel_M_lift, NormLayer_forward_sample, Hx|].
    intros n1 n1' Hn1. apply (rel_M_bind (same_sample b));
      [apply rel_M_lift, Pooling_forward_sample, Hn1|].
    intros t t' Ht. apply (rel_M_bind (same_sample b));
      [apply rel_M_lift, scale_channels_sample, Ht|].
    intros s s' Hs. apply (rel_M_bind (same_sample b));
      [apply DropPathSlot_forward_sample, Hs|].
    intros d d' Hd. apply (rel_M_bind (same_sample b));
      [apply rel_M_lift, tadd_sample; assumption|].
    intros x1 x1' Hx1. apply rel_M_bind_same. intros ls2.
    apply (rel_M_bind (same_sample b));
      [apply rel_M_lift, NormLayer_forward_sample, Hx1|].
    intros n2 n2' Hn2. apply (rel_M_bind (same_sample b));
      [apply Mlp_forward_sample, Hn2|].
    intros t2 t2' Ht2. apply (rel_M_bind (same_sample b));
      [apply rel_M_lift, scale_channels_sample, Ht2|].
    intros s2 s2' Hs2. apply (rel_M_bind (same_sample b));
      [apply DropPathSlot_forward_sample, Hs2|].
    intros d2 d2' Hd2. apply (rel_M_bind (same_sample b));
      [apply rel_M_lift, tadd_sample; assumption|].
    intros x2 x2' Hx2. apply rel_M_ret, Hx2.
  - apply (rel_M_bind (same_sample b));
      [apply rel_M_lift, NormLayer_forward_sample, Hx|].
    intros n1 n1' Hn1. apply (rel_M_bind (same_sample b));
      [apply rel_M_lift, Pooling_forward_sample, Hn1|].
    intros t t' Ht. apply (rel_M_bind (same_sample b));
      [apply DropPathSlot_forward_sample, Ht|].
    intros d d' Hd. apply (rel_M_bind (same_sample b));
      [apply rel_M_lift, tadd_sample; assumption|].
    intros x1 x1' Hx1.
    apply (rel_M_bind (same_sample b));
      [apply rel_M_lift, NormLayer_forward_sample, Hx1|].
    intros n2 n2' Hn2. apply (rel_M_bind (same_sample b));
      [apply Mlp_forward_sample, Hn2|].
    intros t2 t2' Ht2. apply (rel_M_bind (same_sample b));
      [apply DropPathSlot_forward_sample, Ht2|].
    intros d2 d2' Hd2. apply (rel_M_bind (same_sample b));
      [apply rel_M_lift, tadd_sample; assumption|].
    intros x2 x2' Hx2. apply rel_M_ret, Hx2.
Qed.

Lemma Sequential_forward_sample (blocks : list PoolFormerBlock) :
  forall x x', same_sample b x x' ->
    rel_M (same_sample b) (Sequential_forward E blocks x)
      (Sequential_forward E blocks x').
Proof.
  induction blocks as [|blk rest IH]; intros x x' Hx;
    cbn [Sequential_forward].
  - apply rel_M_ret, Hx.
  - apply (rel_M_bind (same_sample b));
      [apply PoolFormerBlock_forward_sample, Hx | exact IH].
Qed.

Lemma NetItem_forward_sample (m : NetItem) (x x' : Tensor) :
  same_sample b x x' ->
  rel_M (same_sample b) (NetItem_forward E m x) (NetItem_forward E m x').
Proof.
  intros Hx. destruct m as [blocks|pe]; cbn [NetItem_forward].
  - apply Sequential_forward_sample, Hx.
  - apply rel_M_lift. unfold PatchEmbed_forward.
    apply (rel_result_rbind (same_sample b));
      [apply Conv2d_forward_sample, Hx|].
    intros y y' Hy. apply NormLayer_forward_sample, Hy.
Qed.

Lemma tokens_loop_sample (self : gmap string Value) :
  forall (items : list (nat * NetItem)) x x' outs outs',
    same_sample b x x' -> Forall2 (same_sample b) outs outs' ->
    rel_M (fun p p' => same_sample b (fst p) (fst p') /\
                       Forall2 (same_sample b) (snd p) (snd p'))
      (tokens_loop E self items x outs) (tokens_loop E self items x' outs').
Proof.
  induction items as [|[idx block] rest IH]; intros x x' outs outs' Hx Houts;
    cbn [tokens_loop].
  - apply rel_M_ret. auto.
  - apply (rel_M_bind (same_sample b));
      [apply NetItem_forward_sample, Hx|].
    intros y y' Hy. apply rel_M_bind_same. intros fork.
    apply (rel_M_bind eq).
    { destruct fork; [|apply rel_M_ret; reflexivity].
      apply rel_M_bind_same. intros oi. apply rel_M_ret. reflexivity. }
    intros hit hit' <-.
    apply (rel_M_bind (Forall2 (same_sample b))).
    { destruct hit; [|apply rel_M_ret, Houts].
      apply rel_M_bind_same. intros nl.
      apply (rel_M_bind (same_sample b));
        [apply rel_M_lift, NormLayer_forward_sample, Hy|].
      intros o o' Ho. apply rel_M_ret.
      apply Forall2_app; [exact Houts | constructor; [exact Ho | constructor]]. }
    intros outs1 outs1' Houts1. apply IH; assumption.
Qed.

Lemma mean_spatial_sample (x x' : Tensor) :
  same_sample b x x' ->
  rel_result (same_sample b) (mean_spatial x) (mean_spatial x').
Proof.
  intros [Hs Hd]. unfold mean_spatial. rewrite <- Hs.
  destruct (tshape x) as [|B [|C [|H [|W [|? ?]]]]]; try reflexivity.
  split; [reflexivity|]. intros rest.
  destruct rest as [|c [|? ?]]; cbn [tdata]; try reflexivity.
  apply Qdiv_comp; [|reflexivity].
  apply sumn_ext; intros h _. apply sumn_ext; intros w _. apply Hd.
Qed.

Lemma Head_forward_sample (h : Head) (x x' : Tensor) :
  same_sample b x x' ->
  rel_result (same_sample b) (Head_forward h x) (Head_forward h x').
Proof.
  intros [Hs Hd]. destruct h as [l|]; cbn [Head_forward];
    [|split; assumption].
  unfold Linear_forward. rewrite <- Hs.
  destruct (tshape x) as [|B [|C [|? ?]]]; try reflexivity.
  destruct (C =? in_features l); [|reflexivity].
  split; [reflexivity|]. intros rest.
  destruct rest as [|o [|? ?]]; cbn [tdata]; try reflexivity.
  apply Qplus_comp; [|reflexivity]. apply sumn_ext; intros i _.
  apply Qmult_comp; [apply Hd | reflexivity].
Qed.

Lemma forward_sample (self : gmap string Value) (x x' : Tensor) :
  same_sample b x x' ->
  rel_M (same_output b) (forward E self x) (forward E self x').
Proof.
  intros Hx. unfold forward.
  apply (rel_M_bind (same_sample b)).
  { unfold forward_embeddings. apply rel_M_bind_same. intros pe.
    apply rel_M_lift. unfold PatchEmbed_forward.
    apply (rel_result_rbind (same_sample b));
      [apply Conv2d_forward_sample, Hx|].
    intros y y' Hy. apply NormLayer_forward_sample, Hy. }
  intros x0 x0' Hx0.
  apply (rel_M_bind (same_output b)).
  { unfold forward_tokens. apply rel_M_bind_same. intros network.
    apply (rel_M_bind
             (fun p p' => same_sample b (fst p) (fst p') /\
                          Forall2 (same_sample b) (snd p) (snd p')));
      [apply tokens_loop_sample; [exact Hx0 | constructor]|].
    intros r r' [Hr1 Hr2]. apply rel_M_bind_same. intros fork.
    destruct fork; apply rel_M_ret; assumption. }
  intros r r' Hr. apply rel_M_bind_same. intros fork.
  destruct fork; [apply rel_M_ret, Hr|].
  destruct r as [t|l], r' as [t'|l']; cbn in Hr; try contradiction.
  - apply rel_M_bind_same. intros nl.
    apply (rel_M_bind (same_sample b));
      [apply rel_M_lift, NormLayer_forward_sample, Hr|].
    intros xn xn' Hxn. apply rel_M_bind_same. intros h.
    apply (rel_M_bind (same_sample b));
      [apply rel_M_lift, mean_spatial_sample, Hxn|].
    intros mm mm' Hmm.
    apply (rel_M_bind (same_sample b));
      [apply rel_M_lift, Head_forward_sample, Hmm|].
    intros o o' Ho. apply rel_M_ret. exact Ho.
  - intros n. reflexivity.
Qed.

End Samples.

(** X22. The samples of a batch do not interact: run from one generator
    state on two batches of one shape that agree on sample [b], [forward]
    fails with the same exception on both or returns outputs that agree on
    sample [b], and the same new state.  This holds for every object and in
    training as well; [sqrt] and [gelu] are any functions on the
    rationals. *)
Theorem X22_forward_sample_independent (E : Env) (self : gmap string Value)
    (x x' : Tensor) (b : nat) :
  Proper (Qeq ==> Qeq) (sqrt E) -> Proper (Qeq ==> Qeq) (gelu E) ->
  same_sample b x x' ->
  (forall n o k, forward E self x n = Ok (o, k) ->
     exists o', forward E self x' n = Ok (o', k) /\ same_output b o o') /\
  (forall n e, forward E self x n = Err e -> forward E self x' n = Err e).
Proof.
  intros Hsqrt Hgelu Hx.
  pose proof (forward_sample E Hsqrt Hgelu b self x x' Hx) as Hrel.
  split.
  - intros n o k Hrun. specialize (Hrel n). rewrite Hrun in Hrel.
    destruct (forward E self x' n) as [[o' k']|e']; cbn in Hrel;
      [|contradiction].
    destruct Hrel as [Ho <-]. eauto.
  - intros n e Hrun. specialize (Hrel n). rewrite Hrun in Hrel.
    destruct (forward E self x' n) as [[o' k']|e']; cbn in Hrel;
      [contradiction | congruence].
Qed.

(** PoolFormer-S12 on two batches of two images with the same first
    image. *)
Lemma X22_forward_sample_independent_witness :
  let x' := mkTensor [2; 3; 224; 224]
              (fun idx => match idx with
                          | 0 :: _ => 1%Q
                          | _ => 5%Q
                          end) in
  exists self n0,
    PoolFormer_init env0 poolformer_s12 0 = Ok (self, n0) /\
    forall n o k, forward env0 self (image 2 224 224) n = Ok (o, k) ->
      exists o', forward env0 self x' n = Ok (o', k) /\ same_output 0 o o'.
Proof.
  intros x'.
  assert (Hok : is_ok (PoolFormer_init env0 poolformer_s12 0) = true)
    by (vm_compute; reflexivity).
  destruct (PoolFormer_init env0 poolformer_s12 0) as [[self n0]|e0];
    [|discriminate].
  exists self, n0. split; [reflexivity|].
  apply (X22_forward_sample_independent env0 self (image 2 224 224) x' 0).
  - intros p q Hpq. exact Hpq.
  - intros p q Hpq. exact Hpq.
  - split; [reflexivity|]. intros rest. reflexivity.
Defined.

(** ** Stochastic depth in training *)


Section Dropped.

Variable E : Env.
Hypothesis Htrain : training E = true.



End Dropped.



(** ** How many feature maps a backbone returns *)

Section Maps.

Variable E : Env.

(** The loop appends one output per position listed in [out_indices]. *)
Lemma tokens_loop_count (self : gmap string Value) (oi : list nat) :
  self !! "fork_feat" = Some (VBool true) ->
  self !! "out_indices" = Some (VIndices oi) ->
  forall items x outs n y outs' n',
    tokens_loop E self items x outs n = Ok ((y, outs'), n') ->
    length outs'
    = length outs
      + length (List.filter (fun p => listed oi (fst p)) items).
Proof.
  intros Hff Hoi. induction items as [|[idx block] rest IH];
    intros x outs n y outs' n' Hrun; cbn [tokens_loop] in Hrun.
  - apply ret_inv in Hrun. destruct Hrun as [Heq _].
    inversion Heq; subst. cbn. lia.
  - unfold getattr in Hrun. rewrite Hff, Hoi in Hrun.
    cbn [rbind as_bool as_indices] in Hrun.
    apply bind_inv in Hrun. destruct Hrun as (x1 & n1 & _ & Hrun).
    rewrite (bind_ok _ _ n1 n1 true eq_refl) in Hrun.
    rewrite bind_assoc in Hrun.
    rewrite (bind_ok _ _ n1 n1 oi eq_refl) in Hrun.
    rewrite bind_ret in Hrun.
    apply bind_inv in Hrun. destruct Hrun as (outs1 & n2 & Houts & Hrun).
    apply IH in Hrun. rewrite Hrun. cbn [List.filter fst].
    change (bool_decide (idx ∈ oi)) with (listed oi idx) in Houts.
    destruct (listed oi idx).
    + apply bind_inv in Houts. destruct Houts as (nl & n3 & _ & Houts).
      apply bind_inv in Houts. destruct Houts as (x_out & n4 & _ & Houts).
      apply ret_inv in Houts. destruct Houts as [-> _].
      rewrite length_app. cbn [length]. lia.
    + apply ret_inv in Houts. destruct Houts as [-> _]. lia.
Qed.

End Maps.

Lemma filter_combine_fst {A B} (f : A -> bool) (l1 : list A) :
  forall (l2 : list B), length l1 = length l2 ->
    length (List.filter (fun p => f (fst p)) (combine l1 l2))
    = length (List.filter f l1).
Proof.
  induction l1 as [|a l1 IH]; intros [|c l2] Hlen; cbn in *;
    try reflexivity; try discriminate.
  destruct (f a); cbn [length]; rewrite IH by lia; reflexivity.
Qed.

Lemma filter_out_of_range (oi : list nat) (bound : nat) :
  (forall i, i ∈ oi -> i < bound) ->
  forall k a, bound <= a ->
    List.filter (listed oi) (seq a k) = [].
Proof.
  intros Hoi. induction k as [|k IH]; intros a Ha; cbn [seq List.filter];
    [reflexivity|].
  assert (Hout : listed oi a = false).
  { apply bool_decide_eq_false_2. intros Hin. apply Hoi in Hin. lia. }
  rewrite Hout. apply IH. lia.
Qed.

(** Among the positions below [L], [0, 2, 4, 6] lists the even ones up to
    6. *)
Lemma count_out_indices (L : nat) :
  length (List.filter (listed [0; 2; 4; 6]) (seq 0 L))
  = Nat.min 4 ((L + 1) / 2).
Proof.
  destruct (Nat.lt_ge_cases L 7) as [Hlt|Hge].
  - do 7 (destruct L as [|L]; [vm_compute; reflexivity|]). lia.
  - replace L with (7 + (L - 7)) at 1 by lia.
    rewrite seq_app, List.filter_app, length_app.
    assert (Hhigh : List.filter (listed [0; 2; 4; 6])
                      (seq (0 + 7) (L - 7)) = []).
    { apply (filter_out_of_range [0; 2; 4; 6] 7); [|lia].
      intros i Hin.
      repeat (apply elem_of_cons in Hin; destruct Hin as [->|Hin]; [lia|]).
      apply elem_of_nil in Hin. contradiction. }
    rewrite Hhigh. rewrite Nat.min_l; [reflexivity|].
    apply Nat.div_le_lower_bound; lia.
Qed.

(** X24. A backbone returns one feature map per even network position up
    to 6: whenever [forward] succeeds on a constructed [fork_feat] model
    whose network has [L] entries, it returns a list of
    [min(4, (L + 1) // 2)] tensors, so fewer than four when downsamplings
    are left out. *)
Theorem X24_number_of_feature_maps (E : Env) (cfg : Config) (n n' : nat)
    (self : gmap string Value) (x : Tensor) (m k : nat) (o : Output) :
  PoolFormer_init E cfg n = Ok (self, n') -> fork_feat cfg = true ->
  forward E self x m = Ok (o, k) ->
  exists items l,
    self !! "network" = Some (VNetwork items) /\
    o = OList l /\
    length l = Nat.min 4 ((length items + 1) / 2).
Proof.
  intros Hinit Hfork Hrun.
  destruct (PoolFormer_init_inv E cfg n n' self Hinit)
    as (d0 & pe & items & n1 & n2 & _ & _ & _ & _ & Hnet & Hff & Hmode).
  rewrite Hfork in Hff, Hmode. destruct Hmode as (_ & _ & _ & Hoi).
  unfold forward in Hrun.
  apply bind_inv in Hrun. destruct Hrun as (x0 & k1 & _ & Hrun).
  apply bind_inv in Hrun. destruct Hrun as (r & k2 & Htok & Hrun).
  unfold getattr in Hrun. rewrite Hff in Hrun. cbn [rbind as_bool] in Hrun.
  rewrite (bind_ok _ _ k2 k2 true eq_refl) in Hrun.
  apply ret_inv in Hrun. destruct Hrun as [-> _].
  unfold forward_tokens, getattr in Htok. rewrite Hnet, Hff in Htok.
  cbn [rbind as_network as_bool] in Htok.
  rewrite (bind_ok _ _ k1 k1 items eq_refl) in Htok.
  apply bind_inv in Htok. destruct Htok as ([y outs] & k3 & Hloop & Htok).
  rewrite (bind_ok _ _ k3 k3 true eq_refl) in Htok.
  apply ret_inv in Htok. destruct Htok as [-> _].
  exists items, outs. split; [exact Hnet|]. split; [reflexivity|].
  apply (tokens_loop_count E self [0; 2; 4; 6] Hff Hoi) in Hloop.
  rewrite Hloop. cbn [length Nat.add]. unfold enumerate.
  etransitivity; [|apply count_out_indices].
  apply (filter_combine_fst (listed [0; 2; 4; 6])).
  apply length_seq.
Qed.

(** Four stages of one width without downsampling: a network of four
    entries and two feature maps. *)
Lemma X24_number_of_feature_maps_witness :
  exists self n0 items l k,
    PoolFormer_init env0 flat_feat_config 0 = Ok (self, n0) /\
    self !! "network" = Some (VNetwork items) /\
    forward env0 self (image 1 224 224) 0 = Ok (OList l, k) /\
    length l = Nat.min 4 ((length items + 1) / 2).
Proof.
  assert (Hok : match PoolFormer_init env0 flat_feat_config 0 with
                | Ok (self, _) =>
                    is_ok (forward env0 self (image 1 224 224) 0)
                | Err _ => false
                end = true)
    by (vm_compute; reflexivity).
  destruct (PoolFormer_init env0 flat_feat_config 0) as [[self n0]|e]
    eqn:Hinit; [|discriminate].
  destruct (forward env0 self (image 1 224 224) 0) as [[o k]|e] eqn:Hrun;
    [|discriminate].
  destruct (X24_number_of_feature_maps env0 flat_feat_config 0 n0 self
              (image 1 224 224) 0 k o Hinit eq_refl Hrun)
    as (items & l & Hnet & -> & Hlen).
  exists self, n0, items, l, k. auto.
Defined.

(** ** The shape contract of a stage *)

(** X25. A stage built by [basic_blocks] for width [dim] (odd
    [pool_size]) keeps the shape of every input [[B; dim; H; W]] with
    [dim, H, W >= 1], and, when it has a block, raises a runtime error on
    an input with another number of channels. *)
Theorem X25_stage_shape_contract (E : Env) (dim i : nat)
    (block_counts : list Z) (k : nat) (r dr dpr : Q) (uls : bool) (lsiv : Q)
    (n n' : nat) (blocks : list PoolFormerBlock) (x : Tensor)
    (B C H W m : nat) :
  basic_blocks E dim i block_counts k r dr dpr uls lsiv n = Ok (blocks, n') ->
  Nat.odd k = true -> tshape x = [B; C; H; W] ->
  (C = dim -> 1 <= dim -> 1 <= H -> 1 <= W ->
   exists y m', Sequential_forward E blocks x m = Ok (y, m') /\
                tshape y = [B; dim; H; W]) /\
  (C <> dim -> blocks <> [] ->
   Sequential_forward E blocks x m = Err RuntimeError).
Proof.
  intros Hbb Hk Hx.
  apply basic_blocks_inv in Hbb. destruct Hbb as (c & _ & _ & Hblk).
  assert (Hall : Forall (block_wf dim k) blocks).
  { apply Forall_lookup_2. intros j blk Hj.
    destruct (Hblk j blk Hj) as (rate & k1 & k2 & _ & Hinit).
    apply PoolFormerBlock_init_inv in Hinit. tauto. }
  split.
  - intros -> Hdim HH HW.
    exact (Sequential_forward_ok E dim k blocks Hall Hk Hdim x B H W m Hx
             HH HW).
  - intros HC Hne. destruct blocks as [|blk rest]; [congruence|].
    inversion Hall as [|? ? Hwf _]; subst.
    cbn [Sequential_forward]. apply bind_err.
    destruct Hwf as ((g & Hg & Hgc & _) & _ & _ & _ & Hls).
    assert (Hnorm : NormLayer_forward E (norm1 blk) x = Err RuntimeError).
    { rewrite Hg. cbn [NormLayer_forward]. unfold GroupNorm_forward.
      rewrite Hx, Hgc.
      destruct (C =? dim) eqn:Heq; [apply Nat.eqb_eq in Heq; congruence|].
      reflexivity. }
    unfold PoolFormerBlock_forward. destruct (use_layer_scale blk).
    + destruct (Hls eq_refl) as (t1 & t2 & H1 & _).
      rewrite H1. cbn [get_layer_scale].
      rewrite (bind_ok _ _ m m t1 eq_refl).
      apply bind_err. unfold lift. rewrite Hnorm. reflexivity.
    + apply bind_err. unfold lift. rewrite Hnorm. reflexivity.
Qed.

(** A stage of two blocks of width 2: the sample input keeps its shape, a
    three-channel input is refused. *)
Lemma X25_stage_shape_contract_witness :
  exists blocks n',
    basic_blocks env0 2 0 [2; 2]%Z 3 4 0 0 true (1 # 100000) 0
    = Ok (blocks, n') /\
    (exists y m', Sequential_forward env0 blocks sample_input 0 = Ok (y, m') /\
                  tshape y = [1; 2; 2; 2]) /\
    Sequential_forward env0 blocks (image 1 2 2) 0 = Err RuntimeError.
Proof.
  assert (Hok : match basic_blocks env0 2 0 [2; 2]%Z 3 4 0 0 true
                        (1 # 100000) 0 with
                | Ok (blocks, _) => negb (length blocks =? 0)
                | Err _ => false
                end = true)
    by (vm_compute; reflexivity).
  destruct (basic_blocks env0 2 0 [2; 2]%Z 3 4 0 0 true (1 # 100000) 0)
    as [[blocks n']|e] eqn:Hbb; [|discriminate].
  exists blocks, n'. split; [reflexivity|]. split.
  - destruct (X25_stage_shape_contract env0 2 0 [2; 2]%Z 3 4 0 0 true
                (1 # 100000) 0 n' blocks sample_input 1 2 2 2 0 Hbb eq_refl
                eq_refl) as [Hkeep _].
    apply Hkeep; [reflexivity | lia | lia | lia].
  - destruct (X25_stage_shape_contract env0 2 0 [2; 2]%Z 3 4 0 0 true
                (1 # 100000) 0 n' blocks (image 1 2 2) 1 3 2 2 0 Hbb eq_refl
                eq_refl) as [_ Hrej].
    apply Hrej; [lia|]. intros ->. discriminate.
Defined.
